(** * onlynetwork: the packet-level simulator, embedded and verified

    A shallow embedding of the simulator core of the repository
    (directories src/simulator and src/devices): topology and packet value types,
    the subnet utilities, the event queue, the device classes and the
    legacy behaviour functions, the graph analyzer, the driver
    [Simulator.simulate] and [convertTopology].

    JavaScript values are modelled as follows.
    - a string is the sequence of the bytes of its UTF-8 encoding;
    - a [number] that is always an integer in the code paths below (a TTL, a
      VLAN, a port, a time, a counter) is a [Z]; a number read from text by
      [parseInt] or [Number] is a [JS.number], a double;
    - an optional property ([ip?: string]) is an [option]; reading it when it is
      absent gives [None], standing for [undefined];
    - [Map<string, V>] is a [gmap string V], [Set<string>] a [gset string];
    - arrays are lists. *)

From Stdlib Require Import ZArith Lia List Ascii String Bool Sorted Permutation.
From stdpp Require Import base option list strings gmap pretty.

Local Open Scope string_scope.
Local Open Scope list_scope.
Local Open Scope Z_scope.

(** ** JavaScript primitives used by the simulator *)

Module JS.

(** [String.prototype.toUpperCase], on the ASCII letters. *)
Definition upper_ascii (c : ascii) : ascii :=
  let n := nat_of_ascii c in
  if ((97 <=? n)%nat && (n <=? 122)%nat)%bool then ascii_of_nat (n - 32) else c.

Fixpoint toUpperCase (s : string) : string :=
  match s with
  | EmptyString => EmptyString
  | String c r => String (upper_ascii c) (toUpperCase r)
  end.

(** [s.split(sep)] for a one-character separator: never the empty list. *)
Fixpoint split (sep : ascii) (s : string) : list string :=
  match s with
  | EmptyString => [EmptyString]
  | String c r =>
      if Ascii.eqb c sep then EmptyString :: split sep r
      else match split sep r with
           | [] => [String c EmptyString]
           | x :: xs => String c x :: xs
           end
  end.

(** [s.includes(c)] for a one-character needle. *)
Fixpoint includes (c : ascii) (s : string) : bool :=
  match s with
  | EmptyString => false
  | String d r => Ascii.eqb d c || includes c r
  end.

(** Truthiness of an optional string: [undefined] and [''] are falsy. *)
Definition truthy (s : option string) : bool :=
  match s with
  | None => false
  | Some s => negb (String.eqb s "")
  end.

(** [x || 1] for an optional integer: [undefined] and [0] are falsy. *)
Definition or_one (x : option Z) : Z :=
  match x with
  | None => 1
  | Some v => if v =? 0 then 1 else v
  end.

(** *** White space

    The white space [parseInt] and [Number] skip: the ECMAScript WhiteSpace
    and LineTerminator code points, each in its UTF-8 encoding. *)

(** TAB, LF, VT, FF, CR and SPACE. *)
Definition is_ws (c : ascii) : bool :=
  let n := nat_of_ascii c in
  ((9 <=? n)%nat && (n <=? 13)%nat || (n =? 32)%nat)%bool.

(** U+00A0. *)
Definition is_ws2 (c d : ascii) : bool :=
  ((N_of_ascii c =? 194) && (N_of_ascii d =? 160))%N.

(** U+1680, U+2000 to U+200A, U+2028, U+2029, U+202F, U+205F, U+3000 and
    U+FEFF. *)
Definition is_ws3 (c d e : ascii) : bool :=
  let c := N_of_ascii c in
  let d := N_of_ascii d in
  let e := N_of_ascii e in
  ((c =? 225) && (d =? 154) && (e =? 128)
   || (c =? 226) && (d =? 128)
      && ((128 <=? e) && (e <=? 138) || (e =? 168) || (e =? 169) || (e =? 175))
   || (c =? 226) && (d =? 129) && (e =? 159)
   || (c =? 227) && (d =? 128) && (e =? 128)
   || (c =? 239) && (d =? 187) && (e =? 191))%N.

Fixpoint skip_ws (s : string) : string :=
  match s with
  | EmptyString => EmptyString
  | String c r =>
      if is_ws c then skip_ws r
      else
        match r with
        | EmptyString => s
        | String d r1 =>
            if is_ws2 c d then skip_ws r1
            else
              match r1 with
              | EmptyString => s
              | String e r2 => if is_ws3 c d e then skip_ws r2 else s
              end
        end
  end.

Definition all_ws (s : string) : bool := String.eqb (skip_ws s) "".

Fixpoint rtrim (s : string) : string :=
  match s with
  | EmptyString => EmptyString
  | String c r => if all_ws s then EmptyString else String c (rtrim r)
  end.

(** *** Numbers

    A number is a double: [NaN], an infinity, or a finite value. A finite
    double is a dyadic rational: [Fin n k] is the value [n / 2 ^ k], kept in
    lowest terms, so that the integer [z] is [Fin z 0]. The two zeros are one
    value here: none of the operations the simulator applies to a number
    (comparison, [===], subtraction, division by 8, [Math.floor], [isNaN],
    [toString], and the conversion to a 32-bit integer of the bit operators)
    tells [-0] from [0]. *)
Inductive number := NaN | Inf (neg : bool) | Fin (n : Z) (k : N).

Definition Int (z : Z) : number := Fin z 0.

Definition opp (x : number) : number :=
  match x with
  | NaN => NaN
  | Inf s => Inf (negb s)
  | Fin n k => Fin (- n) k
  end.

(** [n / 2 ^ k] in lowest terms. *)
Fixpoint lowest (n : Z) (k : nat) : number :=
  match k with
  | O => Fin n 0
  | S k' => if Z.even n then lowest (n / 2) k' else Fin n (N.of_nat k)
  end.

(** The double nearest to the rational [n / d], for [n] and [d] positive:
    53 significant bits, ties to the even significand, multiples of
    [2 ^ -1074] below the normal range, [Infinity] from [2 ^ 1024] on. [e] is
    the exponent of the leading bit of [n / d] and [2 ^ q] the spacing of the
    doubles around it. *)
Definition round_pos (n d : Z) : number :=
  let e0 := Z.log2 n - Z.log2 d in
  let below := if 0 <=? e0 then n <? d * 2 ^ e0 else n * 2 ^ (- e0) <? d in
  let e := if below then e0 - 1 else e0 in
  let q := Z.max (e - 52) (-1074) in
  let num := if q <? 0 then n * 2 ^ (- q) else n in
  let den := if q <? 0 then d else d * 2 ^ q in
  let m := num / den in
  let r := num mod den in
  let m' := if 2 * r <? den then m
            else if (2 * r =? den) && Z.even m then m
            else m + 1 in
  if q <? 0 then lowest m' (Z.to_nat (- q))
  else if 2 ^ 1024 <=? m' * 2 ^ q then Inf false
  else Fin (m' * 2 ^ q) 0.

(** The double nearest to [n / d], for [d] positive. *)
Definition round (n d : Z) : number :=
  if n =? 0 then Fin 0 0
  else if n <? 0 then opp (round_pos (- n) d)
  else round_pos n d.

(** The number value of a mathematical integer. *)
Definition of_Z (z : Z) : number := round z 1.

(** The integer part of a number, as the conversions [ToInt32] and [ToUint32]
    take it: truncated towards zero, [0] for [NaN] and the infinities. *)
Definition int_of (x : number) : Z :=
  match x with
  | Fin n k => Z.quot n (2 ^ Z.of_N k)
  | _ => 0
  end.

Definition isNaN (x : number) : bool :=
  match x with
  | NaN => true
  | _ => false
  end.

(** The order of two numbers; [None] when one of them is [NaN]. *)
Definition cmp (a b : number) : option comparison :=
  match a, b with
  | NaN, _ | _, NaN => None
  | Inf s, Inf t => Some (if s then (if t then Eq else Lt) else (if t then Gt else Eq))
  | Inf s, Fin _ _ => Some (if s then Lt else Gt)
  | Fin _ _, Inf t => Some (if t then Gt else Lt)
  | Fin n k, Fin m j => Some (n * 2 ^ Z.of_N j ?= m * 2 ^ Z.of_N k)
  end.

(** [a > b], [a < b], [a >= b], [a <= b] and [a === b]: all false as soon as
    one side is [NaN]. *)
Definition gt (a b : number) : bool :=
  match cmp a b with
  | Some Gt => true
  | _ => false
  end.

Definition lt (a b : number) : bool :=
  match cmp a b with
  | Some Lt => true
  | _ => false
  end.

Definition ge (a b : number) : bool :=
  match cmp a b with
  | Some Gt | Some Eq => true
  | _ => false
  end.

Definition le (a b : number) : bool :=
  match cmp a b with
  | Some Lt | Some Eq => true
  | _ => false
  end.

Definition strict_eq (a b : number) : bool :=
  match cmp a b with
  | Some Eq => true
  | _ => false
  end.

(** [a - b]. *)
Definition sub (a b : number) : number :=
  match a, b with
  | NaN, _ | _, NaN => NaN
  | Inf s, Inf t => if Bool.eqb s t then NaN else Inf s
  | Inf s, Fin _ _ => Inf s
  | Fin _ _, Inf t => Inf (negb t)
  | Fin n k, Fin m j =>
      round (n * 2 ^ Z.of_N j - m * 2 ^ Z.of_N k) (2 ^ Z.of_N (k + j))
  end.

(** [a / d] for a positive integer constant [d]. *)
Definition div_by (a : number) (d : Z) : number :=
  match a with
  | Fin n k => round n (2 ^ Z.of_N k * d)
  | _ => a
  end.

(** [Math.floor]. *)
Definition floor (a : number) : number :=
  match a with
  | Fin n k => Fin (n / 2 ^ Z.of_N k) 0
  | _ => a
  end.

(** *** Reading numbers from text *)

(** Value of a digit in radix up to 36. *)
Definition digit_val (c : ascii) : option Z :=
  let n := Z.of_nat (nat_of_ascii c) in
  if (48 <=? n) && (n <=? 57) then Some (n - 48)
  else if (97 <=? n) && (n <=? 122) then Some (n - 87)
  else if (65 <=? n) && (n <=? 90) then Some (n - 55)
  else None.

(** The longest prefix of radix digits, read as a number; [acc] is the value
    read so far ([None]: no digit yet). *)
Fixpoint digits_prefix (radix : Z) (s : string) (acc : option Z) : option Z :=
  match s with
  | EmptyString => acc
  | String c r =>
      match digit_val c with
      | Some d =>
          if d <? radix
          then digits_prefix radix r (Some (default 0 acc * radix + d))
          else acc
      | None => acc
      end
  end.

(** [parseInt(s, radix)] for radix 10 and 16. The argument is converted to a
    string first, so [undefined] is read as the text ["undefined"]. Leading
    white space is skipped, a sign is read, with radix 16 a prefix [0x] is
    dropped, and the longest run of digits is read; without a digit the result
    is [NaN]. The integer read becomes the nearest double (ECMAScript leaves
    an implementation free to approximate after the 20th significant digit;
    the common engines round correctly, as here). *)
Definition parseInt (s : option string) (radix : Z) : number :=
  let s0 := skip_ws (default "undefined" s) in
  let '(neg, s1) :=
    match s0 with
    | String "-" r => (true, r)
    | String "+" r => (false, r)
    | _ => (false, s0)
    end in
  let s2 :=
    if radix =? 16 then
      match s1 with
      | String "0" (String "x" r) => r
      | String "0" (String "X" r) => r
      | _ => s1
      end
    else s1 in
  match digits_prefix radix s2 None with
  | Some n => of_Z (if neg then - n else n)
  | None => NaN
  end.

(** The longest prefix of radix digits of [s]: its value after [acc], the
    number of digits read after [count], and the rest of the text. *)
Fixpoint span_digits (radix : Z) (s : string) (acc : Z) (count : nat)
  : Z * nat * string :=
  match s with
  | EmptyString => (acc, count, s)
  | String c r =>
      match digit_val c with
      | Some d =>
          if d <? radix then span_digits radix r (acc * radix + d) (S count)
          else (acc, count, s)
      | None => (acc, count, s)
      end
  end.

(** The literal [0x...], [0o...] or [0b...] after its prefix: one digit or
    more, and nothing else. *)
Definition radix_literal (radix : Z) (s : string) : number :=
  let read := span_digits radix s 0 0 in
  match read.1.2, read.2 with
  | S _, EmptyString => of_Z read.1.1
  | _, _ => NaN
  end.

(** The exponent part of a decimal literal, [e] or [E] with a signed run of
    digits; the empty text counts as exponent 0. *)
Definition exponent_part (s : string) : option Z :=
  match s with
  | EmptyString => Some 0
  | String c r =>
      if Ascii.eqb c "e" || Ascii.eqb c "E" then
        let neg := match r with String "-" _ => true | _ => false end in
        let r1 :=
          match r with
          | String "-" r' => r'
          | String "+" r' => r'
          | _ => r
          end in
        let read := span_digits 10 r1 0 0 in
        match read.1.2, read.2 with
        | S _, EmptyString => Some (if neg then - read.1.1 else read.1.1)
        | _, _ => None
        end
      else None
  end.

(** The double nearest to [m * 10 ^ e]. *)
Definition scale10 (m e : Z) : number :=
  if 0 <=? e then round (m * 10 ^ e) 1 else round m (10 ^ (- e)).

(** An unsigned decimal literal: [Infinity], or digits with an optional
    fraction and an optional exponent, with a digit before or after the
    point. *)
Definition unsigned_decimal (s : string) : number :=
  if String.eqb s "Infinity" then Inf false
  else
    let whole := span_digits 10 s 0 0 in
    match whole.2 with
    | String "." r =>
        let frac := span_digits 10 r whole.1.1 0 in
        match whole.1.2, frac.1.2 with
        | O, O => NaN
        | _, _ =>
            match exponent_part frac.2 with
            | Some e => scale10 frac.1.1 (e - Z.of_nat frac.1.2)
            | None => NaN
            end
        end
    | rest =>
        match whole.1.2 with
        | O => NaN
        | S _ =>
            match exponent_part rest with
            | Some e => scale10 whole.1.1 e
            | None => NaN
            end
        end
    end.

(** [Number(s)]: the text between leading and trailing white space is read as
    a numeric literal, a decimal literal with an optional sign or an unsigned
    hexadecimal, octal or binary one; the empty text is [0], and a text that
    is no literal is [NaN]. The value is the nearest double. *)
Definition Number (s : string) : number :=
  let t := rtrim (skip_ws s) in
  match t with
  | EmptyString => Fin 0 0
  | String "0" (String "x" r) | String "0" (String "X" r) => radix_literal 16 r
  | String "0" (String "o" r) | String "0" (String "O" r) => radix_literal 8 r
  | String "0" (String "b" r) | String "0" (String "B" r) => radix_literal 2 r
  | String "-" r => opp (unsigned_decimal r)
  | String "+" r => unsigned_decimal r
  | _ => unsigned_decimal t
  end.

(** [ToInt32] and [ToUint32] of an integer. *)
Definition ToUint32 (z : Z) : Z := z mod 2 ^ 32.

Definition ToInt32 (z : Z) : Z :=
  let m := z mod 2 ^ 32 in
  if 2 ^ 31 <=? m then m - 2 ^ 32 else m.

(** [a << n], [a | b], [a & b], [a >>> 0] on the integer parts of their
    operands. *)
Definition shl (a n : Z) : Z := ToInt32 (ToInt32 a * 2 ^ (ToUint32 n mod 32)).

Definition bor (a b : Z) : Z := ToInt32 (Z.lor (ToUint32 a) (ToUint32 b)).

Definition band (a b : Z) : Z := ToInt32 (Z.land (ToUint32 a) (ToUint32 b)).

Definition ushr0 (a : Z) : Z := ToUint32 a.

End JS.

(** ** Core types (src/simulator/types.ts) *)

Inductive Proto := tcp | udp | icmp | arp | other.

Definition proto_string (p : Proto) : string :=
  match p with
  | tcp => "tcp"
  | udp => "udp"
  | icmp => "icmp"
  | arp => "arp"
  | other => "other"
  end.

Module Packet.
Record t := mk {
  id : string;
  srcMac : string;
  dstMac : string;
  srcIp : option string;
  dstIp : option string;
  vlan : option Z;
  proto : Proto;
  srcPort : option Z;
  dstPort : option Z;
  ttl : Z;
  payload : option string
}.

(** [{ ...packet, vlan }], [{ ...packet, ttl }], [{ ...packet, srcMac }]. *)
Definition with_vlan (v : option Z) (p : t) : t :=
  mk (id p) (srcMac p) (dstMac p) (srcIp p) (dstIp p) v (proto p)
     (srcPort p) (dstPort p) (ttl p) (payload p).

Definition with_ttl (n : Z) (p : t) : t :=
  mk (id p) (srcMac p) (dstMac p) (srcIp p) (dstIp p) (vlan p) (proto p)
     (srcPort p) (dstPort p) n (payload p).

Definition with_srcMac (m : string) (p : t) : t :=
  mk (id p) m (dstMac p) (srcIp p) (dstIp p) (vlan p) (proto p)
     (srcPort p) (dstPort p) (ttl p) (payload p).
End Packet.

Module PacketSpec.
Record t := mk {
  srcNodeId : string;
  dstNodeId : string;
  srcIp : option string;
  dstIp : option string;
  proto : option Proto;
  srcPort : option Z;
  dstPort : option Z
}.
End PacketSpec.

Module TraceAction.
Inductive t :=
  receive | forward | flood | drop | deliver | learn | route | arp
| acl_allow | acl_deny.

Definition eqb (a b : t) : bool :=
  match a, b with
  | receive, receive | forward, forward | flood, flood | drop, drop
  | deliver, deliver | learn, learn | route, route | arp, arp
  | acl_allow, acl_allow | acl_deny, acl_deny => true
  | _, _ => false
  end.
End TraceAction.

Module TraceHop.
Record t := mk {
  time : Z;
  nodeId : string;
  nodeLabel : string;
  interfaceId : string;
  action : TraceAction.t;
  reason : string;
  packet : Packet.t
}.
End TraceHop.

(** An event before the queue stamps it: [Omit<SimEvent, 'time'>]. *)
Module Event.
Record t := mk {
  packet : Packet.t;
  nodeId : string;
  interfaceId : string
}.
End Event.

Module SimEvent.
Record t := mk {
  packet : Packet.t;
  nodeId : string;
  interfaceId : string;
  time : Z
}.
End SimEvent.

Module SimulationResult.
Record t := mk {
  success : bool;
  delivered : bool;
  blocked : bool;
  loop : bool;
  trace : list TraceHop.t;
  reason : string
}.
End SimulationResult.

Module MacTableEntry.
Record t := mk {
  mac : string;
  interfaceId : string;
  vlan : Z;
  timestamp : Z
}.
End MacTableEntry.

Abbreviation MacTable := (gmap string MacTableEntry.t).

Inductive TraceLevel := minimal | detailed.

Module SimulationOptions.
Record t := mk {
  maxHops : Z;
  stepMode : bool;
  traceLevel : TraceLevel
}.
End SimulationOptions.

Definition DEFAULT_SIM_OPTIONS : SimulationOptions.t :=
  SimulationOptions.mk 100 false detailed.

Inductive PortMode := access | trunk.

Module SimInterface.
Record t := mk {
  id : string;
  mac : string;
  ip : option string;
  vlan : option Z;
  portMode : option PortMode;
  allowedVlans : option (list Z)
}.
End SimInterface.

Inductive AclAction := allow | deny.

Module StaticRoute.
Record t := mk {
  prefix : string;
  nextHop : string;
  outInterface : string
}.
End StaticRoute.

Module AclRule.
Record t := mk {
  id : string;
  order : Z;
  action : AclAction;
  srcIp : option string;
  dstIp : option string;
  proto : option string;
  srcPort : option Z;
  dstPort : option Z
}.
End AclRule.

Inductive DeviceType :=
  host | switch | router | firewall | phone | server | laptop | cloud.

Module SimNode.
Record t := mk {
  id : string;
  type : DeviceType;
  label : string;
  interfaces : list SimInterface.t;
  macLearning : option bool;
  vlanDatabase : option (list Z);
  staticRoutes : option (list StaticRoute.t);
  aclRules : option (list AclRule.t);
  defaultPolicy : option AclAction
}.
End SimNode.

Module Endpoint.
Record t := mk {
  nodeId : string;
  interfaceId : string
}.
End Endpoint.

Module SimLink.
Record t := mk {
  id : string;
  source : Endpoint.t;
  target : Endpoint.t
}.
End SimLink.

Module SimTopology.
Record t := mk {
  nodes : list SimNode.t;
  links : list SimLink.t
}.
End SimTopology.

(** ** Utilities (src/simulator/utils.ts) *)

Fixpoint getConnectedInterface (links : list SimLink.t) (nodeId interfaceId : string)
  : option Endpoint.t :=
  match links with
  | [] => None
  | link :: rest =>
      if String.eqb (Endpoint.nodeId (SimLink.source link)) nodeId
         && String.eqb (Endpoint.interfaceId (SimLink.source link)) interfaceId
      then Some (SimLink.target link)
      else if String.eqb (Endpoint.nodeId (SimLink.target link)) nodeId
              && String.eqb (Endpoint.interfaceId (SimLink.target link)) interfaceId
      then Some (SimLink.source link)
      else getConnectedInterface rest nodeId interfaceId
  end.

Definition getNodeById (nodes : list SimNode.t) (nodeId : string) : option SimNode.t :=
  find (fun n => String.eqb (SimNode.id n) nodeId) nodes.

Definition getInterfaceById (node : SimNode.t) (interfaceId : string)
  : option SimInterface.t :=
  find (fun i => String.eqb (SimInterface.id i) interfaceId) (SimNode.interfaces node).

Definition macTableKey (mac : string) (vlan : Z) : string :=
  JS.toUpperCase mac +:+ "-" +:+ pretty vlan.

Definition isBroadcastMac (mac : string) : bool :=
  String.eqb (JS.toUpperCase mac) "FF:FF:FF:FF:FF:FF".

Definition isMulticastMac (mac : string) : bool :=
  let firstOctet := JS.parseInt (head (JS.split ":" mac)) 16 in
  JS.band (JS.int_of firstOctet) 1 =? 1.

(** A part the address does not have reads [undefined], which the bit
    operators take as [0], as they take [NaN]. *)
Definition ipToNumber (ip : string) : Z :=
  let parts := map JS.Number (JS.split "." ip) in
  let part (i : nat) := JS.int_of (default JS.NaN (parts !! i)) in
  JS.bor (JS.bor (JS.bor (JS.shl (part 0%nat) 24) (JS.shl (part 1%nat) 16))
                 (JS.shl (part 2%nat) 8))
         (part 3%nat).

Definition prefixToMask (prefix : JS.number) : Z :=
  if JS.strict_eq prefix (JS.Int 0) then 0
  else JS.ushr0 (JS.shl (-1) (JS.int_of (JS.sub (JS.Int 32) prefix))).

Definition ipInSubnet (ip cidr : string) : bool :=
  let parts := JS.split "/" cidr in
  let subnetIp := default "" (parts !! 0%nat) in
  let prefixStr := parts !! 1%nat in
  let prefix := JS.parseInt prefixStr 10 in
  let ipNum := ipToNumber ip in
  let subnetNum := ipToNumber subnetIp in
  let mask := prefixToMask prefix in
  JS.band ipNum mask =? JS.band subnetNum mask.

(** The loop of [findBestRoute], with [bestRoute] and [bestPrefix] threaded. *)
Fixpoint findBestRoute_loop (routes : list StaticRoute.t) (dstIp : string)
    (bestRoute : option StaticRoute.t) (bestPrefix : JS.number) : option StaticRoute.t :=
  match routes with
  | [] => bestRoute
  | route :: rest =>
      let prefixStr := JS.split "/" (StaticRoute.prefix route) !! 1%nat in
      let prefix := JS.parseInt prefixStr 10 in
      if ipInSubnet dstIp (StaticRoute.prefix route) && JS.gt prefix bestPrefix
      then findBestRoute_loop rest dstIp (Some route) prefix
      else findBestRoute_loop rest dstIp bestRoute bestPrefix
  end.

Definition findBestRoute (staticRoutes : option (list StaticRoute.t)) (dstIp : string)
  : option StaticRoute.t :=
  match staticRoutes with
  | None | Some [] => None
  | Some routes => findBestRoute_loop routes dstIp None (JS.Int (-1))
  end.

(** ** Event queue (src/simulator/EventQueue.ts) *)

Module EventQueue.
Record t := mk {
  queue : list SimEvent.t;
  time : Z
}.

Definition new : t := mk [] 0.

Definition enqueue (event : Event.t) (q : t) : t :=
  mk (queue q ++ [SimEvent.mk (Event.packet event) (Event.nodeId event)
                    (Event.interfaceId event) (time q)])
     (time q).

(** [shift()]: the head, if any, and the queue without it. *)
Definition dequeue (q : t) : option SimEvent.t * t :=
  match queue q with
  | [] => (None, q)
  | e :: rest => (Some e, mk rest (time q))
  end.

Definition isEmpty (q : t) : bool :=
  match queue q with
  | [] => true
  | _ :: _ => false
  end.

Definition size (q : t) : nat := length (queue q).

Definition tick (q : t) : t := mk (queue q) (time q + 1).

Definition getTime (q : t) : Z := time q.

Definition clear (q : t) : t := mk [] 0.
(** [peek] and [getAll], the debugging accessors. *)
Definition peek (q : t) : option SimEvent.t := head (queue q).

Definition getAll (q : t) : list SimEvent.t := queue q.

End EventQueue.

(** ** Devices (src/devices) *)

Module DeviceProcessResult.
Record t := mk {
  events : list Event.t;
  trace : list TraceHop.t;
  delivered : bool
}.
End DeviceProcessResult.

(** The state a subclass adds to the base class [Device]. *)
Inductive DeviceClass :=
| HostDevice
| CloudDevice
| SwitchDevice (macLearning : bool) (vlanDatabase : list Z)
| RouterDevice (staticRoutes : list StaticRoute.t)
| FirewallDevice (aclRules : list AclRule.t) (defaultPolicy : AclAction).

Module Device.
Record t := mk {
  id : string;
  label : string;
  type : DeviceType;
  interfaces : list SimInterface.t;
  class : DeviceClass
}.

Definition getId (d : t) : string := id d.
Definition getLabel (d : t) : string := label d.
Definition getType (d : t) : DeviceType := type d.

Definition getInterface (d : t) (interfaceId : string) : option SimInterface.t :=
  find (fun i => String.eqb (SimInterface.id i) interfaceId) (interfaces d).

(** [iface.ip?.split('/')[0]] *)
Definition bare_ip (ip : option string) : option string :=
  match ip with
  | None => None
  | Some s => head (JS.split "/" s)
  end.

Definition opt_str_eqb (a b : option string) : bool :=
  match a, b with
  | Some x, Some y => String.eqb x y
  | None, None => true
  | _, _ => false
  end.

Definition isPacketForThisDevice (d : t) (packet : Packet.t) (interfaceId : string) : bool :=
  match getInterface d interfaceId with
  | None => false
  | Some iface =>
      let dstMacMatch :=
        String.eqb (JS.toUpperCase (Packet.dstMac packet))
                   (JS.toUpperCase (SimInterface.mac iface)) in
      let broadcastMatch :=
        String.eqb (JS.toUpperCase (Packet.dstMac packet)) "FF:FF:FF:FF:FF:FF" in
      let ipMatch :=
        if JS.truthy (Packet.dstIp packet)
        then opt_str_eqb (bare_ip (SimInterface.ip iface)) (Packet.dstIp packet)
        else false in
      dstMacMatch || broadcastMatch || ipMatch
  end.

Definition createTraceHop (d : t) (time : Z) (interfaceId : string)
    (action : TraceAction.t) (reason : string) (packet : Packet.t) : TraceHop.t :=
  TraceHop.mk time (id d) (label d) interfaceId action reason packet.

Definition createForwardEvent (packet : Packet.t) (targetNodeId targetInterfaceId : string)
  : Event.t :=
  Event.mk packet targetNodeId targetInterfaceId.

Definition findConnectedInterface (d : t) (links : list SimLink.t) (interfaceId : string)
  : option Endpoint.t :=
  getConnectedInterface links (id d) interfaceId.
End Device.

Definition result (events : list Event.t) (trace : list TraceHop.t) (delivered : bool)
  : DeviceProcessResult.t :=
  DeviceProcessResult.mk events trace delivered.

(** *** HostDevice *)

Module Host.
Definition processPacket (d : Device.t) (interfaceId : string) (packet : Packet.t)
    (time : Z) : DeviceProcessResult.t :=
  match Device.getInterface d interfaceId with
  | None =>
      result [] [Device.createTraceHop d time interfaceId TraceAction.drop
                   "Invalid interface" packet] false
  | Some iface =>
      if Device.isPacketForThisDevice d packet interfaceId
      then result [] [Device.createTraceHop d time interfaceId TraceAction.deliver
                        ("Packet delivered to " +:+ Device.label d) packet] true
      else result [] [Device.createTraceHop d time interfaceId TraceAction.drop
                        "Packet not addressed to this host" packet] false
  end.

(** [sendPacket]; [pid] is the identifier [generatePacketId()] returns. *)
Definition sendPacket (d : Device.t) (pid : string) (dstMac dstIp : string)
    (links : list SimLink.t) (time : Z) (proto : Proto)
    (srcPort dstPort : option Z) : DeviceProcessResult.t :=
  match Device.interfaces d with
  | [] => result [] [] false
  | iface :: _ =>
      let packet :=
        Packet.mk pid (SimInterface.mac iface) dstMac
          (Device.bare_ip (SimInterface.ip iface)) (Some dstIp)
          (SimInterface.vlan iface) proto srcPort dstPort 64 None in
      match Device.findConnectedInterface d links (SimInterface.id iface) with
      | None =>
          result [] [Device.createTraceHop d time (SimInterface.id iface)
                       TraceAction.drop "No link connected" packet] false
      | Some connected =>
          result [Device.createForwardEvent packet (Endpoint.nodeId connected)
                    (Endpoint.interfaceId connected)]
                 [Device.createTraceHop d time (SimInterface.id iface)
                    TraceAction.forward
                    ("Sending packet from " +:+ Device.label d +:+ " to " +:+ dstIp)
                    packet]
                 false
      end
  end.
End Host.

(** *** CloudDevice *)

Module Cloud.
Definition processPacket (d : Device.t) (interfaceId : string) (packet : Packet.t)
    (time : Z) : DeviceProcessResult.t :=
  match Device.getInterface d interfaceId with
  | None =>
      result [] [Device.createTraceHop d time interfaceId TraceAction.drop
                   "Invalid interface" packet] false
  | Some iface =>
      result [] [Device.createTraceHop d time interfaceId TraceAction.deliver
                   ("Packet delivered to " +:+ Device.label d +:+ " (Internet)")
                   packet] true
  end.
End Cloud.

(** *** Packet identifiers

    [generatePacketId] reads the clock and the random generator. The model
    draws the successive identifiers from a supply [gen 0], [gen 1], ... and
    threads the number drawn so far. *)

Module IdSupply.
Record t := mk {
  gen : nat -> string;
  drawn : nat
}.

Definition generatePacketId (s : t) : string * t :=
  (gen s (drawn s), mk (gen s) (S (drawn s))).
End IdSupply.

(** *** SwitchDevice *)

Module Switch.

(** [allowedVlans.includes(vlan)] *)
Definition includes (l : list Z) (vlan : Z) : bool := existsb (Z.eqb vlan) l.

(** [resolveVlan]; [None] is the [null] returned for a VLAN the trunk refuses. *)
Definition resolveVlan (packet : Packet.t) (ingressIface : SimInterface.t) : option Z :=
  match SimInterface.portMode ingressIface with
  | Some access =>
      let vlan := JS.or_one (SimInterface.vlan ingressIface) in
      Some (JS.or_one (Some vlan))
  | Some trunk =>
      let vlan := JS.or_one (Packet.vlan packet) in
      match SimInterface.allowedVlans ingressIface with
      | Some allowed =>
          if negb (includes allowed vlan) then None else Some (JS.or_one (Some vlan))
      | None => Some (JS.or_one (Some vlan))
      end
  | None => Some (JS.or_one (Packet.vlan packet))
  end.

Definition canEgressOnInterface (iface : SimInterface.t) (vlan : Z) : bool :=
  match SimInterface.portMode iface with
  | Some access =>
      match SimInterface.vlan iface with
      | Some v => v =? vlan
      | None => false
      end
  | Some trunk =>
      match SimInterface.allowedVlans iface with
      | None => true
      | Some allowed => includes allowed vlan
      end
  | None => vlan =? 1
  end.

Definition prepareEgressPacket (packet : Packet.t) (egressIface : SimInterface.t) : Packet.t :=
  match SimInterface.portMode egressIface with
  | Some access => Packet.with_vlan None packet
  | _ => packet
  end.

(** [learnMacAddress]: the table after the call, the trace hops pushed and the
    identifier supply after the call. *)
Definition learnMacAddress (d : Device.t) (ids : IdSupply.t) (mac interfaceId : string)
    (vlan time : Z) (macTable : MacTable) : MacTable * list TraceHop.t * IdSupply.t :=
  let key := macTableKey mac vlan in
  let existing := macTable !! key in
  let changed :=
    match existing with
    | None => true
    | Some e => negb (String.eqb (MacTableEntry.interfaceId e) interfaceId)
    end in
  if changed then
    let pid := (IdSupply.generatePacketId ids).1 in
    let ids' := (IdSupply.generatePacketId ids).2 in
    let learnPacket :=
      Packet.mk pid mac "" None None None icmp None None 64 None in
    (<[key := MacTableEntry.mk mac interfaceId vlan time]> macTable,
     [Device.createTraceHop d time interfaceId TraceAction.learn
        ("Learned " +:+ mac +:+ " on " +:+ interfaceId +:+ " (VLAN " +:+ pretty vlan +:+ ")")
        learnPacket],
     ids')
  else (macTable, [], ids).

(** [forwardToKnownPort]: the events and the trace hops pushed. *)
Definition forwardToKnownPort (d : Device.t) (egressInterfaceId : string)
    (packet : Packet.t) (ingressInterfaceId : string) (vlan : Z)
    (links : list SimLink.t) (time : Z) : list Event.t * list TraceHop.t :=
  match Device.getInterface d egressInterfaceId with
  | None => ([], [])
  | Some egressIface =>
      if String.eqb (SimInterface.id egressIface) ingressInterfaceId then ([], [])
      else if canEgressOnInterface egressIface vlan then
        let outPacket := prepareEgressPacket packet egressIface in
        match Device.findConnectedInterface d links (SimInterface.id egressIface) with
        | Some connected =>
            ([Device.createForwardEvent outPacket (Endpoint.nodeId connected)
                (Endpoint.interfaceId connected)],
             [Device.createTraceHop d time (SimInterface.id egressIface)
                TraceAction.forward
                ("Forwarding to known MAC on " +:+ SimInterface.id egressIface)
                outPacket])
        | None => ([], [])
        end
      else ([], [])
  end.

(** The [for] loop of [floodPacket] over the interfaces still to visit. *)
Fixpoint flood_loop (d : Device.t) (ifaces : list SimInterface.t) (packet : Packet.t)
    (ingressInterfaceId : string) (vlan : Z) (links : list SimLink.t) : list Event.t :=
  match ifaces with
  | [] => []
  | egressIface :: rest =>
      let more := flood_loop d rest packet ingressInterfaceId vlan links in
      if String.eqb (SimInterface.id egressIface) ingressInterfaceId then more
      else if canEgressOnInterface egressIface vlan then
        let outPacket := prepareEgressPacket packet egressIface in
        match Device.findConnectedInterface d links (SimInterface.id egressIface) with
        | Some connected =>
            Device.createForwardEvent outPacket (Endpoint.nodeId connected)
              (Endpoint.interfaceId connected) :: more
        | None => more
        end
      else more
  end.

Definition floodPacket (d : Device.t) (packet : Packet.t) (ingressInterfaceId : string)
    (vlan : Z) (links : list SimLink.t) (time : Z) (isBroadcast : bool)
  : list Event.t * list TraceHop.t :=
  (flood_loop d (Device.interfaces d) packet ingressInterfaceId vlan links,
   [Device.createTraceHop d time ingressInterfaceId TraceAction.flood
      (if isBroadcast then "Flooding broadcast" else "Unknown destination, flooding")
      packet]).

(** The egress decision of [processPacket]: unicast to the port the table
    knows for the destination, else flood. *)
Definition egress (d : Device.t) (processedPacket : Packet.t) (interfaceId : string)
    (vlan : Z) (links : list SimLink.t) (time : Z) (isBroadcast : bool)
    (dstEntry : option MacTableEntry.t) : list Event.t * list TraceHop.t :=
  match negb isBroadcast, dstEntry with
  | true, Some entry =>
      forwardToKnownPort d (MacTableEntry.interfaceId entry) processedPacket
        interfaceId vlan links time
  | _, _ => floodPacket d processedPacket interfaceId vlan links time isBroadcast
  end.

(** The learning step of [processPacket]: it runs when learning is enabled
    and the driver passed a table. *)
Definition learning (d : Device.t) (macLearning : bool) (ids : IdSupply.t)
    (interfaceId : string) (packet : Packet.t) (vlan time : Z)
    (macTable : option MacTable) : option MacTable * list TraceHop.t * IdSupply.t :=
  match macLearning, macTable with
  | true, Some table =>
      let r := learnMacAddress d ids (Packet.srcMac packet) interfaceId vlan time table in
      (Some r.1.1, r.1.2, r.2)
  | _, _ => (macTable, [], ids)
  end.

(** [processPacket] of a switch with the given [macLearning] flag. The MAC
    table is the [Map] the driver passes in, updated in place by learning: the
    model returns it. *)
Definition processPacket (d : Device.t) (macLearning : bool) (ids : IdSupply.t)
    (interfaceId : string) (packet : Packet.t) (links : list SimLink.t) (time : Z)
    (macTable : option MacTable)
  : DeviceProcessResult.t * option MacTable * IdSupply.t :=
  match Device.getInterface d interfaceId with
  | None =>
      (result [] [Device.createTraceHop d time interfaceId TraceAction.drop
                    "Invalid ingress interface" packet] false,
       macTable, ids)
  | Some ingressIface =>
      match resolveVlan packet ingressIface with
      | None =>
          (result [] [Device.createTraceHop d time interfaceId TraceAction.drop
                        "VLAN not allowed on trunk" packet] false,
           macTable, ids)
      | Some vlan =>
          let processedPacket := Packet.with_vlan (Some vlan) packet in
          let learned := learning d macLearning ids interfaceId packet vlan time macTable in
          let macTable1 := learned.1.1 in
          let receiveTrace :=
            [Device.createTraceHop d time interfaceId TraceAction.receive
               ("Packet received on " +:+ interfaceId) processedPacket] in
          let isBroadcast :=
            isBroadcastMac (Packet.dstMac packet) || isMulticastMac (Packet.dstMac packet) in
          let dstKey := macTableKey (Packet.dstMac packet) vlan in
          let dstEntry := macTable1 ≫= (fun table => table !! dstKey) in
          let out := egress d processedPacket interfaceId vlan links time isBroadcast
                       dstEntry in
          (result out.1 (learned.1.2 ++ receiveTrace ++ out.2) false, macTable1, learned.2)
      end
  end.
End Switch.

(** *** RouterDevice *)

Module Router.

Definition isPacketForRouter (d : Device.t) (packet : Packet.t) : bool :=
  existsb (fun iface =>
             let ifaceIp := Device.bare_ip (SimInterface.ip iface) in
             JS.truthy ifaceIp && Device.opt_str_eqb ifaceIp (Packet.dstIp packet))
          (Device.interfaces d).

(** The [for] loop of [findDirectRoute] over the interfaces still to visit:
    the event returned and the trace hop pushed, or [None] for [null]. *)
Fixpoint findDirectRoute_loop (d : Device.t) (ifaces : list SimInterface.t)
    (dstIp ingressInterfaceId : string) (links : list SimLink.t)
    (routedPacket : Packet.t) (time : Z) : option (Event.t * TraceHop.t) :=
  match ifaces with
  | [] => None
  | iface :: rest =>
      let next :=
        findDirectRoute_loop d rest dstIp ingressInterfaceId links routedPacket time in
      if String.eqb (SimInterface.id iface) ingressInterfaceId
         || negb (JS.truthy (SimInterface.ip iface))
      then next
      else if ipInSubnet dstIp (default "" (SimInterface.ip iface)) then
        let forwardedPacket := Packet.with_srcMac (SimInterface.mac iface) routedPacket in
        match Device.findConnectedInterface d links (SimInterface.id iface) with
        | Some connected =>
            Some (Device.createForwardEvent forwardedPacket (Endpoint.nodeId connected)
                    (Endpoint.interfaceId connected),
                  Device.createTraceHop d time (SimInterface.id iface) TraceAction.route
                    ("Routing to directly connected network via " +:+ SimInterface.id iface)
                    forwardedPacket)
        | None => next
        end
      else next
  end.

Definition findDirectRoute (d : Device.t) (dstIp ingressInterfaceId : string)
    (links : list SimLink.t) (routedPacket : Packet.t) (time : Z)
  : option (Event.t * TraceHop.t) :=
  findDirectRoute_loop d (Device.interfaces d) dstIp ingressInterfaceId links
    routedPacket time.

Definition findStaticRoute (d : Device.t) (staticRoutes : list StaticRoute.t)
    (dstIp : string) (links : list SimLink.t) (routedPacket : Packet.t) (time : Z)
  : option (Event.t * TraceHop.t) :=
  match findBestRoute (Some staticRoutes) dstIp with
  | None => None
  | Some route =>
      match Device.getInterface d (StaticRoute.outInterface route) with
      | None => None
      | Some egressIface =>
          let forwardedPacket :=
            Packet.with_srcMac (SimInterface.mac egressIface) routedPacket in
          match Device.findConnectedInterface d links (SimInterface.id egressIface) with
          | Some connected =>
              Some (Device.createForwardEvent forwardedPacket (Endpoint.nodeId connected)
                      (Endpoint.interfaceId connected),
                    Device.createTraceHop d time (SimInterface.id egressIface)
                      TraceAction.route
                      ("Routing via static route " +:+ StaticRoute.prefix route
                         +:+ " -> " +:+ StaticRoute.nextHop route)
                      forwardedPacket)
          | None => None
          end
      end
  end.

Definition processPacket (d : Device.t) (staticRoutes : list StaticRoute.t)
    (interfaceId : string) (packet : Packet.t) (links : list SimLink.t) (time : Z)
  : DeviceProcessResult.t :=
  match Device.getInterface d interfaceId with
  | None =>
      result [] [Device.createTraceHop d time interfaceId TraceAction.drop
                   "Invalid ingress interface" packet] false
  | Some ingressIface =>
      if isPacketForRouter d packet then
        result [] [Device.createTraceHop d time interfaceId TraceAction.deliver
                     ("Packet delivered to router " +:+ Device.label d) packet] true
      else if Packet.ttl packet <=? 1 then
        result [] [Device.createTraceHop d time interfaceId TraceAction.drop
                     "TTL expired" packet] false
      else
        let routedPacket := Packet.with_ttl (Packet.ttl packet - 1) packet in
        let receiveHop :=
          Device.createTraceHop d time interfaceId TraceAction.receive
            ("Packet received on " +:+ interfaceId) routedPacket in
        if negb (JS.truthy (Packet.dstIp packet)) then
          result [] [receiveHop;
                     Device.createTraceHop d time interfaceId TraceAction.drop
                       "No destination IP for routing" routedPacket] false
        else
          let dstIp := default "" (Packet.dstIp packet) in
          match findDirectRoute d dstIp interfaceId links routedPacket time with
          | Some (directRoute, hop) => result [directRoute] [receiveHop; hop] false
          | None =>
              match findStaticRoute d staticRoutes dstIp links routedPacket time with
              | Some (staticRoute, hop) => result [staticRoute] [receiveHop; hop] false
              | None =>
                  result [] [receiveHop;
                             Device.createTraceHop d time interfaceId TraceAction.drop
                               ("No route to " +:+ dstIp) routedPacket] false
              end
          end
  end.
End Router.

(** *** FirewallDevice *)

Definition action_string (a : AclAction) : string :=
  match a with
  | allow => "allow"
  | deny => "deny"
  end.

(** [[...rules].sort((a, b) => a.order - b.order)]: the sort is stable, rules
    of equal [order] keep their configured order. *)
Fixpoint insert_rule (r : AclRule.t) (sorted : list AclRule.t) : list AclRule.t :=
  match sorted with
  | [] => [r]
  | y :: ys =>
      if AclRule.order r <=? AclRule.order y then r :: y :: ys
      else y :: insert_rule r ys
  end.

Definition sort_rules (rules : list AclRule.t) : list AclRule.t :=
  foldr insert_rule [] rules.

Definition opt_Z_eqb (a b : option Z) : bool :=
  match a, b with
  | Some x, Some y => x =? y
  | None, None => true
  | _, _ => false
  end.

Module AclMatch.
Record t := mk {
  matched : bool;
  action : AclAction;
  matchedRule : option AclRule.t
}.
End AclMatch.

Module Firewall.

Definition isPacketForFirewall (d : Device.t) (packet : Packet.t) : bool :=
  existsb (fun iface =>
             let ifaceIp := Device.bare_ip (SimInterface.ip iface) in
             JS.truthy ifaceIp && Device.opt_str_eqb ifaceIp (Packet.dstIp packet))
          (Device.interfaces d).

(** One IP clause of [matchesRule]: [false] when the clause makes the function
    return [false], [true] when control falls through to the next clause. *)
Definition ip_clause_passes (ruleIp packetIp : option string) : bool :=
  if JS.truthy ruleIp && negb (Device.opt_str_eqb ruleIp (Some "any"))
     && JS.truthy packetIp
  then
    let r := default "" ruleIp in
    let p := default "" packetIp in
    if JS.includes "/" r then ipInSubnet p r else String.eqb r p
  else true.

Definition matchesRule (packet : Packet.t) (rule : AclRule.t) : bool :=
  if JS.truthy (AclRule.proto rule)
     && negb (Device.opt_str_eqb (AclRule.proto rule) (Some "any"))
     && negb (Device.opt_str_eqb (AclRule.proto rule)
                (Some (proto_string (Packet.proto packet))))
  then false
  else if negb (ip_clause_passes (AclRule.srcIp rule) (Packet.srcIp packet)) then false
  else if negb (ip_clause_passes (AclRule.dstIp rule) (Packet.dstIp packet)) then false
  else if match AclRule.srcPort rule with
          | Some _ => negb (opt_Z_eqb (Packet.srcPort packet) (AclRule.srcPort rule))
          | None => false
          end
  then false
  else if match AclRule.dstPort rule with
          | Some _ => negb (opt_Z_eqb (Packet.dstPort packet) (AclRule.dstPort rule))
          | None => false
          end
  then false
  else true.

Definition matchAclRules (aclRules : list AclRule.t) (defaultPolicy : AclAction)
    (packet : Packet.t) : AclMatch.t :=
  let sortedRules := sort_rules aclRules in
  match find (matchesRule packet) sortedRules with
  | Some rule => AclMatch.mk true (AclRule.action rule) (Some rule)
  | None => AclMatch.mk false defaultPolicy None
  end.

(** The [for] loop of [forwardPacket] over the interfaces still to visit. *)
Fixpoint forwardPacket_loop (d : Device.t) (ifaces : list SimInterface.t)
    (packet : Packet.t) (ingressInterfaceId : string) (links : list SimLink.t)
    (time : Z) : option (Event.t * TraceHop.t) :=
  match ifaces with
  | [] => None
  | egressIface :: rest =>
      let next := forwardPacket_loop d rest packet ingressInterfaceId links time in
      if String.eqb (SimInterface.id egressIface) ingressInterfaceId then next
      else
        match Device.findConnectedInterface d links (SimInterface.id egressIface) with
        | Some connected =>
            let forwardedPacket :=
              Packet.with_srcMac (SimInterface.mac egressIface) packet in
            Some (Device.createForwardEvent forwardedPacket (Endpoint.nodeId connected)
                    (Endpoint.interfaceId connected),
                  Device.createTraceHop d time (SimInterface.id egressIface)
                    TraceAction.forward
                    ("Forwarding via " +:+ SimInterface.id egressIface)
                    forwardedPacket)
        | None => next
        end
  end.

Definition forwardPacket (d : Device.t) (packet : Packet.t) (ingressInterfaceId : string)
    (links : list SimLink.t) (time : Z) : option (Event.t * TraceHop.t) :=
  forwardPacket_loop d (Device.interfaces d) packet ingressInterfaceId links time.

Definition verdict_reason (verb : string) (aclResult : AclMatch.t)
    (defaultPolicy : AclAction) : string :=
  if AclMatch.matched aclResult
  then verb +:+ " by ACL rule "
         +:+ match AclMatch.matchedRule aclResult with
             | Some r => pretty (AclRule.order r)
             | None => "undefined"
             end
  else verb +:+ " by default policy (" +:+ action_string defaultPolicy +:+ ")".

Definition processPacket (d : Device.t) (aclRules : list AclRule.t)
    (defaultPolicy : AclAction) (interfaceId : string) (packet : Packet.t)
    (links : list SimLink.t) (time : Z) : DeviceProcessResult.t :=
  match Device.getInterface d interfaceId with
  | None =>
      result [] [Device.createTraceHop d time interfaceId TraceAction.drop
                   "Invalid ingress interface" packet] false
  | Some ingressIface =>
      let receiveHop :=
        Device.createTraceHop d time interfaceId TraceAction.receive
          ("Packet received on " +:+ interfaceId) packet in
      if isPacketForFirewall d packet then
        result [] [receiveHop;
                   Device.createTraceHop d time interfaceId TraceAction.deliver
                     ("Packet delivered to firewall " +:+ Device.label d) packet] true
      else
        let aclResult := matchAclRules aclRules defaultPolicy packet in
        match AclMatch.action aclResult with
        | deny =>
            result [] [receiveHop;
                       Device.createTraceHop d time interfaceId TraceAction.acl_deny
                         (verdict_reason "Blocked" aclResult defaultPolicy) packet] false
        | allow =>
            let allowHop :=
              Device.createTraceHop d time interfaceId TraceAction.acl_allow
                (verdict_reason "Allowed" aclResult defaultPolicy) packet in
            match forwardPacket d packet interfaceId links time with
            | Some (forwardEvent, hop) =>
                result [forwardEvent] [receiveHop; allowHop; hop] false
            | None => result [] [receiveHop; allowHop] false
            end
        end
  end.
(** [addAclRule] (push, then sort in place by [order]) and [removeAclRule]:
    the list [aclRules] of the firewall after the call. *)
Definition addAclRule (rule : AclRule.t) (aclRules : list AclRule.t) : list AclRule.t :=
  sort_rules (aclRules ++ [rule]).

Definition removeAclRule (ruleId : string) (aclRules : list AclRule.t) : list AclRule.t :=
  List.filter (fun r => negb (String.eqb (AclRule.id r) ruleId)) aclRules.

End Firewall.

(** *** DeviceFactory.createFromSimNode and the polymorphic [processPacket] *)

Definition createFromSimNode (simNode : SimNode.t) : Device.t :=
  let base := Device.mk (SimNode.id simNode) (SimNode.label simNode)
                (SimNode.type simNode) (SimNode.interfaces simNode) in
  match SimNode.type simNode with
  | switch =>
      base (SwitchDevice (default true (SimNode.macLearning simNode))
              (default [1] (SimNode.vlanDatabase simNode)))
  | router => base (RouterDevice (default [] (SimNode.staticRoutes simNode)))
  | firewall =>
      base (FirewallDevice (default [] (SimNode.aclRules simNode))
              (default deny (SimNode.defaultPolicy simNode)))
  | cloud => base CloudDevice
  | host | phone | server | laptop => base HostDevice
  end.

Definition processPacket (d : Device.t) (ids : IdSupply.t) (interfaceId : string)
    (packet : Packet.t) (links : list SimLink.t) (time : Z) (macTable : option MacTable)
  : DeviceProcessResult.t * option MacTable * IdSupply.t :=
  match Device.class d with
  | HostDevice => (Host.processPacket d interfaceId packet time, macTable, ids)
  | CloudDevice => (Cloud.processPacket d interfaceId packet time, macTable, ids)
  | SwitchDevice macLearning _ =>
      Switch.processPacket d macLearning ids interfaceId packet links time macTable
  | RouterDevice staticRoutes =>
      (Router.processPacket d staticRoutes interfaceId packet links time, macTable, ids)
  | FirewallDevice aclRules defaultPolicy =>
      (Firewall.processPacket d aclRules defaultPolicy interfaceId packet links time,
       macTable, ids)
  end.

(** ** Legacy behaviour functions (src/simulator/behaviors) *)

Module BehaviorResult.
Record t := mk {
  events : list Event.t;
  trace : list TraceHop.t;
  delivered : bool
}.
End BehaviorResult.

Definition hop (node : SimNode.t) (time : Z) (interfaceId : string)
    (action : TraceAction.t) (reason : string) (packet : Packet.t) : TraceHop.t :=
  TraceHop.mk time (SimNode.id node) (SimNode.label node) interfaceId action reason packet.

Module SwitchBehavior.

Module SwitchBehaviorResult.
Record t := mk {
  events : list Event.t;
  trace : list TraceHop.t
}.
End SwitchBehaviorResult.

Definition canEgressOnInterface (iface : SimInterface.t) (vlan : Z) : bool :=
  match SimInterface.portMode iface with
  | Some access =>
      match SimInterface.vlan iface with
      | Some v => v =? vlan
      | None => false
      end
  | Some trunk =>
      match SimInterface.allowedVlans iface with
      | None => true
      | Some allowed => existsb (Z.eqb vlan) allowed
      end
  | None => vlan =? 1
  end.

Definition prepareEgressPacket (packet : Packet.t) (egressIface : SimInterface.t) : Packet.t :=
  match SimInterface.portMode egressIface with
  | Some access => Packet.with_vlan None packet
  | _ => packet
  end.

(** The flooding [for] loop of [switchProcess]. *)
Fixpoint flood_loop (node : SimNode.t) (ifaces : list SimInterface.t)
    (processedPacket : Packet.t) (interfaceId : string) (vlan : Z)
    (links : list SimLink.t) : list Event.t :=
  match ifaces with
  | [] => []
  | egressIface :: rest =>
      let more := flood_loop node rest processedPacket interfaceId vlan links in
      if String.eqb (SimInterface.id egressIface) interfaceId then more
      else if canEgressOnInterface egressIface vlan then
        let outPacket := prepareEgressPacket processedPacket egressIface in
        match getConnectedInterface links (SimNode.id node) (SimInterface.id egressIface) with
        | Some connected =>
            Event.mk outPacket (Endpoint.nodeId connected) (Endpoint.interfaceId connected)
              :: more
        | None => more
        end
      else more
  end.

(** The ingress VLAN of [switchProcess]: [inl vlan] when the packet is taken,
    [inr vlan] when a trunk refuses that VLAN. *)
Definition ingress_vlan (ingressIface : SimInterface.t) (packet : Packet.t) : Z + Z :=
  match SimInterface.portMode ingressIface with
  | Some access => inl (JS.or_one (Some (JS.or_one (SimInterface.vlan ingressIface))))
  | Some trunk =>
      let vlan := JS.or_one (Packet.vlan packet) in
      match SimInterface.allowedVlans ingressIface with
      | Some allowed =>
          if negb (existsb (Z.eqb vlan) allowed) then inr vlan
          else inl (JS.or_one (Some vlan))
      | None => inl (JS.or_one (Some vlan))
      end
  | None => inl (JS.or_one (Packet.vlan packet))
  end.

(** The learning step of [switchProcess]: the table after it and the trace
    hops pushed. *)
Definition learning (node : SimNode.t) (interfaceId : string) (packet : Packet.t)
    (vlan time : Z) (macTable : MacTable) : MacTable * list TraceHop.t :=
  if match SimNode.macLearning node with
     | Some false => false
     | _ => true
     end
  then
    let key := macTableKey (Packet.srcMac packet) vlan in
    let changed :=
      match macTable !! key with
      | None => true
      | Some e => negb (String.eqb (MacTableEntry.interfaceId e) interfaceId)
      end in
    if changed then
      (<[key := MacTableEntry.mk (Packet.srcMac packet) interfaceId vlan time]> macTable,
       [hop node time interfaceId TraceAction.learn
          ("Learned " +:+ Packet.srcMac packet +:+ " on " +:+ interfaceId
             +:+ " (VLAN " +:+ pretty vlan +:+ ")")
          (Packet.with_vlan (Some vlan) packet)])
    else (macTable, [])
  else (macTable, []).

(** The egress decision of [switchProcess]. *)
Definition egress (node : SimNode.t) (processedPacket : Packet.t) (interfaceId : string)
    (vlan : Z) (links : list SimLink.t) (time : Z) (isBroadcast : bool)
    (dstEntry : option MacTableEntry.t) : list Event.t * list TraceHop.t :=
  match negb isBroadcast, dstEntry with
  | true, Some entry =>
      match find (fun i => String.eqb (SimInterface.id i)
                             (MacTableEntry.interfaceId entry))
                 (SimNode.interfaces node) with
      | Some egressIface =>
          if negb (String.eqb (SimInterface.id egressIface) interfaceId)
             && canEgressOnInterface egressIface vlan
          then
            let outPacket := prepareEgressPacket processedPacket egressIface in
            match getConnectedInterface links (SimNode.id node)
                    (SimInterface.id egressIface) with
            | Some connected =>
                ([Event.mk outPacket (Endpoint.nodeId connected)
                    (Endpoint.interfaceId connected)],
                 [hop node time (SimInterface.id egressIface) TraceAction.forward
                    ("Forwarding to known MAC on " +:+ SimInterface.id egressIface)
                    outPacket])
            | None => ([], [])
            end
          else ([], [])
      | None => ([], [])
      end
  | _, _ =>
      (flood_loop node (SimNode.interfaces node) processedPacket interfaceId vlan links,
       [hop node time interfaceId TraceAction.flood
          (if isBroadcast then "Flooding broadcast" else "Unknown destination, flooding")
          processedPacket])
  end.

Definition switchProcess (node : SimNode.t) (interfaceId : string) (packet : Packet.t)
    (links : list SimLink.t) (macTable : MacTable) (time : Z)
  : SwitchBehaviorResult.t * MacTable :=
  match find (fun i => String.eqb (SimInterface.id i) interfaceId) (SimNode.interfaces node) with
  | None =>
      (SwitchBehaviorResult.mk [] [hop node time interfaceId TraceAction.drop
                                     "Invalid ingress interface" packet],
       macTable)
  | Some ingressIface =>
      match ingress_vlan ingressIface packet with
      | inr vlan =>
          (SwitchBehaviorResult.mk []
             [hop node time interfaceId TraceAction.drop
                ("VLAN " +:+ pretty vlan +:+ " not allowed on trunk") packet],
           macTable)
      | inl vlan =>
          let processedPacket := Packet.with_vlan (Some vlan) packet in
          let learned := learning node interfaceId packet vlan time macTable in
          let macTable1 := learned.1 in
          let receiveTrace :=
            [hop node time interfaceId TraceAction.receive
               ("Packet received on " +:+ interfaceId) processedPacket] in
          let isBroadcast :=
            isBroadcastMac (Packet.dstMac packet) || isMulticastMac (Packet.dstMac packet) in
          let dstKey := macTableKey (Packet.dstMac packet) vlan in
          let dstEntry := macTable1 !! dstKey in
          let out := egress node processedPacket interfaceId vlan links time isBroadcast
                       dstEntry in
          (SwitchBehaviorResult.mk out.1 (learned.2 ++ receiveTrace ++ out.2), macTable1)
      end
  end.
End SwitchBehavior.

Module RouterBehavior.

(** The octet comparison of [routerProcess]: the first
    [Math.floor(subnetMask / 8)] dot-separated fields of the two addresses are
    compared as text, until two fields differ; with [NaN] for the prefix no
    field is compared. The counter [i] of the loop is a double and stops
    growing at [2 ^ 53]: a bound above that, finite or not, is never reached,
    and the loop then ends only where two fields differ, which can only be at
    an index one of the addresses has. [None] stands for a loop that does
    not end. *)
Definition octets_match (dstIp ifaceIp : string) (subnetMask : JS.number) : option bool :=
  let dstOctets := JS.split "." dstIp in
  let ifaceOctets := JS.split "." ifaceIp in
  let same (i : nat) := Device.opt_str_eqb (dstOctets !! i) (ifaceOctets !! i) in
  let octetsToCheck := JS.floor (JS.div_by subnetMask 8) in
  let unbounded :=
    if forallb same (seq 0 (Nat.max (length dstOctets) (length ifaceOctets)))
    then None else Some false in
  match octetsToCheck with
  | JS.NaN | JS.Inf true => Some true
  | JS.Inf false => unbounded
  | JS.Fin n _ =>
      if n <=? 2 ^ 53 then Some (forallb same (seq 0 (Z.to_nat n))) else unbounded
  end.

(** The directly-connected [for] loop of [routerProcess]; [None] when the
    octet comparison of an interface does not end. *)
Fixpoint direct_loop (node : SimNode.t) (ifaces : list SimInterface.t) (dstIp : string)
    (interfaceId : string) (links : list SimLink.t) (routedPacket : Packet.t) (time : Z)
  : option (option (Event.t * TraceHop.t)) :=
  match ifaces with
  | [] => Some None
  | iface :: rest =>
      let next := direct_loop node rest dstIp interfaceId links routedPacket time in
      if JS.truthy (SimInterface.ip iface) then
        let parts := JS.split "/" (default "" (SimInterface.ip iface)) in
        let ifaceIp := default "" (parts !! 0%nat) in
        let subnetMask := JS.parseInt (parts !! 1%nat) 10 in
        match octets_match dstIp ifaceIp subnetMask with
        | None => None
        | Some match_ =>
            if match_ && negb (String.eqb (SimInterface.id iface) interfaceId) then
              let forwardedPacket :=
                Packet.with_srcMac (SimInterface.mac iface) routedPacket in
              match getConnectedInterface links (SimNode.id node) (SimInterface.id iface) with
              | Some connected =>
                  Some (Some (Event.mk forwardedPacket (Endpoint.nodeId connected)
                                (Endpoint.interfaceId connected),
                              hop node time (SimInterface.id iface) TraceAction.route
                                ("Routing to directly connected network via "
                                   +:+ SimInterface.id iface)
                                forwardedPacket))
              | None => next
              end
            else next
        end
      else next
  end.

Definition static_lookup (node : SimNode.t) (dstIp : string) (links : list SimLink.t)
    (routedPacket : Packet.t) (time : Z) : option (Event.t * TraceHop.t) :=
  match findBestRoute (SimNode.staticRoutes node) dstIp with
  | None => None
  | Some route =>
      match find (fun i => String.eqb (SimInterface.id i) (StaticRoute.outInterface route))
                 (SimNode.interfaces node) with
      | None => None
      | Some egressIface =>
          let forwardedPacket :=
            Packet.with_srcMac (SimInterface.mac egressIface) routedPacket in
          match getConnectedInterface links (SimNode.id node)
                  (SimInterface.id egressIface) with
          | Some connected =>
              Some (Event.mk forwardedPacket (Endpoint.nodeId connected)
                      (Endpoint.interfaceId connected),
                    hop node time (SimInterface.id egressIface) TraceAction.route
                      ("Routing via static route " +:+ StaticRoute.prefix route
                         +:+ " -> " +:+ StaticRoute.nextHop route)
                      forwardedPacket)
          | None => None
          end
      end
  end.

Definition routerProcess (node : SimNode.t) (interfaceId : string) (packet : Packet.t)
    (links : list SimLink.t) (time : Z) : option BehaviorResult.t :=
  match find (fun i => String.eqb (SimInterface.id i) interfaceId) (SimNode.interfaces node) with
  | None =>
      Some (BehaviorResult.mk [] [hop node time interfaceId TraceAction.drop
                                    "Invalid ingress interface" packet] false)
  | Some ingressIface =>
      let isForUs :=
        existsb (fun iface =>
                   let ifaceIp := Device.bare_ip (SimInterface.ip iface) in
                   JS.truthy ifaceIp && Device.opt_str_eqb ifaceIp (Packet.dstIp packet))
                (SimNode.interfaces node) in
      if isForUs then
        Some (BehaviorResult.mk [] [hop node time interfaceId TraceAction.deliver
                                      ("Packet delivered to router " +:+ SimNode.label node)
                                      packet] true)
      else if Packet.ttl packet <=? 1 then
        Some (BehaviorResult.mk [] [hop node time interfaceId TraceAction.drop
                                      "TTL expired" packet] false)
      else
        let routedPacket := Packet.with_ttl (Packet.ttl packet - 1) packet in
        let receiveHop :=
          hop node time interfaceId TraceAction.receive
            ("Packet received on " +:+ interfaceId) routedPacket in
        if negb (JS.truthy (Packet.dstIp packet)) then
          Some (BehaviorResult.mk [] [receiveHop;
                                      hop node time interfaceId TraceAction.drop
                                        "No destination IP for routing" routedPacket] false)
        else
          let dstIp := default "" (Packet.dstIp packet) in
          match direct_loop node (SimNode.interfaces node) dstIp interfaceId links
                  routedPacket time with
          | None => None
          | Some (Some (ev, h)) => Some (BehaviorResult.mk [ev] [receiveHop; h] false)
          | Some None =>
              match static_lookup node dstIp links routedPacket time with
              | Some (ev, h) => Some (BehaviorResult.mk [ev] [receiveHop; h] false)
              | None =>
                  Some (BehaviorResult.mk [] [receiveHop;
                                              hop node time interfaceId TraceAction.drop
                                                ("No route to " +:+ dstIp) routedPacket]
                          false)
              end
          end
  end.
End RouterBehavior.

Module FirewallBehavior.

Definition ip_clause_passes (ruleIp packetIp : option string) : bool :=
  if JS.truthy ruleIp && negb (Device.opt_str_eqb ruleIp (Some "any"))
     && JS.truthy packetIp
  then
    let r := default "" ruleIp in
    let p := default "" packetIp in
    if JS.includes "/" r then ipInSubnet p r else String.eqb r p
  else true.

Definition matchesRule (packet : Packet.t) (rule : AclRule.t) : bool :=
  if JS.truthy (AclRule.proto rule)
     && negb (Device.opt_str_eqb (AclRule.proto rule) (Some "any"))
     && negb (Device.opt_str_eqb (AclRule.proto rule)
                (Some (proto_string (Packet.proto packet))))
  then false
  else if negb (ip_clause_passes (AclRule.srcIp rule) (Packet.srcIp packet)) then false
  else if negb (ip_clause_passes (AclRule.dstIp rule) (Packet.dstIp packet)) then false
  else if match AclRule.srcPort rule with
          | Some _ => negb (opt_Z_eqb (Packet.srcPort packet) (AclRule.srcPort rule))
          | None => false
          end
  then false
  else if match AclRule.dstPort rule with
          | Some _ => negb (opt_Z_eqb (Packet.dstPort packet) (AclRule.dstPort rule))
          | None => false
          end
  then false
  else true.

(** The rule loop of [firewallProcess]: [matched], [action], [matchedRule]. *)
Definition evaluate (node : SimNode.t) (packet : Packet.t) : AclMatch.t :=
  let aclRules := default [] (SimNode.aclRules node) in
  let sortedRules := sort_rules aclRules in
  match find (matchesRule packet) sortedRules with
  | Some rule => AclMatch.mk true (AclRule.action rule) (Some rule)
  | None => AclMatch.mk false (default deny (SimNode.defaultPolicy node)) None
  end.

(** The egress [for] loop of [firewallProcess]; the trace hop keeps the packet
    as received. *)
Fixpoint egress_loop (node : SimNode.t) (ifaces : list SimInterface.t)
    (packet : Packet.t) (interfaceId : string) (links : list SimLink.t) (time : Z)
  : option (Event.t * TraceHop.t) :=
  match ifaces with
  | [] => None
  | egressIface :: rest =>
      if String.eqb (SimInterface.id egressIface) interfaceId
      then egress_loop node rest packet interfaceId links time
      else
        match getConnectedInterface links (SimNode.id node)
                (SimInterface.id egressIface) with
        | Some connected =>
            Some (Event.mk (Packet.with_srcMac (SimInterface.mac egressIface) packet)
                    (Endpoint.nodeId connected) (Endpoint.interfaceId connected),
                  hop node time (SimInterface.id egressIface) TraceAction.forward
                    ("Forwarding via " +:+ SimInterface.id egressIface) packet)
        | None => egress_loop node rest packet interfaceId links time
        end
  end.

Definition firewallProcess (node : SimNode.t) (interfaceId : string) (packet : Packet.t)
    (links : list SimLink.t) (time : Z) : BehaviorResult.t :=
  match find (fun i => String.eqb (SimInterface.id i) interfaceId) (SimNode.interfaces node) with
  | None =>
      BehaviorResult.mk [] [hop node time interfaceId TraceAction.drop
                              "Invalid ingress interface" packet] false
  | Some ingressIface =>
      let receiveHop :=
        hop node time interfaceId TraceAction.receive
          ("Packet received on " +:+ interfaceId) packet in
      let isForUs :=
        existsb (fun iface =>
                   let ifaceIp := Device.bare_ip (SimInterface.ip iface) in
                   JS.truthy ifaceIp && Device.opt_str_eqb ifaceIp (Packet.dstIp packet))
                (SimNode.interfaces node) in
      if isForUs then
        BehaviorResult.mk [] [receiveHop;
                              hop node time interfaceId TraceAction.deliver
                                ("Packet delivered to firewall " +:+ SimNode.label node)
                                packet] true
      else
        let m := evaluate node packet in
        let order_text :=
          match AclMatch.matchedRule m with
          | Some r => pretty (AclRule.order r)
          | None => "undefined"
          end in
        match AclMatch.action m with
        | deny =>
            BehaviorResult.mk []
              [receiveHop;
               hop node time interfaceId TraceAction.acl_deny
                 (if AclMatch.matched m then "Blocked by ACL rule " +:+ order_text
                  else "Blocked by default policy ("
                         +:+ action_string (default deny (SimNode.defaultPolicy node))
                         +:+ ")")
                 packet] false
        | allow =>
            let allowHop :=
              hop node time interfaceId TraceAction.acl_allow
                (if AclMatch.matched m then "Allowed by ACL rule " +:+ order_text
                 else "Allowed by default policy ("
                        +:+ match SimNode.defaultPolicy node with
                            | Some a => action_string a
                            | None => "undefined"
                            end
                        +:+ ")")
                packet in
            match egress_loop node (SimNode.interfaces node) packet interfaceId links time with
            | Some (ev, h) => BehaviorResult.mk [ev] [receiveHop; allowHop; h] false
            | None => BehaviorResult.mk [] [receiveHop; allowHop] false
            end
        end
  end.
End FirewallBehavior.

(** ** Graph analyzer (src/simulator/GraphAnalyzer.ts)

    The analyzer stores the topology in a [graphlib] graph. The library is not
    part of the repository; its undirected [Graph] is modelled as the node names
    and the edges set so far. *)

Module Graph.
Record t := mk {
  nodes : list string;
  edges : list (string * string)
}.

Definition new : t := mk [] [].

Definition setNode (v : string) (g : t) : t :=
  if bool_decide (v ∈ nodes g) then g else mk (nodes g ++ [v]) (edges g).

(** [setEdge(v, w, label)]: both ends are converted to text ([undefined]
    becomes ["undefined"]) and added as nodes when missing. *)
Definition setEdge (v w : option string) (g : t) : t :=
  let v := default "undefined" v in
  let w := default "undefined" w in
  let g := setNode w (setNode v g) in
  mk (nodes g) (edges g ++ [(v, w)]).

(** Two node names joined by an edge, in either direction. *)
Definition adjacent (g : t) (a b : string) : Prop :=
  (a, b) ∈ edges g ∨ (b, a) ∈ edges g.

(** Connected through edges of the graph. *)
Definition connected (g : t) (a b : string) : Prop := rtc (adjacent g) a b.
End Graph.

(** [link.sourceNodeId] and [link.targetNodeId] as [buildGraph] reads them. The
    type [SimLink] declares the properties [id], [source] and [target] only:
    both reads give [undefined]. *)
Definition link_sourceNodeId (link : SimLink.t) : option string := None.

Definition link_targetNodeId (link : SimLink.t) : option string := None.

Definition buildGraph (topology : SimTopology.t) : Graph.t :=
  let g := foldl (fun g node => Graph.setNode (SimNode.id node) g) Graph.new
             (SimTopology.nodes topology) in
  foldl (fun g link => Graph.setEdge (link_sourceNodeId link) (link_targetNodeId link) g)
        g (SimTopology.links topology).

(** The reachability relation the pre-check is meant to decide: the nodes of
    the topology joined by its links, taken undirected. *)
Definition linked (topology : SimTopology.t) (a b : string) : Prop :=
  ∃ link, link ∈ SimTopology.links topology
    ∧ ((Endpoint.nodeId (SimLink.source link) = a ∧ Endpoint.nodeId (SimLink.target link) = b)
       ∨ (Endpoint.nodeId (SimLink.source link) = b ∧ Endpoint.nodeId (SimLink.target link) = a)).

Definition same_component (topology : SimTopology.t) (a b : string) : Prop :=
  rtc (linked topology) a b.

(** The methods of the analyzer that read the neighbourhood of a node. Of the
    library, [graph.hasEdge(v, w)] on an undirected graph holds for an edge set
    in either direction, and [graph.neighbors(v)] is [undefined] for a name
    that is no node, otherwise the names an edge joins to [v]. *)
Module GraphAnalyzer.

Definition hasEdge (g : Graph.t) (v w : string) : bool :=
  bool_decide ((v, w) ∈ Graph.edges g ∨ (w, v) ∈ Graph.edges g).

Definition neighbors (g : Graph.t) (v : string) : option (list string) :=
  if bool_decide (v ∈ Graph.nodes g) then
    Some (remove_dups
            (omap (fun e : string * string =>
                     if String.eqb e.1 v then Some e.2
                     else if String.eqb e.2 v then Some e.1
                     else None)
                  (Graph.edges g)))
  else None.

Definition getNeighbors (g : Graph.t) (nodeId : string) : list string :=
  default [] (neighbors g nodeId).

Definition areDirectlyConnected (g : Graph.t) (nodeId1 nodeId2 : string) : bool :=
  hasEdge g nodeId1 nodeId2 || hasEdge g nodeId2 nodeId1.

(** The isolation test of [validateTopology]: the nodes of the topology it
    reports as isolated. *)
Definition isolated (topology : SimTopology.t) : list SimNode.t :=
  List.filter (fun node =>
                 (length (getNeighbors (buildGraph topology) (SimNode.id node)) =? 0)%nat)
              (SimTopology.nodes topology).
End GraphAnalyzer.

(** ** The driver (src/simulator/Simulator.ts) *)

Definition failure (reason : string) : SimulationResult.t :=
  SimulationResult.mk false false false false [] reason.

Module Simulator.
Record t := mk {
  topology : SimTopology.t;
  options : SimulationOptions.t;
  eventQueue : EventQueue.t;
  macTables : gmap string MacTable;
  trace : list TraceHop.t;
  devices : gmap string Device.t;
  graph : Graph.t;
  ids : IdSupply.t
}.

Definition new (topology : SimTopology.t) (options : SimulationOptions.t)
    (ids : IdSupply.t) : t :=
  mk topology options EventQueue.new
     (foldl (fun tables node =>
               match SimNode.type node with
               | switch => <[SimNode.id node := (∅ : MacTable)]> tables
               | _ => tables
               end)
            ∅ (SimTopology.nodes topology))
     []
     (foldl (fun devices node => <[SimNode.id node := createFromSimNode node]> devices)
            ∅ (SimTopology.nodes topology))
     (buildGraph topology)
     ids.

Definition getDevice (s : t) (nodeId : string) : option Device.t := devices s !! nodeId.

Definition set_run (q : EventQueue.t) (tables : gmap string MacTable)
    (tr : list TraceHop.t) (i : IdSupply.t) (s : t) : t :=
  mk (topology s) (options s) q tables tr (devices s) (graph s) i.

(** [processAtDevice]: the result of the device, with the MAC table of a switch
    written back. *)
Definition processAtDevice (s : t) (device : Device.t) (interfaceId : string)
    (packet : Packet.t) (time : Z) : DeviceProcessResult.t * t :=
  let macTable :=
    match Device.getType device with
    | switch => macTables s !! Device.getId device
    | _ => None
    end in
  let out :=
    processPacket device (ids s) interfaceId packet (SimTopology.links (topology s))
      time macTable in
  let tables' :=
    match out.1.2 with
    | Some table => <[Device.getId device := table]> (macTables s)
    | None => macTables s
    end in
  (out.1.1, set_run (eventQueue s) tables' (trace s) out.2 s).

Definition stateKey (event : SimEvent.t) : string :=
  SimEvent.nodeId event +:+ "-" +:+ SimEvent.interfaceId event +:+ "-"
    +:+ Packet.id (SimEvent.packet event).

(** What [simulate] returns once the [while] loop is left. *)
Definition after_loop (s : t) (hops : Z) : SimulationResult.t :=
  if SimulationOptions.maxHops (options s) <=? hops then
    SimulationResult.mk false false false true (trace s)
      "Max hops exceeded (possible loop)"
  else
    let lastTrace := last (trace s) in
    let wasBlocked :=
      match lastTrace with
      | Some h =>
          TraceAction.eqb (TraceHop.action h) TraceAction.acl_deny
          || TraceAction.eqb (TraceHop.action h) TraceAction.drop
      | None => false
      end in
    SimulationResult.mk false false wasBlocked false (trace s)
      (if wasBlocked then from_option TraceHop.reason "" lastTrace
       else "Packet did not reach destination").

(** One pass through the body of the [while] loop leaves the function with a
    result or goes round again. *)
Inductive Step :=
| Return (r : SimulationResult.t) (s : t) (hops : Z)
| Continue (s : t) (hops : Z) (visitedStates : gset string).

(** The condition of the [while] loop. *)
Definition loop_guard (s : t) (hops : Z) : bool :=
  negb (EventQueue.isEmpty (eventQueue s))
  && (hops <? SimulationOptions.maxHops (options s)).

(** The body of the [while] loop. [None] stands for the [TypeError] that
    reading a property of [undefined] raises when [dequeue] finds the queue
    empty; the guard of the loop excludes it. *)
Definition loop_body (s : t) (hops : Z) (visitedStates : gset string) : option Step :=
  match EventQueue.dequeue (eventQueue s) with
  | (None, _) => None
  | (Some event, q1) =>
      let q2 := EventQueue.tick q1 in
      let s1 := set_run q2 (macTables s) (trace s) (ids s) s in
      let hops' := hops + 1 in
      let key := stateKey event in
      if bool_decide (key ∈ visitedStates) then
        Some (Return (SimulationResult.mk false false false true (trace s) "Loop detected")
                s1 hops')
      else
        let visited' := {[key]} ∪ visitedStates in
        match getDevice s1 (SimEvent.nodeId event) with
        | None => Some (Continue s1 hops' visited')
        | Some device =>
            let processed :=
              processAtDevice s1 device (SimEvent.interfaceId event)
                (SimEvent.packet event) (EventQueue.getTime q2) in
            let processResult := processed.1 in
            let s2 := processed.2 in
            let trace' := trace s2 ++ DeviceProcessResult.trace processResult in
            if DeviceProcessResult.delivered processResult then
              Some (Return (SimulationResult.mk true true false false trace'
                              ("Packet delivered to " +:+ Device.getLabel device))
                      (set_run (eventQueue s2) (macTables s2) trace' (ids s2) s2)
                      hops')
            else
              let q3 := foldl (fun q ev => EventQueue.enqueue ev q) (eventQueue s2)
                          (DeviceProcessResult.events processResult) in
              Some (Continue (set_run q3 (macTables s2) trace' (ids s2) s2) hops' visited')
        end
  end.

(** The main simulation loop. [fuel] bounds the iterations of the model;
    [None] means the fuel ran out before the loop was left. The value returned
    with the result is the simulator as the loop leaves it and the counter
    [hops]. *)
Fixpoint main_loop (fuel : nat) (s : t) (hops : Z) (visitedStates : gset string)
  : option (SimulationResult.t * t * Z) :=
  if loop_guard s hops then
    match fuel with
    | O => None
    | S fuel' =>
        match loop_body s hops visitedStates with
        | None => None
        | Some (Return r s' hops') => Some (r, s', hops')
        | Some (Continue s' hops' visited') => main_loop fuel' s' hops' visited'
        end
    end
  else Some (after_loop s hops, s, hops).
End Simulator.

Section Driver.

(** [Graph.prototype.path], the method [isReachable] calls, is not defined in
    the repository. It is a parameter: [None] stands for an exception, [null]
    or [undefined], each of which makes [isReachable] answer [false]. *)
Variable graph_path : Graph.t -> string -> string -> option (list string).

Definition isReachable (g : Graph.t) (sourceId targetId : string) : bool :=
  match graph_path g sourceId targetId with
  | Some path => (0 <? Z.of_nat (length path))
  | None => false
  end.

(** The part of [simulate] after the reachability pre-check: the source device
    is looked up, the first packet is sent and the main loop runs. *)
Definition simulate_from_seed (fuel : nat) (s : Simulator.t) (packetSpec : PacketSpec.t)
    (srcNode dstNode : SimNode.t) : option (SimulationResult.t * Simulator.t * Z) :=
  match Simulator.getDevice s (SimNode.id srcNode) with
  | None => Some (failure "Source device not found", s, 0)
  | Some srcDevice =>
      let dstIface := head (SimNode.interfaces dstNode) in
      let dstMac :=
        match dstIface with
        | Some i => if String.eqb (SimInterface.mac i) "" then "FF:FF:FF:FF:FF:FF"
                    else SimInterface.mac i
        | None => "FF:FF:FF:FF:FF:FF"
        end in
      let dstIp :=
        if JS.truthy (PacketSpec.dstIp packetSpec)
        then default "" (PacketSpec.dstIp packetSpec)
        else default "" (dstIface ≫= (fun i => Device.bare_ip (SimInterface.ip i))) in
      match Device.class srcDevice with
      | HostDevice =>
          let pid := (IdSupply.generatePacketId (Simulator.ids s)).1 in
          let ids1 :=
            match Device.interfaces srcDevice with
            | [] => Simulator.ids s
            | _ :: _ => (IdSupply.generatePacketId (Simulator.ids s)).2
            end in
          let sendResult :=
            Host.sendPacket srcDevice pid dstMac dstIp
              (SimTopology.links (Simulator.topology s))
              (EventQueue.getTime (Simulator.eventQueue s))
              (default icmp (PacketSpec.proto packetSpec))
              (PacketSpec.srcPort packetSpec) (PacketSpec.dstPort packetSpec) in
          let trace1 := Simulator.trace s ++ DeviceProcessResult.trace sendResult in
          let q1 := foldl (fun q ev => EventQueue.enqueue ev q) (Simulator.eventQueue s)
                      (DeviceProcessResult.events sendResult) in
          Simulator.main_loop fuel
            (Simulator.set_run q1 (Simulator.macTables s) trace1 ids1 s) 0 ∅
      | _ =>
          Some (failure "Source must be a host device (host, phone, server, laptop)", s, 0)
      end
  end.

Definition simulate (fuel : nat) (s0 : Simulator.t) (packetSpec : PacketSpec.t)
  : option (SimulationResult.t * Simulator.t * Z) :=
  let s := Simulator.set_run (EventQueue.clear (Simulator.eventQueue s0))
             (Simulator.macTables s0) [] (Simulator.ids s0) s0 in
  let nodes := SimTopology.nodes (Simulator.topology s) in
  match getNodeById nodes (PacketSpec.srcNodeId packetSpec) with
  | None =>
      Some (failure ("Source node " +:+ PacketSpec.srcNodeId packetSpec +:+ " not found"),
            s, 0)
  | Some srcNode =>
      match getNodeById nodes (PacketSpec.dstNodeId packetSpec) with
      | None =>
          Some (failure ("Destination node " +:+ PacketSpec.dstNodeId packetSpec
                           +:+ " not found"),
                s, 0)
      | Some dstNode =>
          if negb (isReachable (Simulator.graph s) (SimNode.id srcNode) (SimNode.id dstNode))
          then
            Some (failure ("No path exists between " +:+ SimNode.label srcNode
                             +:+ " and " +:+ SimNode.label dstNode),
                  s, 0)
          else simulate_from_seed fuel s packetSpec srcNode dstNode
      end
  end.

End Driver.

(** ** Topology conversion ([convertTopology] in src/simulator/Simulator.ts) *)

Module NodeConfig.
Record t := mk {
  interfaces : list SimInterface.t;
  macLearning : option bool;
  vlanDatabase : option (list Z);
  staticRoutes : option (list StaticRoute.t);
  aclRules : option (list AclRule.t);
  defaultPolicy : option AclAction
}.
End NodeConfig.

(** An editor node: [node.id], [node.data.type], [node.data.label] and
    [node.data.config]. *)
Module EditorNode.
Record t := mk {
  id : string;
  type : DeviceType;
  label : string;
  config : option NodeConfig.t
}.
End EditorNode.

Module EditorEdge.
Record t := mk {
  id : string;
  source : string;
  target : string;
  sourceHandle : option string;
  targetHandle : option string
}.
End EditorEdge.

Definition getInterfaceForConnection (nodes : list SimNode.t) (nodeId : string)
    (handleId : option string) : string :=
  match find (fun n => String.eqb (SimNode.id n) nodeId) nodes with
  | None => "eth0"
  | Some node =>
      if JS.truthy handleId
         && existsb (fun i => Device.opt_str_eqb (Some (SimInterface.id i)) handleId)
              (SimNode.interfaces node)
      then default "" handleId
      else
        match head (SimNode.interfaces node) with
        | Some i => if String.eqb (SimInterface.id i) "" then "eth0" else SimInterface.id i
        | None => "eth0"
        end
  end.

Definition convertTopology (nodes : list EditorNode.t) (edges : list EditorEdge.t)
  : SimTopology.t :=
  let simNodes :=
    map (fun node =>
           let c := EditorNode.config node in
           SimNode.mk (EditorNode.id node) (EditorNode.type node) (EditorNode.label node)
             (default [] (NodeConfig.interfaces <$> c))
             (c ≫= NodeConfig.macLearning) (c ≫= NodeConfig.vlanDatabase)
             (c ≫= NodeConfig.staticRoutes) (c ≫= NodeConfig.aclRules)
             (c ≫= NodeConfig.defaultPolicy))
        nodes in
  let simLinks :=
    map (fun edge =>
           SimLink.mk (EditorEdge.id edge)
             (Endpoint.mk (EditorEdge.source edge)
                (getInterfaceForConnection simNodes (EditorEdge.source edge)
                   (EditorEdge.sourceHandle edge)))
             (Endpoint.mk (EditorEdge.target edge)
                (getInterfaceForConnection simNodes (EditorEdge.target edge)
                   (EditorEdge.targetHandle edge))))
        edges in
  SimTopology.mk simNodes simLinks.

(** The editor's own reading of a handle id ([getPortId] in the topology store
    and in the canvas): [handleId.replace(/-source$|-target$/, '')]. *)
Fixpoint strip_handle_suffix (s : string) : string :=
  match s with
  | EmptyString => EmptyString
  | String c r =>
      if String.eqb s "-source" || String.eqb s "-target" then EmptyString
      else String c (strip_handle_suffix r)
  end.

Definition getPortId (handleId : option string) : option string :=
  if JS.truthy handleId then Some (strip_handle_suffix (default "" handleId)) else None.

(** ** Legacy host behaviour (src/simulator/behaviors/host.ts) *)

Module HostBehavior.

(** [hostReceive]. The interface is looked up with [find] and read through
    optional chaining, so an unknown interface is not an error here. *)
Definition hostReceive (node : SimNode.t) (interfaceId : string) (packet : Packet.t)
    (time : Z) : BehaviorResult.t :=
  let iface :=
    find (fun i => String.eqb (SimInterface.id i) interfaceId) (SimNode.interfaces node) in
  let isForUs :=
    Device.opt_str_eqb (Some (JS.toUpperCase (Packet.dstMac packet)))
      ((fun i => JS.toUpperCase (SimInterface.mac i)) <$> iface)
    || String.eqb (JS.toUpperCase (Packet.dstMac packet)) "FF:FF:FF:FF:FF:FF"
    || (JS.truthy (Packet.dstIp packet)
        && Device.opt_str_eqb (iface ≫= (fun i => Device.bare_ip (SimInterface.ip i)))
             (Packet.dstIp packet)) in
  if isForUs then
    BehaviorResult.mk [] [hop node time interfaceId TraceAction.deliver
                            ("Packet delivered to " +:+ SimNode.label node) packet] true
  else
    BehaviorResult.mk [] [hop node time interfaceId TraceAction.drop
                            "Packet not addressed to this host" packet] false.

(** [hostSend]; [pid] is the identifier [generatePacketId()] returns. *)
Definition hostSend (node : SimNode.t) (pid : string) (dstMac dstIp : string)
    (links : list SimLink.t) (time : Z) (proto : Proto)
    (srcPort dstPort : option Z) : BehaviorResult.t :=
  match SimNode.interfaces node with
  | [] => BehaviorResult.mk [] [] false
  | iface :: _ =>
      let packet :=
        Packet.mk pid (SimInterface.mac iface) dstMac
          (Device.bare_ip (SimInterface.ip iface)) (Some dstIp)
          (SimInterface.vlan iface) proto srcPort dstPort 64 None in
      match getConnectedInterface links (SimNode.id node) (SimInterface.id iface) with
      | None =>
          BehaviorResult.mk [] [hop node time (SimInterface.id iface) TraceAction.drop
                                  "No link connected" packet] false
      | Some connected =>
          BehaviorResult.mk
            [Event.mk packet (Endpoint.nodeId connected) (Endpoint.interfaceId connected)]
            [hop node time (SimInterface.id iface) TraceAction.forward
               ("Sending packet from " +:+ SimNode.label node +:+ " to " +:+ dstIp) packet]
            false
      end
  end.
End HostBehavior.

(** ** Validators and generators (src/lib/validators.ts) *)

Module Validators.

Definition is_hex (c : ascii) : bool :=
  let n := nat_of_ascii c in
  ((48 <=? n) && (n <=? 57) || (65 <=? n) && (n <=? 70) || (97 <=? n) && (n <=? 102))%nat.

(** The pattern [^([0-9A-Fa-f]{2}:){5}[0-9A-Fa-f]{2}$]: two hexadecimal digits,
    then [groups] times a colon and two hexadecimal digits, then the end. *)
Fixpoint mac_groups (groups : nat) (s : string) : bool :=
  match s with
  | String a (String b r) =>
      is_hex a && is_hex b
      && match groups, r with
         | O, EmptyString => true
         | S g, String ":" r' => mac_groups g r'
         | _, _ => false
         end
  | _ => false
  end.

Definition isValidMac (mac : string) : bool := mac_groups 5 mac.

(** The test [isValidIp] applies to each dot-separated part. [parseInt]
    returns [NaN], an infinity or an integer; [num.toString()] is only reached
    for an integer from 0 to 255, where it is the decimal spelling. *)
Definition valid_part (part : string) : bool :=
  match JS.parseInt (Some part) 10 with
  | JS.Fin num 0 => (0 <=? num) && (num <=? 255) && String.eqb part (pretty num)
  | _ => false
  end.

Definition isValidIp (ip : string) : bool :=
  let parts := JS.split "." ip in
  if negb (length parts =? 4)%nat then false else forallb valid_part parts.

Definition isValidCidr (cidr : string) : bool :=
  match JS.split "/" cidr with
  | [ip; prefix] =>
      if negb (isValidIp ip) then false
      else
        match JS.parseInt (Some prefix) 10 with
        | JS.Fin prefixNum 0 => (0 <=? prefixNum) && (prefixNum <=? 32)
        | _ => false
        end
  | _ => false
  end.

(** [hexDigits[k]] as the text appended to the address; an index outside the
    string reads [undefined]. *)
Definition hexDigit (k : Z) : string :=
  if (0 <=? k) && (k <? 16) then
    match String.get (Z.to_nat k) "0123456789ABCDEF" with
    | Some c => String c EmptyString
    | None => "undefined"
    end
  else "undefined".

(** [generateMac]. [rand n] is the value of the [n]-th evaluation of
    [Math.floor(Math.random() * 16)]; the loop makes [passes] more passes with
    [drawn] values consumed so far. *)
Fixpoint generateMac_loop (passes : nat) (rand : nat -> Z) (drawn : nat) (mac : string)
  : string :=
  match passes with
  | O => mac
  | S p =>
      generateMac_loop p rand (S (S drawn))
        (mac +:+ ":" +:+ hexDigit (rand drawn) +:+ hexDigit (rand (S drawn)))
  end.

Definition generateMac (rand : nat -> Z) : string := generateMac_loop 5 rand 0 "02".

(** [generateDefaultIp], for an integer index. *)
Definition generateDefaultIp (index : Z) : string :=
  "192.168.1." +:+ pretty (10 + index) +:+ "/24".
End Validators.

(** * Properties *)

(** ** The utilities on concrete inputs *)

Example ipInSubnet_ex1 : ipInSubnet "10.0.1.10" "10.0.1.1/24" = true.
Proof. vm_compute. reflexivity. Qed.

Example ipInSubnet_ex2 : ipInSubnet "10.0.1.200" "10.0.1.1/25" = false.
Proof. vm_compute. reflexivity. Qed.

Example ipInSubnet_ex3 : ipInSubnet "200.0.1.200" "0.0.0.0/0" = true.
Proof. vm_compute. reflexivity. Qed.

Example macTableKey_ex : macTableKey "aa:bb:cc:dd:ee:ff" 10 = "AA:BB:CC:DD:EE:FF-10".
Proof. vm_compute. reflexivity. Qed.

Example isMulticastMac_ex : isMulticastMac "01:00:5e:00:00:01" = true
  /\ isMulticastMac "10:22:33:44:55:66" = false.
Proof. vm_compute. split; reflexivity. Qed.

(** ** Firewall: clause semantics and rule evaluation *)

(** The clauses of an ACL rule as the specification words them. *)
Module Clause.

(** [proto]: absent or ["any"] matches anything, otherwise the protocol of the
    packet. *)
Definition proto (rule : AclRule.t) (packet : Packet.t) : bool :=
  negb (JS.truthy (AclRule.proto rule))
  || Device.opt_str_eqb (AclRule.proto rule) (Some "any")
  || Device.opt_str_eqb (AclRule.proto rule) (Some (proto_string (Packet.proto packet))).

(** An IP clause as stated: absent or ["any"] matches; a text with a slash is a
    CIDR containment test on the address of the packet; any other text must be
    equal to the address of the packet. A packet without that address cannot
    pass a containment or an equality test. *)
Definition ip_stated (ruleIp packetIp : option string) : bool :=
  if negb (JS.truthy ruleIp) || Device.opt_str_eqb ruleIp (Some "any") then true
  else
    match packetIp with
    | None => false
    | Some p =>
        let r := default "" ruleIp in
        if JS.includes "/" r then negb (String.eqb p "") && ipInSubnet p r
        else String.eqb r p
    end.

(** An IP clause as the code evaluates it: as stated, except that a packet
    carrying no such address passes. *)
Definition ip_lenient (ruleIp packetIp : option string) : bool :=
  negb (JS.truthy packetIp) || ip_stated ruleIp packetIp.

(** A port clause: absent matches, otherwise the ports are equal. *)
Definition port (rulePort packetPort : option Z) : bool :=
  match rulePort with
  | None => true
  | Some r => opt_Z_eqb packetPort (Some r)
  end.

(** Every configured clause matches, with the IP clauses as stated. *)
Definition all_stated (packet : Packet.t) (rule : AclRule.t) : bool :=
  proto rule packet
  && ip_stated (AclRule.srcIp rule) (Packet.srcIp packet)
  && ip_stated (AclRule.dstIp rule) (Packet.dstIp packet)
  && port (AclRule.srcPort rule) (Packet.srcPort packet)
  && port (AclRule.dstPort rule) (Packet.dstPort packet).

(** Every configured clause matches, with the lenient IP clauses. *)
Definition all_lenient (packet : Packet.t) (rule : AclRule.t) : bool :=
  proto rule packet
  && ip_lenient (AclRule.srcIp rule) (Packet.srcIp packet)
  && ip_lenient (AclRule.dstIp rule) (Packet.dstIp packet)
  && port (AclRule.srcPort rule) (Packet.srcPort packet)
  && port (AclRule.dstPort rule) (Packet.dstPort packet).

(** The verdict the stated semantics gives: the first rule, in ascending
    [order], all of whose clauses match as stated; else the default policy. *)
Definition verdict_stated (rules : list AclRule.t) (defaultPolicy : AclAction)
    (packet : Packet.t) : AclAction :=
  match find (all_stated packet) (sort_rules rules) with
  | Some rule => AclRule.action rule
  | None => defaultPolicy
  end.
End Clause.

Lemma opt_str_eqb_eq a b : Device.opt_str_eqb a b = true <-> a = b.
Proof.
  destruct a as [x|], b as [y|]; simpl; try (split; congruence).
  rewrite String.eqb_eq. split; congruence.
Qed.

Lemma opt_Z_eqb_sym a b : opt_Z_eqb a b = opt_Z_eqb b a.
Proof. destruct a, b; simpl; auto using Z.eqb_sym. Qed.

Lemma ip_clause_passes_lenient ruleIp packetIp :
  Firewall.ip_clause_passes ruleIp packetIp = Clause.ip_lenient ruleIp packetIp.
Proof.
  unfold Firewall.ip_clause_passes, Clause.ip_lenient, Clause.ip_stated.
  destruct packetIp as [p|]; simpl.
  - destruct (String.eqb p "") eqn:Hp; simpl.
    + rewrite andb_false_r. reflexivity.
    + rewrite andb_true_r.
      destruct (JS.truthy ruleIp); simpl; [|reflexivity].
      destruct (Device.opt_str_eqb ruleIp (Some "any")); reflexivity.
  - rewrite andb_false_r. reflexivity.
Qed.

Lemma matchesRule_clauses packet rule :
  Firewall.matchesRule packet rule = Clause.all_lenient packet rule.
Proof.
  unfold Firewall.matchesRule, Clause.all_lenient, Clause.proto, Clause.port.
  rewrite !ip_clause_passes_lenient.
  destruct (JS.truthy (AclRule.proto rule)); simpl;
    destruct (Device.opt_str_eqb (AclRule.proto rule) (Some "any")); simpl;
    destruct (Device.opt_str_eqb (AclRule.proto rule)
                (Some (proto_string (Packet.proto packet)))); simpl;
    try reflexivity;
    destruct (Clause.ip_lenient (AclRule.srcIp rule) (Packet.srcIp packet)); simpl;
    try reflexivity;
    destruct (Clause.ip_lenient (AclRule.dstIp rule) (Packet.dstIp packet)); simpl;
    try reflexivity;
    destruct (AclRule.srcPort rule) as [sp|]; simpl;
    try (destruct (opt_Z_eqb (Packet.srcPort packet) (Some sp)); simpl; try reflexivity);
    destruct (AclRule.dstPort rule) as [dp|]; simpl; try reflexivity;
    destruct (opt_Z_eqb (Packet.dstPort packet) (Some dp)); reflexivity.
Qed.

(** The legacy function has the same text as the method of the class. *)
Lemma legacy_matchesRule_eq packet rule :
  FirewallBehavior.matchesRule packet rule = Firewall.matchesRule packet rule.
Proof. reflexivity. Qed.

(** *** The sort *)

Definition order_le (a b : AclRule.t) : Prop := AclRule.order a <= AclRule.order b.

Lemma insert_rule_perm r l : Permutation (insert_rule r l) (r :: l).
Proof.
  induction l as [|y l IH]; simpl; [reflexivity|].
  destruct (AclRule.order r <=? AclRule.order y); [reflexivity|].
  rewrite IH. apply perm_swap.
Qed.

Lemma sort_rules_perm l : Permutation (sort_rules l) l.
Proof.
  induction l as [|x l IH]; simpl; [reflexivity|].
  rewrite insert_rule_perm. constructor. exact IH.
Qed.

Lemma insert_rule_sorted r l :
  StronglySorted order_le l -> StronglySorted order_le (insert_rule r l).
Proof.
  induction 1 as [|y l Hs IH Hy]; simpl.
  - repeat constructor.
  - destruct (AclRule.order r <=? AclRule.order y) eqn:E.
    + apply Z.leb_le in E. constructor; [constructor; assumption|].
      constructor; [exact E|].
      eapply Forall_impl; [exact Hy|]. unfold order_le; simpl; intros; lia.
    + apply Z.leb_gt in E. constructor; [exact IH|].
      rewrite (insert_rule_perm r l). constructor; [unfold order_le; lia|exact Hy].
Qed.

Lemma sort_rules_sorted l : StronglySorted order_le (sort_rules l).
Proof.
  induction l as [|x l IH]; simpl; [constructor|].
  apply insert_rule_sorted. exact IH.
Qed.

(** The first match of the sorted list, computed on the configured list: the
    head replaces the choice made in the tail when it matches and its order is
    not greater. *)
Fixpoint first_match (p : AclRule.t -> bool) (l : list AclRule.t) : option AclRule.t :=
  match l with
  | [] => None
  | x :: rest =>
      match first_match p rest with
      | Some y => if p x && (AclRule.order x <=? AclRule.order y) then Some x else Some y
      | None => if p x then Some x else None
      end
  end.

Lemma find_insert_rule p x s :
  StronglySorted order_le s ->
  find p (insert_rule x s) =
    match find p s with
    | Some y => if p x && (AclRule.order x <=? AclRule.order y) then Some x else Some y
    | None => if p x then Some x else None
    end.
Proof.
  induction 1 as [|y l Hs IH Hy]; simpl.
  - destruct (p x); reflexivity.
  - destruct (AclRule.order x <=? AclRule.order y) eqn:E; simpl.
    + destruct (p x) eqn:Px; simpl.
      * destruct (p y); simpl; [rewrite E; reflexivity|].
        destruct (find p l) as [z|] eqn:F; [|reflexivity].
        apply find_some in F as [Hz _].
        rewrite Forall_forall in Hy. apply list_elem_of_In in Hz.
        specialize (Hy z Hz). unfold order_le in Hy.
        apply Z.leb_le in E.
        replace (AclRule.order x <=? AclRule.order z) with true
          by (symmetry; apply Z.leb_le; lia).
        reflexivity.
      * destruct (p y); [reflexivity|]. destruct (find p l); reflexivity.
    + destruct (p y) eqn:Py; simpl.
      * rewrite E, andb_false_r. reflexivity.
      * exact IH.
Qed.

Lemma find_sort_rules p l : find p (sort_rules l) = first_match p l.
Proof.
  induction l as [|x l IH]; simpl; [reflexivity|].
  rewrite find_insert_rule by apply sort_rules_sorted.
  fold (sort_rules l). rewrite IH. reflexivity.
Qed.

(** What [first_match] picks: a matching rule of least order, the earliest of
    them in the configured list. *)
Lemma first_match_Some p l r :
  first_match p l = Some r ->
  exists l1 l2, l = l1 ++ r :: l2 /\ p r = true
    /\ (forall r', In r' l1 -> p r' = true -> AclRule.order r < AclRule.order r')
    /\ (forall r', In r' l2 -> p r' = true -> AclRule.order r <= AclRule.order r').
Proof.
  revert r. induction l as [|x l IH]; simpl; intros r H; [discriminate|].
  destruct (first_match p l) as [y|] eqn:F.
  - destruct (IH y eq_refl) as (l1 & l2 & -> & Py & H1 & H2).
    destruct (p x && (AclRule.order x <=? AclRule.order y)) eqn:E;
      injection H as <-.
    + apply andb_true_iff in E as [Px E]. apply Z.leb_le in E.
      exists [], (l1 ++ y :: l2). repeat split; auto.
      * intros r' [].
      * intros r' Hin Pr. apply in_app_or in Hin as [Hin|[<-|Hin]].
        -- specialize (H1 r' Hin Pr). lia.
        -- exact E.
        -- specialize (H2 r' Hin Pr). lia.
    + exists (x :: l1), l2. repeat split; auto.
      intros r' [<-|Hin] Pr; [|auto].
      rewrite Pr in E. simpl in E. apply Z.leb_gt in E. exact E.
  - destruct (p x) eqn:Px; [|discriminate]. injection H as <-.
    exists [], l. repeat split; auto.
    + intros r' [].
    + intros r' Hin Pr. exfalso.
      clear IH. induction l as [|z l IHl]; [destruct Hin|].
      simpl in F. destruct (first_match p l) as [w|] eqn:Fw.
      * destruct (p z && (AclRule.order z <=? AclRule.order w)); discriminate.
      * destruct (p z) eqn:Pz; [discriminate|].
        destruct Hin as [<-|Hin]; [congruence|]. apply IHl; auto.
Qed.

Lemma first_match_None p l :
  first_match p l = None <-> (forall r, In r l -> p r = false).
Proof.
  induction l as [|x l IH]; simpl.
  - split; [intros _ r []|reflexivity].
  - destruct (first_match p l) as [y|] eqn:F.
    + split.
      * destruct (p x && (AclRule.order x <=? AclRule.order y)); discriminate.
      * intros H. exfalso.
        assert (Hn : Some y = None) by (apply IH; intros r Hr; apply H; auto).
        discriminate.
    + destruct (p x) eqn:Px.
      * split; [discriminate|]. intros H. specialize (H x (or_introl eq_refl)). congruence.
      * split; [|reflexivity]. intros _ r [<-|Hr]; [exact Px|].
        apply IH; auto.
Qed.

Lemma matchAclRules_first_match rules defaultPolicy packet :
  Firewall.matchAclRules rules defaultPolicy packet =
    match first_match (Firewall.matchesRule packet) rules with
    | Some rule => AclMatch.mk true (AclRule.action rule) (Some rule)
    | None => AclMatch.mk false defaultPolicy None
    end.
Proof. unfold Firewall.matchAclRules. rewrite find_sort_rules. reflexivity. Qed.

Lemma matchesRule_ext packet :
  forall l, first_match (Firewall.matchesRule packet) l
            = first_match (Clause.all_lenient packet) l.
Proof.
  induction l as [|x l IH]; simpl; [reflexivity|].
  rewrite IH, matchesRule_clauses. reflexivity.
Qed.

(** C7, as amended. The firewall evaluates the rules sorted ascending by
    [order] (a stable sort of the configured list). A packet matches a rule
    iff every configured clause matches, where an IP clause also passes when
    the packet carries no such address. The matching rule of least order, the
    earliest configured among equals, decides allow versus deny; when no rule
    matches the default policy applies. The legacy [firewallProcess] evaluates
    the same way, and for a packet not addressed to the firewall the verdict
    shows as the [acl-deny] or [acl-allow] hop of [processPacket]. *)
Theorem C7_acl_first_match_by_order
    (rules : list AclRule.t) (defaultPolicy : AclAction) (packet : Packet.t) :
  let sorted := sort_rules rules in
  let m := Firewall.matchAclRules rules defaultPolicy packet in
  (Permutation sorted rules /\ StronglySorted order_le sorted)
  /\ (forall rule, Firewall.matchesRule packet rule = Clause.all_lenient packet rule)
  /\ ((exists l1 r l2,
          rules = l1 ++ r :: l2
          /\ Clause.all_lenient packet r = true
          /\ (forall r', In r' l1 -> Clause.all_lenient packet r' = true ->
                         AclRule.order r < AclRule.order r')
          /\ (forall r', In r' l2 -> Clause.all_lenient packet r' = true ->
                         AclRule.order r <= AclRule.order r')
          /\ m = AclMatch.mk true (AclRule.action r) (Some r))
      \/ ((forall r, In r rules -> Clause.all_lenient packet r = false)
          /\ m = AclMatch.mk false defaultPolicy None))
  /\ (forall node,
        FirewallBehavior.evaluate node packet
        = Firewall.matchAclRules (default [] (SimNode.aclRules node))
            (default deny (SimNode.defaultPolicy node)) packet)
  /\ (forall d interfaceId links time,
        Device.getInterface d interfaceId <> None ->
        Firewall.isPacketForFirewall d packet = false ->
        let res := Firewall.processPacket d rules defaultPolicy interfaceId packet
                     links time in
        DeviceProcessResult.delivered res = false
        /\ (AclMatch.action m = deny ->
            DeviceProcessResult.events res = []
            /\ TraceHop.action <$> last (DeviceProcessResult.trace res)
               = Some TraceAction.acl_deny)
        /\ (AclMatch.action m = allow ->
            TraceHop.action <$> (DeviceProcessResult.trace res !! 1%nat)
            = Some TraceAction.acl_allow
            /\ Forall (fun h => TraceHop.action h <> TraceAction.acl_deny)
                 (DeviceProcessResult.trace res))).
Proof.
  intros sorted m. split; [|split; [|split; [|split]]].
  - split; [apply sort_rules_perm|apply sort_rules_sorted].
  - intros rule. apply matchesRule_clauses.
  - subst m. rewrite matchAclRules_first_match, matchesRule_ext.
    destruct (first_match (Clause.all_lenient packet) rules) as [r|] eqn:F.
    + left. destruct (first_match_Some _ _ _ F) as (l1 & l2 & E & Pr & H1 & H2).
      exists l1, r, l2. repeat split; auto.
    + right. split; [|reflexivity]. apply first_match_None. exact F.
  - intros node. reflexivity.
  - intros d interfaceId links time Hi Hf res. subst res.
    unfold Firewall.processPacket.
    destruct (Device.getInterface d interfaceId) as [iface|]; [|congruence].
    rewrite Hf. fold m.
    destruct (AclMatch.action m) eqn:Ha.
    + destruct (Firewall.forwardPacket d packet interfaceId links time)
        as [[ev h]|] eqn:Hfw; simpl.
      * split; [reflexivity|]. split; [discriminate|]. intros _.
        split; [reflexivity|].
        unfold Firewall.forwardPacket in Hfw.
        assert (Hh : TraceHop.action h = TraceAction.forward).
        { revert Hfw. generalize (Device.interfaces d).
          induction l as [|e l IH]; simpl; [discriminate|].
          destruct (String.eqb (SimInterface.id e) interfaceId); [exact IH|].
          destruct (Device.findConnectedInterface d links (SimInterface.id e));
            [|exact IH].
          intros [= <- <-]. reflexivity. }
        repeat constructor; simpl; try discriminate. rewrite Hh. discriminate.
      * split; [reflexivity|]. split; [discriminate|]. intros _.
        split; [reflexivity|]. repeat constructor; simpl; discriminate.
    + simpl. split; [reflexivity|]. split; [|discriminate].
      intros _. split; reflexivity.
Qed.

(** C7, as stated, fails: a host without an IP sends a packet with no source
    address; the rule [deny src-ip 10.0.0.1] matches it in the code and denies
    it, although the stated clause (equality with the source address of the
    packet) does not hold and the stated semantics falls through to the
    default policy [allow]. *)
Lemma C7_stated_semantics_counterexample :
  let rule := AclRule.mk "r1" 1 deny (Some "10.0.0.1") None None None None in
  let packet := Packet.mk "pkt-0" "02:AA:00:00:00:01" "02:AA:00:00:00:02"
                  None (Some "10.0.1.10") None icmp None None 64 None in
  Firewall.matchesRule packet rule = true
  /\ Clause.all_stated packet rule = false
  /\ AclMatch.action (Firewall.matchAclRules [rule] allow packet) = deny
  /\ Clause.verdict_stated [rule] allow packet = allow.
Proof. vm_compute. repeat split; reflexivity. Qed.

(** ** Firewall: a packet without the address of a configured IP clause *)

Definition without_srcIp (r : AclRule.t) : AclRule.t :=
  AclRule.mk (AclRule.id r) (AclRule.order r) (AclRule.action r) None
    (AclRule.dstIp r) (AclRule.proto r) (AclRule.srcPort r) (AclRule.dstPort r).

Definition without_dstIp (r : AclRule.t) : AclRule.t :=
  AclRule.mk (AclRule.id r) (AclRule.order r) (AclRule.action r) (AclRule.srcIp r)
    None (AclRule.proto r) (AclRule.srcPort r) (AclRule.dstPort r).

Lemma matchesRule_skips_srcIp packet rule :
  Packet.srcIp packet = None ->
  Firewall.matchesRule packet rule = Firewall.matchesRule packet (without_srcIp rule).
Proof.
  intros H. unfold Firewall.matchesRule, Firewall.ip_clause_passes. simpl.
  rewrite H. simpl. rewrite !andb_false_r. reflexivity.
Qed.

Lemma matchesRule_skips_dstIp packet rule :
  Packet.dstIp packet = None ->
  Firewall.matchesRule packet rule = Firewall.matchesRule packet (without_dstIp rule).
Proof.
  intros H. unfold Firewall.matchesRule, Firewall.ip_clause_passes. simpl.
  rewrite H. simpl. rewrite !andb_false_r. reflexivity.
Qed.

Lemma first_match_exists p l r :
  In r l -> p r = true -> exists r', first_match p l = Some r' /\ AclRule.order r' <= AclRule.order r.
Proof.
  intros Hin Pr.
  destruct (first_match p l) as [r'|] eqn:F.
  - exists r'. split; [reflexivity|].
    destruct (first_match_Some _ _ _ F) as (l1 & l2 & -> & _ & H1 & H2).
    apply in_app_or in Hin as [Hin|[<-|Hin]].
    + specialize (H1 r Hin Pr). lia.
    + lia.
    + exact (H2 r Hin Pr).
  - rewrite first_match_None in F. rewrite (F r Hin) in Pr. discriminate.
Qed.

(** C10. A rule whose src-ip (respectively dst-ip) clause is configured still
    matches a packet that has no source (respectively destination) address:
    the rule matches as soon as its other clauses do, in the class and in the
    legacy function. Such a packet never falls through to the default policy:
    in any rule list holding the rule a rule is matched, of order not greater,
    and when the rule stands alone its action is the verdict. *)
Theorem C10_missing_ip_clause_skipped
    (packet : Packet.t) (rule : AclRule.t) (rules : list AclRule.t)
    (defaultPolicy : AclAction) :
  (Packet.srcIp packet = None
   /\ Firewall.matchesRule packet (without_srcIp rule) = true)
  \/ (Packet.dstIp packet = None
      /\ Firewall.matchesRule packet (without_dstIp rule) = true) ->
  In rule rules ->
  Firewall.matchesRule packet rule = true
  /\ FirewallBehavior.matchesRule packet rule = true
  /\ (exists r', Firewall.matchAclRules rules defaultPolicy packet
                 = AclMatch.mk true (AclRule.action r') (Some r')
                 /\ AclRule.order r' <= AclRule.order rule)
  /\ Firewall.matchAclRules [rule] defaultPolicy packet
     = AclMatch.mk true (AclRule.action rule) (Some rule).
Proof.
  intros H Hin.
  assert (Hm : Firewall.matchesRule packet rule = true).
  { destruct H as [[Hs Hr]|[Hd Hr]].
    - rewrite matchesRule_skips_srcIp; assumption.
    - rewrite matchesRule_skips_dstIp; assumption. }
  split; [exact Hm|]. split; [exact Hm|]. split.
  - destruct (first_match_exists _ _ _ Hin Hm) as (r' & F & Hle).
    exists r'. rewrite matchAclRules_first_match, F. auto.
  - rewrite matchAclRules_first_match. simpl. rewrite Hm. reflexivity.
Qed.

Definition c10_rule : AclRule.t :=
  AclRule.mk "r1" 1 deny (Some "10.0.0.0/24") (Some "10.0.1.10") (Some "arp") None None.

Definition c10_packet : Packet.t :=
  Packet.mk "pkt-0" "02:AA:00:00:00:01" "FF:FF:FF:FF:FF:FF" None None None arp
    None None 64 None.

Lemma C10_missing_ip_clause_skipped_witness :
  Firewall.matchAclRules [c10_rule] allow c10_packet
  = AclMatch.mk true deny (Some c10_rule).
Proof.
  apply (C10_missing_ip_clause_skipped c10_packet c10_rule [c10_rule] allow).
  - left. split; reflexivity.
  - left. reflexivity.
Defined.

(** ** Topology conversion: the interface of a link endpoint *)

Definition c9_switch : EditorNode.t :=
  EditorNode.mk "sw1" switch "Switch 1"
    (Some (NodeConfig.mk
             [SimInterface.mk "gi0/1" "02:00:00:00:00:01" None (Some 1) (Some access) None;
              SimInterface.mk "gi0/2" "02:00:00:00:00:02" None (Some 1) (Some access) None]
             (Some true) (Some [1]) None None None)).

Definition c9_host : EditorNode.t :=
  EditorNode.mk "h1" host "Host 1"
    (Some (NodeConfig.mk
             [SimInterface.mk "eth0" "02:00:00:00:00:0A" (Some "192.168.1.10/24")
                None None None]
             None None None None None)).

Definition c9_edge : EditorEdge.t :=
  EditorEdge.mk "e1" "h1" "sw1" (Some "eth0-source") (Some "gi0/2-target").

(** C9, evaluated where it fails. The edge ends at handle [gi0/2-target] of
    the switch; stripped of its suffix the handle names the second interface
    [gi0/2] of the switch, as the editor's own [getPortId] reads it.
    [convertTopology] compares the handle unstripped, finds no interface of
    that name and attaches the link to the first interface [gi0/1]. *)
Theorem C9_handle_suffix_not_stripped :
  getPortId (EditorEdge.targetHandle c9_edge) = Some "gi0/2"
  /\ SimLink.target <$> head (SimTopology.links (convertTopology [c9_host; c9_switch] [c9_edge]))
     = Some (Endpoint.mk "sw1" "gi0/1")
  /\ SimLink.source <$> head (SimTopology.links (convertTopology [c9_host; c9_switch] [c9_edge]))
     = Some (Endpoint.mk "h1" "eth0").
Proof. vm_compute. repeat split; reflexivity. Qed.

Arguments ipInSubnet : simpl never.
Arguments ipToNumber : simpl never.
Arguments prefixToMask : simpl never.
Arguments JS.parseInt : simpl never.
Arguments JS.Number : simpl never.
Arguments JS.split : simpl never.
Arguments macTableKey : simpl never.
Arguments isBroadcastMac : simpl never.
Arguments isMulticastMac : simpl never.

(** ** Switch: MAC learning *)

(** A [learn] hop is in the trace. *)
Definition learns (trace : list TraceHop.t) : Prop :=
  exists h, In h trace /\ TraceHop.action h = TraceAction.learn.

(** The table has no entry under the key, or one bound to another interface. *)
Definition unbound (table : MacTable) (key interfaceId : string) : Prop :=
  table !! key = None
  \/ exists e, table !! key = Some e /\ MacTableEntry.interfaceId e <> interfaceId.

Lemma unbound_dec (table : MacTable) key interfaceId :
  unbound table key interfaceId
  \/ exists e, table !! key = Some e /\ MacTableEntry.interfaceId e = interfaceId.
Proof.
  unfold unbound. destruct (table !! key) as [e|]; [|auto].
  destruct (String.eqb_spec (MacTableEntry.interfaceId e) interfaceId); eauto.
Qed.

Lemma learnMacAddress_unbound d ids mac interfaceId vlan time (table : MacTable) :
  unbound table (macTableKey mac vlan) interfaceId ->
  exists h,
    Switch.learnMacAddress d ids mac interfaceId vlan time table
    = (<[macTableKey mac vlan := MacTableEntry.mk mac interfaceId vlan time]> table,
       [h], (IdSupply.generatePacketId ids).2)
    /\ TraceHop.action h = TraceAction.learn.
Proof.
  intros H. unfold Switch.learnMacAddress.
  destruct H as [H|(e & H & Hne)]; rewrite H.
  - eexists. split; reflexivity.
  - apply String.eqb_neq in Hne. rewrite Hne. eexists. split; reflexivity.
Qed.

Lemma learnMacAddress_bound d ids mac interfaceId vlan time (table : MacTable) e :
  table !! macTableKey mac vlan = Some e ->
  MacTableEntry.interfaceId e = interfaceId ->
  Switch.learnMacAddress d ids mac interfaceId vlan time table = (table, [], ids).
Proof.
  intros H He. unfold Switch.learnMacAddress. rewrite H.
  apply String.eqb_eq in He. rewrite He. reflexivity.
Qed.

Lemma forwardToKnownPort_actions d egressId packet ingressId vlan links time :
  Forall (fun h => TraceHop.action h = TraceAction.forward)
    (Switch.forwardToKnownPort d egressId packet ingressId vlan links time).2.
Proof.
  unfold Switch.forwardToKnownPort.
  destruct (Device.getInterface d egressId) as [e|]; [|constructor].
  destruct (String.eqb (SimInterface.id e) ingressId); [constructor|].
  destruct (Switch.canEgressOnInterface e vlan); [|constructor].
  destruct (Device.findConnectedInterface d links (SimInterface.id e)); repeat constructor.
Qed.

Lemma switch_egress_no_learn d packet interfaceId vlan links time isBroadcast dstEntry :
  Forall (fun h => TraceHop.action h <> TraceAction.learn)
    (Switch.egress d packet interfaceId vlan links time isBroadcast dstEntry).2.
Proof.
  unfold Switch.egress.
  destruct (negb isBroadcast), dstEntry as [e|];
    try (repeat constructor; discriminate).
  eapply Forall_impl; [apply forwardToKnownPort_actions|].
  intros h Hh. cbn beta in Hh. rewrite Hh. discriminate.
Qed.

Lemma legacy_egress_no_learn node packet interfaceId vlan links time isBroadcast dstEntry :
  Forall (fun h => TraceHop.action h <> TraceAction.learn)
    (SwitchBehavior.egress node packet interfaceId vlan links time isBroadcast dstEntry).2.
Proof.
  unfold SwitchBehavior.egress.
  destruct (negb isBroadcast), dstEntry as [e|];
    try (repeat constructor; discriminate).
  destruct (find _ (SimNode.interfaces node)) as [eg|]; [|constructor].
  destruct (negb (String.eqb (SimInterface.id eg) interfaceId)
            && SwitchBehavior.canEgressOnInterface eg vlan); [|constructor].
  destruct (getConnectedInterface links (SimNode.id node) (SimInterface.id eg));
    repeat constructor; discriminate.
Qed.

Lemma learns_app_receive (l1 l2 : list TraceHop.t) (r : TraceHop.t) :
  TraceHop.action r = TraceAction.receive ->
  Forall (fun h => TraceHop.action h <> TraceAction.learn) l2 ->
  learns (l1 ++ [r] ++ l2) <-> learns l1.
Proof.
  intros Hr Hl2. unfold learns. split.
  - intros (h & Hin & Hh). exists h. split; [|exact Hh].
    apply in_app_or in Hin as [Hin|Hin]; [exact Hin|].
    exfalso. destruct Hin as [<-|Hin]; [congruence|].
    rewrite Forall_forall in Hl2. apply list_elem_of_In in Hin.
    exact (Hl2 h Hin Hh).
  - intros (h & Hin & Hh). exists h. split; [apply in_or_app; auto|exact Hh].
Qed.

(** What one call does to the table and the trace, for the class. *)
Lemma switch_learning_step d ids interfaceId packet links time (table : MacTable)
    iface vlan :
  Device.getInterface d interfaceId = Some iface ->
  Switch.resolveVlan packet iface = Some vlan ->
  let key := macTableKey (Packet.srcMac packet) vlan in
  let out := Switch.processPacket d true ids interfaceId packet links time (Some table) in
  (unbound table key interfaceId ->
   out.1.2 = Some (<[key := MacTableEntry.mk (Packet.srcMac packet) interfaceId vlan time]>
                     table)
   /\ learns (DeviceProcessResult.trace out.1.1))
  /\ (forall e, table !! key = Some e -> MacTableEntry.interfaceId e = interfaceId ->
      out.1.2 = Some table /\ ~ learns (DeviceProcessResult.trace out.1.1)).
Proof.
  intros Hi Hv key out. subst out. unfold Switch.processPacket.
  rewrite Hi, Hv. cbv zeta. unfold Switch.learning.
  cbn [fst snd DeviceProcessResult.trace result].
  split.
  - intros Hu.
    destruct (learnMacAddress_unbound d ids (Packet.srcMac packet) interfaceId vlan time
                table Hu) as (h & -> & Hh).
    cbn [fst snd]. split; [reflexivity|].
    apply learns_app_receive; [reflexivity|apply switch_egress_no_learn|].
    exists h. split; [left; reflexivity|exact Hh].
  - intros e He Hb.
    rewrite (learnMacAddress_bound d ids _ _ _ time table e He Hb).
    cbn [fst snd]. split; [reflexivity|].
    rewrite learns_app_receive; [|reflexivity|apply switch_egress_no_learn].
    intros (h & [] & _).
Qed.

(** The same for the legacy function [switchProcess]. *)
Lemma legacy_learning_step node interfaceId packet links time (table : MacTable)
    iface vlan :
  SimNode.macLearning node <> Some false ->
  find (fun i => String.eqb (SimInterface.id i) interfaceId) (SimNode.interfaces node)
  = Some iface ->
  SwitchBehavior.ingress_vlan iface packet = inl vlan ->
  let key := macTableKey (Packet.srcMac packet) vlan in
  let out := SwitchBehavior.switchProcess node interfaceId packet links table time in
  (unbound table key interfaceId ->
   out.2 = <[key := MacTableEntry.mk (Packet.srcMac packet) interfaceId vlan time]> table
   /\ learns (SwitchBehavior.SwitchBehaviorResult.trace out.1))
  /\ (forall e, table !! key = Some e -> MacTableEntry.interfaceId e = interfaceId ->
      out.2 = table /\ ~ learns (SwitchBehavior.SwitchBehaviorResult.trace out.1)).
Proof.
  intros Hl Hi Hv key out. subst out. unfold SwitchBehavior.switchProcess.
  rewrite Hi, Hv. cbv zeta. unfold SwitchBehavior.learning.
  assert (Hon : match SimNode.macLearning node with
                | Some false => false
                | _ => true
                end = true).
  { destruct (SimNode.macLearning node) as [[|]|]; congruence. }
  rewrite Hon. fold key.
  cbn [fst snd SwitchBehavior.SwitchBehaviorResult.trace].
  split.
  - intros Hu.
    assert (Hc : match table !! key with
                 | None => true
                 | Some e => negb (String.eqb (MacTableEntry.interfaceId e) interfaceId)
                 end = true).
    { destruct Hu as [->|(e & -> & Hne)]; [reflexivity|].
      apply String.eqb_neq in Hne. rewrite Hne. reflexivity. }
    rewrite Hc. cbn [fst snd]. split; [reflexivity|].
    apply learns_app_receive; [reflexivity|apply legacy_egress_no_learn|].
    eexists. split; [left; reflexivity|reflexivity].
  - intros e He Hb. rewrite He.
    apply String.eqb_eq in Hb. rewrite Hb. cbn [negb fst snd].
    split; [reflexivity|].
    rewrite learns_app_receive; [|reflexivity|apply legacy_egress_no_learn].
    intros (h & [] & _).
Qed.

Lemma ingress_vlan_resolveVlan iface packet vlan :
  Switch.resolveVlan packet iface = Some vlan
  <-> SwitchBehavior.ingress_vlan iface packet = inl vlan.
Proof.
  unfold Switch.resolveVlan, SwitchBehavior.ingress_vlan, Switch.includes.
  destruct (SimInterface.portMode iface) as [[|]|];
    [| destruct (SimInterface.allowedVlans iface) as [allowed|];
       [destruct (existsb _ allowed)|] |];
    cbn [negb]; split; intros H; try discriminate; injection H as <-; reflexivity.
Qed.

Lemma createFromSimNode_switch node :
  SimNode.type node = switch ->
  createFromSimNode node
  = Device.mk (SimNode.id node) (SimNode.label node) switch (SimNode.interfaces node)
      (SwitchDevice (default true (SimNode.macLearning node))
         (default [1] (SimNode.vlanDatabase node))).
Proof. intros H. unfold createFromSimNode. rewrite H. reflexivity. Qed.

(** C8. On a switch with MAC learning enabled, processing a packet with
    source MAC [M] that arrives on interface [I] with effective VLAN [V] leaves
    the table with [I] bound under the key of [(M, V)]; a [learn] hop is in the
    trace iff the key was unbound before or bound to another interface; and
    processing a second packet with the same [(M, V)] on [I] leaves the table
    as it is and emits no [learn] hop. This holds for the device the factory
    builds from the node and for the legacy [switchProcess]. *)
Theorem C8_mac_learning_converges
    (node : SimNode.t) (ids : IdSupply.t) (interfaceId : string) (packet : Packet.t)
    (links : list SimLink.t) (time : Z) (table : MacTable)
    (iface : SimInterface.t) (vlan : Z) :
  SimNode.type node = switch ->
  SimNode.macLearning node <> Some false ->
  getInterfaceById node interfaceId = Some iface ->
  Switch.resolveVlan packet iface = Some vlan ->
  let key := macTableKey (Packet.srcMac packet) vlan in
  let d := createFromSimNode node in
  let out := processPacket d ids interfaceId packet links time (Some table) in
  let old := SwitchBehavior.switchProcess node interfaceId packet links table time in
  (exists table',
      out.1.2 = Some table'
      /\ MacTableEntry.interfaceId <$> table' !! key = Some interfaceId
      /\ (learns (DeviceProcessResult.trace out.1.1) <-> unbound table key interfaceId)
      /\ (forall ids2 packet2 links2 time2,
            Packet.srcMac packet2 = Packet.srcMac packet ->
            Switch.resolveVlan packet2 iface = Some vlan ->
            let out2 := processPacket d ids2 interfaceId packet2 links2 time2 (Some table') in
            out2.1.2 = Some table' /\ ~ learns (DeviceProcessResult.trace out2.1.1)))
  /\ (MacTableEntry.interfaceId <$> old.2 !! key = Some interfaceId
      /\ (learns (SwitchBehavior.SwitchBehaviorResult.trace old.1)
          <-> unbound table key interfaceId)
      /\ (forall packet2 links2 time2,
            Packet.srcMac packet2 = Packet.srcMac packet ->
            Switch.resolveVlan packet2 iface = Some vlan ->
            let old2 := SwitchBehavior.switchProcess node interfaceId packet2 links2
                          old.2 time2 in
            old2.2 = old.2
            /\ ~ learns (SwitchBehavior.SwitchBehaviorResult.trace old2.1))).
Proof.
  intros Ht Hl Hi Hv key d out old.
  assert (Hd : d = Device.mk (SimNode.id node) (SimNode.label node) switch
                     (SimNode.interfaces node)
                     (SwitchDevice true (default [1] (SimNode.vlanDatabase node)))).
  { subst d. rewrite createFromSimNode_switch by exact Ht.
    destruct (SimNode.macLearning node) as [[|]|]; try reflexivity. congruence. }
  assert (Hgi : Device.getInterface d interfaceId = Some iface).
  { rewrite Hd. exact Hi. }
  assert (Hpp : forall ids' p l t tb,
             processPacket d ids' interfaceId p l t tb
             = Switch.processPacket d true ids' interfaceId p l t tb).
  { intros. unfold processPacket. rewrite Hd. reflexivity. }
  split.
  - subst out. rewrite Hpp.
    pose proof (switch_learning_step d ids interfaceId packet links time table iface vlan
                  Hgi Hv) as [Hnew Hold].
    cbv zeta in Hnew, Hold. fold key in Hnew, Hold.
    destruct (unbound_dec table key interfaceId) as [Hu|(e & He & Hb)].
    + destruct (Hnew Hu) as [Ht' Hlearn]. eexists. split; [exact Ht'|].
      split; [rewrite lookup_insert_eq; reflexivity|].
      split; [tauto|].
      intros ids2 packet2 links2 time2 Hm Hv2 out2. subst out2. rewrite Hpp.
      pose proof (switch_learning_step d ids2 interfaceId packet2 links2 time2
                    (<[key := MacTableEntry.mk (Packet.srcMac packet) interfaceId vlan time]>
                       table)
                    iface vlan Hgi Hv2) as [_ Hold2].
      cbv zeta in Hold2. rewrite Hm in Hold2. fold key in Hold2.
      eapply Hold2; [apply lookup_insert_eq|reflexivity].
    + destruct (Hold e He Hb) as [Ht' Hlearn]. exists table. split; [exact Ht'|].
      split; [rewrite He, <- Hb; reflexivity|].
      split.
      * split; [tauto|]. intros [Hn|(e' & He' & Hne)]; [congruence|].
        rewrite He in He'. injection He' as <-. contradiction.
      * intros ids2 packet2 links2 time2 Hm Hv2 out2. subst out2. rewrite Hpp.
        pose proof (switch_learning_step d ids2 interfaceId packet2 links2 time2 table
                      iface vlan Hgi Hv2) as [_ Hold2].
        cbv zeta in Hold2. rewrite Hm in Hold2. fold key in Hold2.
        exact (Hold2 e He Hb).
  - subst old. apply ingress_vlan_resolveVlan in Hv as Hv'.
    pose proof (legacy_learning_step node interfaceId packet links time table iface vlan
                  Hl Hi Hv') as [Hnew Hold].
    cbv zeta in Hnew, Hold. fold key in Hnew, Hold.
    assert (Hsecond : forall tb e, tb !! key = Some e ->
              MacTableEntry.interfaceId e = interfaceId ->
              forall packet2 links2 time2,
                Packet.srcMac packet2 = Packet.srcMac packet ->
                Switch.resolveVlan packet2 iface = Some vlan ->
                (SwitchBehavior.switchProcess node interfaceId packet2 links2 tb time2).2 = tb
                /\ ~ learns (SwitchBehavior.SwitchBehaviorResult.trace
                               (SwitchBehavior.switchProcess node interfaceId packet2 links2
                                  tb time2).1)).
    { intros tb e He Hb packet2 links2 time2 Hm Hv2.
      apply ingress_vlan_resolveVlan in Hv2.
      pose proof (legacy_learning_step node interfaceId packet2 links2 time2 tb iface vlan
                    Hl Hi Hv2) as [_ Hold2].
      cbv zeta in Hold2. rewrite Hm in Hold2. fold key in Hold2.
      exact (Hold2 e He Hb). }
    destruct (unbound_dec table key interfaceId) as [Hu|(e & He & Hb)].
    + destruct (Hnew Hu) as [Ht' Hlearn]. rewrite Ht'.
      split; [rewrite lookup_insert_eq; reflexivity|].
      split; [tauto|].
      intros packet2 links2 time2 Hm Hv2 old2. subst old2.
      eapply Hsecond; [apply lookup_insert_eq|reflexivity|exact Hm|exact Hv2].
    + destruct (Hold e He Hb) as [Ht' Hlearn]. rewrite Ht'.
      split; [rewrite He, <- Hb; reflexivity|].
      split.
      * split; [tauto|]. intros [Hn|(e' & He' & Hne)]; [congruence|].
        rewrite He in He'. injection He' as <-. contradiction.
      * intros packet2 links2 time2 Hm Hv2 old2. subst old2.
        eapply Hsecond; eauto.
Qed.

Definition c8_switch : SimNode.t :=
  SimNode.mk "sw1" switch "Switch 1"
    [SimInterface.mk "gi0/1" "00:00:00:00:00:01" None (Some 10) (Some access) None;
     SimInterface.mk "gi0/2" "00:00:00:00:00:02" None (Some 10) (Some access) None;
     SimInterface.mk "gi0/3" "00:00:00:00:00:03" None (Some 20) (Some access) None;
     SimInterface.mk "gi0/4" "00:00:00:00:00:04" None None (Some trunk) (Some [10; 20])]
    (Some true) (Some [10; 20]) None None None.

Definition c8_links : list SimLink.t :=
  [SimLink.mk "link1" (Endpoint.mk "sw1" "gi0/1") (Endpoint.mk "host1" "eth0");
   SimLink.mk "link2" (Endpoint.mk "sw1" "gi0/2") (Endpoint.mk "host2" "eth0");
   SimLink.mk "link3" (Endpoint.mk "sw1" "gi0/3") (Endpoint.mk "host3" "eth0");
   SimLink.mk "link4" (Endpoint.mk "sw1" "gi0/4") (Endpoint.mk "sw2" "gi0/1")].

Definition c8_packet : Packet.t :=
  Packet.mk "pkt1" "AA:BB:CC:DD:EE:FF" "FF:FF:FF:FF:FF:FF" None None None icmp
    None None 64 None.

Definition c8_ids : IdSupply.t := IdSupply.mk (fun n => "pkt-" +:+ pretty n) 0.

Lemma C8_mac_learning_converges_witness :
  exists table',
    (processPacket (createFromSimNode c8_switch) c8_ids "gi0/1" c8_packet c8_links 0
       (Some ∅)).1.2 = Some table'
    /\ MacTableEntry.interfaceId <$> table' !! "AA:BB:CC:DD:EE:FF-10" = Some "gi0/1".
Proof.
  destruct (C8_mac_learning_converges c8_switch c8_ids "gi0/1" c8_packet c8_links 0 ∅
              (SimInterface.mk "gi0/1" "00:00:00:00:00:01" None (Some 10) (Some access) None)
              10)
    as [(table' & Ht & Hk & _) _].
  - reflexivity.
  - discriminate.
  - reflexivity.
  - reflexivity.
  - exists table'. split; [exact Ht|exact Hk].
Defined.

(** ** Switch: egress admissibility *)

(** Admissibility as the specification states it: an access port configured
    with the VLAN, or a trunk port without an allowed-VLAN list or with the
    VLAN listed. *)
Definition admissible_stated (e : SimInterface.t) (vlan : Z) : Prop :=
  (SimInterface.portMode e = Some access /\ SimInterface.vlan e = Some vlan)
  \/ (SimInterface.portMode e = Some trunk
      /\ (SimInterface.allowedVlans e = None
          \/ exists allowed, SimInterface.allowedVlans e = Some allowed /\ In vlan allowed)).

(** Admissibility as the code decides it: as stated, and a port without a port
    mode carries VLAN 1. *)
Definition admissible (e : SimInterface.t) (vlan : Z) : Prop :=
  admissible_stated e vlan \/ (SimInterface.portMode e = None /\ vlan = 1).

Lemma includes_In allowed vlan : Switch.includes allowed vlan = true <-> In vlan allowed.
Proof.
  unfold Switch.includes. rewrite existsb_exists. split.
  - intros (x & Hin & E). apply Z.eqb_eq in E. subst. exact Hin.
  - intros Hin. exists vlan. split; [exact Hin|apply Z.eqb_refl].
Qed.

Lemma canEgress_admissible e vlan :
  Switch.canEgressOnInterface e vlan = true <-> admissible e vlan.
Proof.
  unfold Switch.canEgressOnInterface, admissible, admissible_stated.
  destruct (SimInterface.portMode e) as [[|]|].
  - destruct (SimInterface.vlan e) as [v|].
    + rewrite Z.eqb_eq. split.
      * intros ->. left. left. auto.
      * intros [[[_ H]|[H _]]|[H _]]; congruence.
    + split; [discriminate|]. intros [[[_ H]|[H _]]|[H _]]; congruence.
  - destruct (SimInterface.allowedVlans e) as [allowed|].
    + rewrite includes_In. split.
      * intros H. left. right. split; [reflexivity|]. right. eauto.
      * intros [[[H _]|[_ [H|(a & H & Hin)]]]|[H _]]; congruence.
    + split; [|reflexivity]. intros _. left. right. auto.
  - rewrite Z.eqb_eq. split; [auto|].
    intros [[[H _]|[H _]]|[_ H]]; congruence.
Qed.

Lemma legacy_canEgress_eq e vlan :
  SwitchBehavior.canEgressOnInterface e vlan = Switch.canEgressOnInterface e vlan.
Proof. reflexivity. Qed.

(** An event leaves through interface [e] of node [nodeId]: [e] is not the
    ingress, the code admits it for the VLAN, and the event goes to its peer
    carrying the packet prepared for [e]. *)
Definition leaves_through (nodeId : string) (links : list SimLink.t)
    (ingressId : string) (vlan : Z) (packet : Packet.t)
    (ev : Event.t) (e : SimInterface.t) : Prop :=
  SimInterface.id e <> ingressId
  /\ admissible e vlan
  /\ getConnectedInterface links nodeId (SimInterface.id e)
     = Some (Endpoint.mk (Event.nodeId ev) (Event.interfaceId ev))
  /\ Event.packet ev = Switch.prepareEgressPacket packet e.

(** The event comes from an interface further down the list: the induction
    hypothesis of the loop gives it. *)
Ltac later_interface IH :=
  let H := fresh "H" in
  let e := fresh "e" in
  let He := fresh "He" in
  let Hl := fresh "Hl" in
  intros H; destruct (IH H) as (e & He & Hl); exists e; split; [right|]; assumption.

Lemma switch_flood_loop_spec d ifaces packet ingressId vlan links ev :
  In ev (Switch.flood_loop d ifaces packet ingressId vlan links) ->
  exists e, In e ifaces /\ leaves_through (Device.id d) links ingressId vlan packet ev e.
Proof.
  induction ifaces as [|x rest IH]; cbn [Switch.flood_loop]; [intros []|].
  destruct (String.eqb_spec (SimInterface.id x) ingressId) as [Heq|Hne].
  { later_interface IH. }
  destruct (Switch.canEgressOnInterface x vlan) eqn:Hc.
  2:{ later_interface IH. }
  unfold Device.findConnectedInterface.
  destruct (getConnectedInterface links (Device.id d) (SimInterface.id x)) as [c|] eqn:Hg.
  2:{ later_interface IH. }
  intros [<-|H].
  - exists x. split; [left; reflexivity|].
    split; [exact Hne|]. split; [apply canEgress_admissible; exact Hc|].
    split; [destruct c; exact Hg|reflexivity].
  - revert H. later_interface IH.
Qed.

Lemma legacy_flood_loop_spec node ifaces packet ingressId vlan links ev :
  In ev (SwitchBehavior.flood_loop node ifaces packet ingressId vlan links) ->
  exists e, In e ifaces /\ leaves_through (SimNode.id node) links ingressId vlan packet ev e.
Proof.
  induction ifaces as [|x rest IH]; cbn [SwitchBehavior.flood_loop]; [intros []|].
  destruct (String.eqb_spec (SimInterface.id x) ingressId) as [Heq|Hne].
  { later_interface IH. }
  rewrite legacy_canEgress_eq.
  destruct (Switch.canEgressOnInterface x vlan) eqn:Hc.
  2:{ later_interface IH. }
  destruct (getConnectedInterface links (SimNode.id node) (SimInterface.id x)) as [c|] eqn:Hg.
  2:{ later_interface IH. }
  intros [<-|H].
  - exists x. split; [left; reflexivity|].
    split; [exact Hne|]. split; [apply canEgress_admissible; exact Hc|].
    split; [destruct c; exact Hg|reflexivity].
  - revert H. later_interface IH.
Qed.

Lemma switch_egress_spec d packet ingressId vlan links time isBroadcast dstEntry ev :
  In ev (Switch.egress d packet ingressId vlan links time isBroadcast dstEntry).1 ->
  exists e, In e (Device.interfaces d)
            /\ leaves_through (Device.id d) links ingressId vlan packet ev e.
Proof.
  unfold Switch.egress.
  assert (Hflood : In ev (Switch.floodPacket d packet ingressId vlan links time isBroadcast).1 ->
            exists e, In e (Device.interfaces d)
                      /\ leaves_through (Device.id d) links ingressId vlan packet ev e).
  { apply switch_flood_loop_spec. }
  destruct (negb isBroadcast), dstEntry as [entry|]; try exact Hflood.
  unfold Switch.forwardToKnownPort, Device.getInterface.
  destruct (find _ (Device.interfaces d)) as [e|] eqn:Hf; [|intros []].
  apply find_some in Hf as [Hin _].
  destruct (String.eqb_spec (SimInterface.id e) ingressId) as [Heq|Hne]; [intros []|].
  destruct (Switch.canEgressOnInterface e vlan) eqn:Hc; [|intros []].
  unfold Device.findConnectedInterface.
  destruct (getConnectedInterface links (Device.id d) (SimInterface.id e)) as [c|] eqn:Hg;
    [|intros []].
  intros [<-|[]]. exists e. split; [exact Hin|].
  split; [exact Hne|]. split; [apply canEgress_admissible; exact Hc|].
  split; [destruct c; exact Hg|reflexivity].
Qed.

Lemma legacy_egress_spec node packet ingressId vlan links time isBroadcast dstEntry ev :
  In ev (SwitchBehavior.egress node packet ingressId vlan links time isBroadcast dstEntry).1 ->
  exists e, In e (SimNode.interfaces node)
            /\ leaves_through (SimNode.id node) links ingressId vlan packet ev e.
Proof.
  unfold SwitchBehavior.egress.
  destruct (negb isBroadcast), dstEntry as [entry|];
    try apply legacy_flood_loop_spec.
  destruct (find _ (SimNode.interfaces node)) as [e|] eqn:Hf; [|intros []].
  apply find_some in Hf as [Hin _].
  rewrite legacy_canEgress_eq.
  destruct (String.eqb_spec (SimInterface.id e) ingressId) as [Heq|Hne]; [intros []|].
  destruct (Switch.canEgressOnInterface e vlan) eqn:Hc; [|intros []].
  cbn [negb andb].
  destruct (getConnectedInterface links (SimNode.id node) (SimInterface.id e)) as [c|] eqn:Hg;
    [|intros []].
  intros [<-|[]]. exists e. split; [exact Hin|].
  split; [exact Hne|]. split; [apply canEgress_admissible; exact Hc|].
  split; [destruct c; exact Hg|reflexivity].
Qed.

Lemma switch_process_events d macLearning ids interfaceId packet links time table iface vlan ev :
  Device.getInterface d interfaceId = Some iface ->
  Switch.resolveVlan packet iface = Some vlan ->
  In ev (DeviceProcessResult.events
           (Switch.processPacket d macLearning ids interfaceId packet links time table).1.1) ->
  exists e, In e (Device.interfaces d)
            /\ leaves_through (Device.id d) links interfaceId vlan
                 (Packet.with_vlan (Some vlan) packet) ev e.
Proof.
  intros Hi Hv. unfold Switch.processPacket. rewrite Hi, Hv. cbv zeta.
  cbn [fst snd DeviceProcessResult.events result].
  apply switch_egress_spec.
Qed.

Lemma legacy_process_events node interfaceId packet links time table iface vlan ev :
  getInterfaceById node interfaceId = Some iface ->
  SwitchBehavior.ingress_vlan iface packet = inl vlan ->
  In ev (SwitchBehavior.SwitchBehaviorResult.events
           (SwitchBehavior.switchProcess node interfaceId packet links table time).1) ->
  exists e, In e (SimNode.interfaces node)
            /\ leaves_through (SimNode.id node) links interfaceId vlan
                 (Packet.with_vlan (Some vlan) packet) ev e.
Proof.
  intros Hi Hv. unfold SwitchBehavior.switchProcess.
  unfold getInterfaceById in Hi. rewrite Hi, Hv. cbv zeta.
  cbn [fst snd SwitchBehavior.SwitchBehaviorResult.events].
  apply legacy_egress_spec.
Qed.

(** C4, as amended. In one call of a switch, a packet whose ingress resolves
    to VLAN [V] is emitted, by unicast forward or by flood, only through
    interfaces other than the ingress that the code admits for [V]: an access
    port configured with [V], a trunk port without an allowed-VLAN list or
    with [V] listed, or a port without a port mode when [V] is 1. Each event
    goes to the peer of such an interface. Hence an endpoint that the switch
    reaches only through access ports configured with another VLAN receives no
    event from the call. This holds for the device the factory builds from the
    node and for the legacy [switchProcess]. *)
Theorem C4_switch_egress_admissible
    (node : SimNode.t) (ids : IdSupply.t) (interfaceId : string) (packet : Packet.t)
    (links : list SimLink.t) (time : Z) (table : option MacTable) (legacyTable : MacTable)
    (iface : SimInterface.t) (vlan : Z) :
  SimNode.type node = switch ->
  getInterfaceById node interfaceId = Some iface ->
  Switch.resolveVlan packet iface = Some vlan ->
  let emitted ev :=
    In ev (DeviceProcessResult.events
             (processPacket (createFromSimNode node) ids interfaceId packet links time
                table).1.1)
    \/ In ev (SwitchBehavior.SwitchBehaviorResult.events
                (SwitchBehavior.switchProcess node interfaceId packet links legacyTable
                   time).1) in
  (forall ev, emitted ev ->
     exists e, In e (SimNode.interfaces node)
               /\ SimInterface.id e <> interfaceId
               /\ (admissible_stated e vlan
                   \/ (SimInterface.portMode e = None /\ vlan = 1))
               /\ getConnectedInterface links (SimNode.id node) (SimInterface.id e)
                  = Some (Endpoint.mk (Event.nodeId ev) (Event.interfaceId ev)))
  /\ (forall dest,
        (forall e, In e (SimNode.interfaces node) ->
                   getConnectedInterface links (SimNode.id node) (SimInterface.id e)
                   = Some dest ->
                   SimInterface.portMode e = Some access
                   /\ SimInterface.vlan e <> Some vlan) ->
        forall ev, emitted ev ->
                   Endpoint.mk (Event.nodeId ev) (Event.interfaceId ev) <> dest).
Proof.
  intros Ht Hi Hv emitted.
  assert (Hmain : forall ev, emitted ev ->
            exists e, In e (SimNode.interfaces node)
                      /\ leaves_through (SimNode.id node) links interfaceId vlan
                           (Packet.with_vlan (Some vlan) packet) ev e).
  { intros ev [Hev|Hev].
    - rewrite createFromSimNode_switch in Hev by exact Ht.
      unfold processPacket in Hev. cbn [Device.class] in Hev.
      eapply switch_process_events in Hev; [exact Hev|exact Hi|exact Hv].
    - apply ingress_vlan_resolveVlan in Hv.
      eapply legacy_process_events in Hev; [exact Hev|exact Hi|exact Hv]. }
  split.
  - intros ev Hev. destruct (Hmain ev Hev) as (e & Hin & Hne & Ha & Hp & _).
    exists e. auto.
  - intros dest Hdest ev Hev Heq.
    destruct (Hmain ev Hev) as (e & Hin & Hne & Ha & Hp & _).
    rewrite Heq in Hp. destruct (Hdest e Hin Hp) as [Hm Hvl].
    destruct Ha as [[[_ H]|[H _]]|[H _]]; congruence.
Qed.

Definition c4_switch : SimNode.t :=
  SimNode.mk "sw1" switch "Switch 1"
    [SimInterface.mk "p1" "02:00:00:00:00:11" None (Some 1) (Some access) None;
     SimInterface.mk "p2" "02:00:00:00:00:12" None None None None]
    (Some true) (Some [1]) None None None.

Definition c4_links : list SimLink.t :=
  [SimLink.mk "l1" (Endpoint.mk "A" "eth0") (Endpoint.mk "sw1" "p1");
   SimLink.mk "l2" (Endpoint.mk "sw1" "p2") (Endpoint.mk "B" "eth0")].

Definition c4_packet : Packet.t :=
  Packet.mk "pkt-0" "02:AA:00:00:00:01" "02:AA:00:00:00:02" (Some "192.168.1.10")
    (Some "192.168.1.11") None icmp None None 64 None.

Lemma C4_switch_egress_admissible_witness :
  Forall (fun ev => Endpoint.mk (Event.nodeId ev) (Event.interfaceId ev)
                    <> Endpoint.mk "host3" "eth0")
    (DeviceProcessResult.events
       (processPacket (createFromSimNode c8_switch) c8_ids "gi0/1" c8_packet
          c8_links 0 (Some ∅)).1.1).
Proof.
  apply Forall_forall. intros ev Hev. apply list_elem_of_In in Hev.
  refine (proj2 (C4_switch_egress_admissible c8_switch c8_ids "gi0/1" c8_packet c8_links 0
                   (Some ∅) ∅
                   (SimInterface.mk "gi0/1" "00:00:00:00:00:01" None (Some 10)
                      (Some access) None)
                   10 eq_refl eq_refl eq_refl)
            (Endpoint.mk "host3" "eth0") _ ev (or_introl Hev)).
  intros e Hin Hp.
  destruct Hin as [<-|[<-|[<-|[<-|[]]]]]; vm_compute in Hp; try discriminate.
  split; [reflexivity|discriminate].
Defined.

(** C4, as stated, fails: the switch has an access port [p1] in VLAN 1 and a
    port [p2] without a port mode. A frame that enters through [p1] resolves
    to VLAN 1 and is flooded through [p2] to host [B], although [p2] is
    neither an access port configured with VLAN 1 nor a trunk port. *)
Lemma C4_stated_admissibility_counterexample :
  let evs := DeviceProcessResult.events
               (processPacket (createFromSimNode c4_switch) c8_ids "p1" c4_packet
                  c4_links 1 (Some ∅)).1.1 in
  evs = [Event.mk (Packet.with_vlan (Some 1) c4_packet) "B" "eth0"]
  /\ ~ (forall ev, In ev evs ->
          exists e, In e (SimNode.interfaces c4_switch)
                    /\ SimInterface.id e <> "p1"
                    /\ admissible_stated e 1
                    /\ getConnectedInterface c4_links "sw1" (SimInterface.id e)
                       = Some (Endpoint.mk (Event.nodeId ev) (Event.interfaceId ev))).
Proof.
  assert (Hevs : DeviceProcessResult.events
                   (processPacket (createFromSimNode c4_switch) c8_ids "p1" c4_packet
                      c4_links 1 (Some ∅)).1.1
                 = [Event.mk (Packet.with_vlan (Some 1) c4_packet) "B" "eth0"]).
  { vm_compute. reflexivity. }
  cbv zeta. rewrite Hevs. split; [reflexivity|].
  intros H. destruct (H _ (or_introl eq_refl)) as (e & Hin & Hne & Ha & Hp).
  destruct Hin as [<-|[<-|[]]].
  - apply Hne. reflexivity.
  - destruct Ha as [[Hm _]|[Hm _]]; discriminate Hm.
Qed.

(** ** Numbers: integers as doubles, and the order *)

Lemma lowest_shift n k : JS.lowest (n * 2 ^ Z.of_nat k) k = JS.Fin n 0.
Proof.
  induction k as [|k IH].
  - cbn [JS.lowest]. rewrite Z.pow_0_r, Z.mul_1_r. reflexivity.
  - cbn [JS.lowest]. rewrite Nat2Z.inj_succ, Z.pow_succ_r by lia.
    replace (n * (2 * 2 ^ Z.of_nat k)) with (2 * (n * 2 ^ Z.of_nat k)) by ring.
    rewrite Z.even_mul. cbn [Z.even orb].
    replace (2 * (n * 2 ^ Z.of_nat k) / 2) with (n * 2 ^ Z.of_nat k)
      by (symmetry; rewrite (Z.mul_comm 2); apply Z.div_mul; lia).
    exact IH.
Qed.

(** For an integer the leading bit is at [Z.log2 n]. *)
Lemma round_pos_int n :
  0 < n ->
  JS.round_pos n 1 =
    let q := Z.log2 n - 52 in
    let num := if q <? 0 then n * 2 ^ (- q) else n in
    let den := if q <? 0 then 1 else 1 * 2 ^ q in
    let m := num / den in
    let r := num mod den in
    let m' := if 2 * r <? den then m
              else if (2 * r =? den) && Z.even m then m
              else m + 1 in
    if q <? 0 then JS.lowest m' (Z.to_nat (- q))
    else if 2 ^ 1024 <=? m' * 2 ^ q then JS.Inf false
    else JS.Fin (m' * 2 ^ q) 0.
Proof.
  intros Hn. unfold JS.round_pos.
  change (Z.log2 1) with 0. rewrite Z.sub_0_r.
  pose proof (Z.log2_nonneg n) as Hl.
  pose proof (Z.log2_spec n Hn) as [Hlo _].
  replace (0 <=? Z.log2 n) with true by (symmetry; apply Z.leb_le; exact Hl).
  replace (n <? 1 * 2 ^ Z.log2 n) with false by (symmetry; apply Z.ltb_ge; lia).
  cbv zeta.
  rewrite Z.max_l by lia. reflexivity.
Qed.

Lemma round_pos_small n : 0 < n < 2 ^ 53 -> JS.round_pos n 1 = JS.Fin n 0.
Proof.
  intros [Hn Hlt]. rewrite round_pos_int by exact Hn. cbv zeta.
  assert (Hl : Z.log2 n < 53) by (apply Z.log2_lt_pow2; assumption).
  pose proof (Z.log2_nonneg n) as Hl0.
  destruct (Z.ltb_spec (Z.log2 n - 52) 0) as [Hq|Hq].
  - rewrite Z.div_1_r, Z.mod_1_r. change (2 * 0 <? 1) with true. cbv iota.
    replace (- (Z.log2 n - 52)) with (Z.of_nat (Z.to_nat (- (Z.log2 n - 52)))) at 1
      by lia.
    apply lowest_shift.
  - replace (Z.log2 n - 52) with 0 by lia.
    rewrite Z.pow_0_r. change (1 * 1) with 1. rewrite Z.div_1_r, Z.mod_1_r.
    change (2 * 0 <? 1) with true. cbv iota. rewrite Z.mul_1_r.
    replace (2 ^ 1024 <=? n) with false; [reflexivity|].
    symmetry. apply Z.leb_gt. apply Z.lt_trans with (2 ^ 53); [exact Hlt|].
    apply Z.pow_lt_mono_r; lia.
Qed.

(** An integer below [2 ^ 53] in magnitude is a double. *)
Lemma of_Z_small z : - 2 ^ 53 < z < 2 ^ 53 -> JS.of_Z z = JS.Int z.
Proof.
  intros Hz. unfold JS.of_Z, JS.round, JS.Int.
  destruct (Z.eqb_spec z 0) as [->|Hnz]; [reflexivity|].
  destruct (Z.ltb_spec z 0) as [Hneg|Hpos].
  - rewrite round_pos_small by lia. cbn [JS.opp]. rewrite Z.opp_involutive. reflexivity.
  - apply round_pos_small. lia.
Qed.

Lemma round_pos_large n :
  2 ^ 53 <= n ->
  JS.round_pos n 1 = JS.Inf false
  \/ exists v, JS.round_pos n 1 = JS.Fin v 0 /\ 2 ^ 53 <= v.
Proof.
  intros Hn.
  assert (Hpos : 0 < n) by (pose proof (Z.pow_pos_nonneg 2 53); lia).
  rewrite round_pos_int by exact Hpos. cbv zeta.
  assert (Hl : 53 <= Z.log2 n) by (apply Z.log2_le_pow2; [exact Hpos|exact Hn]).
  pose proof (Z.log2_spec n Hpos) as [Hlo _].
  set (q := Z.log2 n - 52) in *.
  replace (q <? 0) with false by (symmetry; apply Z.ltb_ge; lia).
  rewrite Z.mul_1_l.
  assert (Hq : 0 < 2 ^ q) by (apply Z.pow_pos_nonneg; lia).
  assert (Hq2 : 2 <= 2 ^ q).
  { change 2 with (2 ^ 1) at 1. apply Z.pow_le_mono_r; lia. }
  assert (Hm : 2 ^ 52 <= n / 2 ^ q).
  { apply Z.div_le_lower_bound; [exact Hq|].
    rewrite Z.mul_comm, <- Z.pow_add_r by lia.
    replace (52 + q) with (Z.log2 n) by lia. exact Hlo. }
  set (m := n / 2 ^ q) in *.
  set (m' := if 2 * (n mod 2 ^ q) <? 2 ^ q then m
             else if (2 * (n mod 2 ^ q) =? 2 ^ q) && Z.even m then m else m + 1).
  assert (Hm' : m <= m').
  { subst m'. destruct (2 * (n mod 2 ^ q) <? 2 ^ q); [lia|].
    destruct ((2 * (n mod 2 ^ q) =? 2 ^ q) && Z.even m); lia. }
  destruct (2 ^ 1024 <=? m' * 2 ^ q); [left; reflexivity|].
  right. exists (m' * 2 ^ q). split; [reflexivity|].
  change (2 ^ 53) with (2 ^ 52 * 2). apply Z.mul_le_mono_nonneg; lia.
Qed.

(** An integer from [2 ^ 53] on becomes [Infinity] or an integer that is
    still [2 ^ 53] or more. *)
Lemma of_Z_large z :
  2 ^ 53 <= z ->
  JS.of_Z z = JS.Inf false \/ exists v, JS.of_Z z = JS.Int v /\ 2 ^ 53 <= v.
Proof.
  intros Hz. unfold JS.of_Z, JS.round.
  assert (Hp : 0 < z) by (pose proof (Z.pow_pos_nonneg 2 53); lia).
  destruct (Z.eqb_spec z 0) as [->|_]; [lia|].
  destruct (Z.ltb_spec z 0) as [Hneg|_]; [lia|].
  apply round_pos_large. exact Hz.
Qed.



Lemma int_of_Int z : JS.int_of (JS.Int z) = z.
Proof. unfold JS.int_of, JS.Int. rewrite Z.pow_0_r. apply Z.quot_1_r. Qed.

Lemma pow2_pos k : 0 < 2 ^ Z.of_N k.
Proof. apply Z.pow_pos_nonneg; lia. Qed.

Lemma gt_Fin n k m j :
  JS.gt (JS.Fin n k) (JS.Fin m j) = true <-> m * 2 ^ Z.of_N k < n * 2 ^ Z.of_N j.
Proof.
  unfold JS.gt, JS.cmp.
  destruct (Z.compare_spec (n * 2 ^ Z.of_N j) (m * 2 ^ Z.of_N k));
    split; intros; try discriminate; try reflexivity; lia.
Qed.

Lemma lt_Fin n k m j :
  JS.lt (JS.Fin n k) (JS.Fin m j) = true <-> n * 2 ^ Z.of_N j < m * 2 ^ Z.of_N k.
Proof.
  unfold JS.lt, JS.cmp.
  destruct (Z.compare_spec (n * 2 ^ Z.of_N j) (m * 2 ^ Z.of_N k));
    split; intros; try discriminate; try reflexivity; lia.
Qed.

Lemma le_Fin n k m j :
  JS.le (JS.Fin n k) (JS.Fin m j) = true <-> n * 2 ^ Z.of_N j <= m * 2 ^ Z.of_N k.
Proof.
  unfold JS.le, JS.cmp.
  destruct (Z.compare_spec (n * 2 ^ Z.of_N j) (m * 2 ^ Z.of_N k));
    split; intros; try discriminate; try reflexivity; lia.
Qed.

Lemma ge_Fin n k m j :
  JS.ge (JS.Fin n k) (JS.Fin m j) = true <-> m * 2 ^ Z.of_N k <= n * 2 ^ Z.of_N j.
Proof.
  unfold JS.ge, JS.cmp.
  destruct (Z.compare_spec (n * 2 ^ Z.of_N j) (m * 2 ^ Z.of_N k));
    split; intros; try discriminate; try reflexivity; lia.
Qed.

(** On integers the order is that of [Z]. *)
Lemma lt_Int a b : JS.lt (JS.Int a) (JS.Int b) = true <-> a < b.
Proof. unfold JS.Int. rewrite lt_Fin. change (2 ^ Z.of_N 0) with 1. lia. Qed.

Lemma le_Int a b : JS.le (JS.Int a) (JS.Int b) = true <-> a <= b.
Proof. unfold JS.Int. rewrite le_Fin. change (2 ^ Z.of_N 0) with 1. lia. Qed.



Ltac order_cases :=
  repeat match goal with
         | x : JS.number |- _ => destruct x as [|[]|? ?]
         end;
  try reflexivity; try discriminate.



Lemma ge_not_nan a b : JS.ge a b = true -> JS.isNaN a = false /\ JS.isNaN b = false.
Proof. order_cases; auto. Qed.




Lemma ge_gt_gt a b c : JS.ge a b = true -> JS.gt b c = true -> JS.gt a c = true.
Proof.
  order_cases. rewrite ge_Fin, !gt_Fin. intros H1 H2.
  pose proof (pow2_pos k). pose proof (pow2_pos k0). pose proof (pow2_pos k1). nia.
Qed.

(** ** Router: CIDR containment *)

Module Cidr.

(** The 32-bit value of the dotted quad [a.b.c.d]. *)
Definition ip_value (a b c d : Z) : Z := a * 2 ^ 24 + b * 2 ^ 16 + c * 2 ^ 8 + d.

Definition octet (a : Z) : Prop := 0 <= a <= 255.

(** The text [s] reads as four octets of value [x]. *)
Definition reads_ip (s : string) (x : Z) : Prop :=
  exists a b c d,
    map JS.Number (JS.split "." s) = [JS.Int a; JS.Int b; JS.Int c; JS.Int d]
    /\ octet a /\ octet b /\ octet c /\ octet d
    /\ x = ip_value a b c d.

(** The text [s] reads as [address/length] with a length from 0 to 32. *)
Definition reads_cidr (s : string) (net p : Z) : Prop :=
  exists addr len,
    JS.split "/" s = [addr; len]
    /\ reads_ip addr net
    /\ JS.parseInt (Some len) 10 = JS.Int p
    /\ 0 <= p <= 32.

(** Standard containment: the address and the network agree on all of the
    first [p] bits. *)
Definition contains (x net p : Z) : Prop :=
  Z.shiftr x (32 - p) = Z.shiftr net (32 - p).

End Cidr.

Lemma two32 : 2 ^ 32 = 4294967296.
Proof. reflexivity. Qed.

Lemma two31 : 2 ^ 31 = 2147483648.
Proof. reflexivity. Qed.

Lemma ToUint32_small z : 0 <= z < 2 ^ 32 -> JS.ToUint32 z = z.
Proof. intros H. unfold JS.ToUint32. apply Z.mod_small. exact H. Qed.

Lemma ToUint32_ToInt32 z : JS.ToUint32 (JS.ToInt32 z) = z mod 2 ^ 32.
Proof.
  unfold JS.ToUint32, JS.ToInt32.
  pose proof (Z.mod_pos_bound z (2 ^ 32) ltac:(rewrite two32; lia)) as Hb.
  destruct (2 ^ 31 <=? z mod 2 ^ 32).
  - replace (z mod 2 ^ 32 - 2 ^ 32) with (z mod 2 ^ 32 + (-1) * 2 ^ 32) by lia.
    rewrite Z_mod_plus_full. apply Z.mod_mod. rewrite two32. lia.
  - apply Z.mod_mod. rewrite two32. lia.
Qed.

Lemma ToInt32_inj u v :
  0 <= u < 2 ^ 32 -> 0 <= v < 2 ^ 32 -> JS.ToInt32 u = JS.ToInt32 v -> u = v.
Proof.
  intros Hu Hv H.
  assert (E : JS.ToUint32 (JS.ToInt32 u) = JS.ToUint32 (JS.ToInt32 v)) by (rewrite H; reflexivity).
  rewrite !ToUint32_ToInt32 in E. rewrite !Z.mod_small in E by assumption. exact E.
Qed.

Lemma ToInt32_small z : 0 <= z < 2 ^ 31 -> JS.ToInt32 z = z.
Proof.
  intros H. unfold JS.ToInt32. rewrite two31 in H.
  rewrite Z.mod_small by (rewrite two32; lia).
  destruct (2 ^ 31 <=? z) eqn:E; [|reflexivity].
  apply Z.leb_le in E. rewrite two31 in E. lia.
Qed.

Lemma shl_small a k :
  0 <= a < 2 ^ 31 -> 0 <= k < 32 -> JS.shl a k = JS.ToInt32 (a * 2 ^ k).
Proof.
  intros Ha Hk. unfold JS.shl. rewrite (ToInt32_small a) by exact Ha.
  rewrite (ToUint32_small k) by (rewrite two32; lia).
  rewrite Z.mod_small by lia. reflexivity.
Qed.

Lemma bor_ToInt32 u v :
  0 <= u < 2 ^ 32 -> 0 <= v < 2 ^ 32 ->
  JS.bor (JS.ToInt32 u) (JS.ToInt32 v) = JS.ToInt32 (Z.lor u v).
Proof.
  intros Hu Hv. unfold JS.bor. rewrite !ToUint32_ToInt32.
  rewrite !Z.mod_small by assumption. reflexivity.
Qed.

(** Joining a value shifted left by [k] with a value below [2 ^ k] adds them. *)
Lemma lor_shifted hi lo k :
  0 <= k -> 0 <= lo < 2 ^ k -> Z.lor (hi * 2 ^ k) lo = hi * 2 ^ k + lo.
Proof.
  intros Hk Hlo. symmetry. apply Z.add_nocarry_lor.
  apply Z.bits_inj'. intros n Hn.
  rewrite Z.land_spec, Z.bits_0, <- Z.shiftl_mul_pow2 by exact Hk.
  rewrite Z.shiftl_spec by exact Hn.
  destruct (Z.lt_ge_cases n k) as [Hlt|Hge].
  - rewrite Z.testbit_neg_r by lia. reflexivity.
  - replace (Z.testbit lo n) with false; [apply andb_false_r|].
    symmetry. destruct (Z.eq_dec lo 0) as [->|Hnz]; [apply Z.bits_0|].
    apply Z.bits_above_log2; [lia|].
    apply Z.lt_le_trans with k; [|exact Hge].
    apply Z.log2_lt_pow2; lia.
Qed.

Lemma ip_value_range a b c d :
  Cidr.octet a -> Cidr.octet b -> Cidr.octet c -> Cidr.octet d ->
  0 <= Cidr.ip_value a b c d < 2 ^ 32.
Proof.
  unfold Cidr.octet, Cidr.ip_value. intros Ha Hb Hc Hd.
  change (2 ^ 24) with 16777216. change (2 ^ 16) with 65536.
  change (2 ^ 8) with 256. rewrite two32. lia.
Qed.

Lemma ipToNumber_reads s x : Cidr.reads_ip s x -> ipToNumber s = JS.ToInt32 x.
Proof.
  intros (a & b & c & d & Hs & Ha & Hb & Hc & Hd & ->).
  unfold ipToNumber. rewrite Hs.
  cbn [lookup list_lookup default from_option id]. rewrite !int_of_Int.
  unfold Cidr.octet in *.
  rewrite !shl_small by (rewrite ?two31; lia).
  assert (Hd' : d = JS.ToInt32 d) by (symmetry; apply ToInt32_small; rewrite two31; lia).
  rewrite Hd' at 1.
  assert (R1 : 0 <= a * 2 ^ 24 < 2 ^ 32)
    by (change (2 ^ 24) with 16777216; rewrite two32; lia).
  assert (R2 : 0 <= b * 2 ^ 16 < 2 ^ 24)
    by (change (2 ^ 16) with 65536; change (2 ^ 24) with 16777216; lia).
  assert (R3 : 0 <= c * 2 ^ 8 < 2 ^ 16)
    by (change (2 ^ 8) with 256; change (2 ^ 16) with 65536; lia).
  assert (R4 : 0 <= d < 2 ^ 8) by (change (2 ^ 8) with 256; lia).
  rewrite bor_ToInt32;
    [|exact R1|change (2 ^ 24) with 16777216 in R2; rewrite two32; lia].
  rewrite lor_shifted by (try exact R2; lia).
  replace (a * 2 ^ 24 + b * 2 ^ 16) with ((a * 2 ^ 8 + b) * 2 ^ 16)
    by (change (2 ^ 24) with (2 ^ 8 * 2 ^ 16); ring).
  rewrite bor_ToInt32;
    [|change (2 ^ 8) with 256; change (2 ^ 16) with 65536; rewrite two32; lia
     |change (2 ^ 16) with 65536 in R3; rewrite two32; lia].
  rewrite lor_shifted by (try exact R3; lia).
  replace ((a * 2 ^ 8 + b) * 2 ^ 16 + c * 2 ^ 8) with ((a * 2 ^ 16 + b * 2 ^ 8 + c) * 2 ^ 8)
    by (change (2 ^ 16) with (2 ^ 8 * 2 ^ 8); ring).
  rewrite bor_ToInt32;
    [|change (2 ^ 8) with 256; change (2 ^ 16) with 65536; rewrite two32; lia
     |change (2 ^ 8) with 256 in R4; rewrite two32; lia].
  rewrite lor_shifted by (try exact R4; lia).
  f_equal. unfold Cidr.ip_value.
  change (2 ^ 24) with (2 ^ 8 * 2 ^ 8 * 2 ^ 8). change (2 ^ 16) with (2 ^ 8 * 2 ^ 8). ring.
Qed.

Lemma prefixToMask_wf p :
  0 <= p <= 32 -> prefixToMask (JS.Int p) = 2 ^ 32 - 2 ^ (32 - p).
Proof.
  intros H. replace p with (Z.of_nat (Z.to_nat p)) by lia.
  assert (Hn : (Z.to_nat p <= 32)%nat) by lia.
  generalize dependent (Z.to_nat p). intros n Hn.
  do 33 (destruct n as [|n]; [vm_compute; reflexivity|]). lia.
Qed.

Lemma land_mask x k :
  0 <= x < 2 ^ 32 -> 0 <= k <= 32 ->
  Z.land x (2 ^ 32 - 2 ^ k) = Z.shiftl (Z.shiftr x k) k.
Proof.
  intros Hx Hk.
  replace (2 ^ 32 - 2 ^ k) with (Z.shiftl (Z.ones (32 - k)) k).
  2:{ rewrite Z.shiftl_mul_pow2, Z.ones_equiv by lia.
      replace 32 with ((32 - k) + k) at 2 by lia.
      rewrite Z.pow_add_r by lia. unfold Z.pred. ring. }
  apply Z.bits_inj'. intros n Hn.
  rewrite Z.land_spec, !Z.shiftl_spec by exact Hn.
  destruct (Z.lt_ge_cases n k) as [Hlt|Hge].
  - rewrite (Z.testbit_neg_r (Z.ones (32 - k))), (Z.testbit_neg_r (Z.shiftr x k)) by lia.
    apply andb_false_r.
  - rewrite Z.shiftr_spec by lia. replace (n - k + k) with n by lia.
    destruct (Z.lt_ge_cases n 32) as [Hlt|Hhi].
    + rewrite Z.ones_spec_low by lia. apply andb_true_r.
    + rewrite Z.ones_spec_high by lia. rewrite andb_false_r.
      rewrite <- (Z.mod_small x (2 ^ 32)) by exact Hx.
      symmetry. apply Z.mod_pow2_bits_high. lia.
Qed.

Lemma shift_round_range x k :
  0 <= x < 2 ^ 32 -> 0 <= k -> 0 <= Z.shiftl (Z.shiftr x k) k < 2 ^ 32.
Proof.
  intros Hx Hk. rewrite Z.shiftl_mul_pow2, Z.shiftr_div_pow2 by exact Hk.
  assert (Hp : 0 < 2 ^ k) by (apply Z.pow_pos_nonneg; lia).
  pose proof (Z.mul_div_le x (2 ^ k) Hp).
  pose proof (Z.div_pos x (2 ^ k) ltac:(lia) Hp).
  split; [apply Z.mul_nonneg_nonneg; lia|lia].
Qed.

Lemma shiftl_cancel a b k : 0 <= k -> Z.shiftl a k = Z.shiftl b k -> a = b.
Proof.
  intros Hk H. rewrite !Z.shiftl_mul_pow2 in H by exact Hk.
  assert (Hp : 0 < 2 ^ k) by (apply Z.pow_pos_nonneg; lia).
  apply Z.mul_cancel_r in H; [exact H|lia].
Qed.

(** On well-formed texts [ipInSubnet] is standard CIDR containment. *)
Lemma ipInSubnet_standard ip cidr x net p :
  Cidr.reads_ip ip x -> Cidr.reads_cidr cidr net p ->
  ipInSubnet ip cidr = true <-> Cidr.contains x net p.
Proof.
  intros Hip (addr & len & Hs & Hnet & Hp & Hr).
  unfold ipInSubnet. rewrite Hs.
  cbn [lookup list_lookup default from_option id].
  rewrite Hp, (ipToNumber_reads _ _ Hip), (ipToNumber_reads _ _ Hnet).
  rewrite prefixToMask_wf by exact Hr.
  assert (Hx : 0 <= x < 2 ^ 32).
  { destruct Hip as (a & b & c & d & _ & Ha & Hb & Hc & Hd & ->).
    apply ip_value_range; assumption. }
  assert (Hn : 0 <= net < 2 ^ 32).
  { destruct Hnet as (a & b & c & d & _ & Ha & Hb & Hc & Hd & ->).
    apply ip_value_range; assumption. }
  assert (Hm : 0 <= 2 ^ 32 - 2 ^ (32 - p) < 2 ^ 32).
  { assert (0 < 2 ^ (32 - p)) by (apply Z.pow_pos_nonneg; lia).
    assert (2 ^ (32 - p) <= 2 ^ 32) by (apply Z.pow_le_mono_r; lia). lia. }
  unfold JS.band. rewrite !ToUint32_ToInt32.
  rewrite (ToUint32_small _ Hm), !Z.mod_small by assumption.
  rewrite !land_mask by (try assumption; lia).
  rewrite Z.eqb_eq. unfold Cidr.contains. split.
  - intros H. apply ToInt32_inj in H; try (apply shift_round_range; [assumption|lia]).
    apply shiftl_cancel in H; [exact H|lia].
  - intros ->. reflexivity.
Qed.

Example reads_ip_ex : Cidr.reads_ip "10.0.1.10" (Cidr.ip_value 10 0 1 10).
Proof.
  exists 10, 0, 1, 10. unfold Cidr.octet.
  split; [vm_compute; reflexivity|]. repeat split; lia.
Qed.

Example reads_cidr_ex : Cidr.reads_cidr "10.0.1.1/24" (Cidr.ip_value 10 0 1 1) 24.
Proof.
  exists "10.0.1.1", "24". split; [vm_compute; reflexivity|].
  split; [|split; [vm_compute; reflexivity|lia]].
  exists 10, 0, 1, 1. unfold Cidr.octet.
  split; [vm_compute; reflexivity|]. repeat split; lia.
Qed.

(** ** Router: longest-prefix match over the static routes *)

(** The prefix length [findBestRoute] reads from a route, and its test that
    the prefix contains the destination. *)
Definition route_plen (r : StaticRoute.t) : JS.number :=
  JS.parseInt (JS.split "/" (StaticRoute.prefix r) !! 1%nat) 10.

Definition route_contains (dstIp : string) (r : StaticRoute.t) : bool :=
  ipInSubnet dstIp (StaticRoute.prefix r).

(** A route that can be selected: its prefix contains the destination and
    carries a length of at least 0. *)
Definition selectable (dstIp : string) (r : StaticRoute.t) : bool :=
  route_contains dstIp r && JS.ge (route_plen r) (JS.Int 0).






Lemma selectable_true dstIp r :
  selectable dstIp r = true
  <-> route_contains dstIp r = true /\ JS.ge (route_plen r) (JS.Int 0) = true.
Proof. unfold selectable. apply andb_true_iff. Qed.

(** A length of at least 0 is a length that can be read. *)
Lemma selectable_readable dstIp r :
  selectable dstIp r = true -> JS.isNaN (route_plen r) = false.
Proof. intros H. apply selectable_true in H as [_ H]. apply ge_not_nan in H as [H _]. exact H. Qed.

Lemma getInterface_id d i iface :
  Device.getInterface d i = Some iface -> SimInterface.id iface = i.
Proof.
  unfold Device.getInterface. intros H. apply find_some in H as [_ H].
  apply String.eqb_eq in H. exact H.
Qed.


Definition c5_routes : list StaticRoute.t :=
  [StaticRoute.mk "10.0.0.0/8" "10.0.0.254" "eth1";
   StaticRoute.mk "10.0.1.0/24" "10.0.2.1" "eth2";
   StaticRoute.mk "10.0.1.0/24" "10.0.3.1" "eth3";
   StaticRoute.mk "192.168.0.0/16" "10.0.4.1" "eth1"].

Example findBestRoute_c5 :
  findBestRoute (Some c5_routes) "10.0.1.10"
  = Some (StaticRoute.mk "10.0.1.0/24" "10.0.2.1" "eth2").
Proof. vm_compute. reflexivity. Qed.




(** ** Router: the directly-connected lookup *)

(** The test [findDirectRoute] applies to an interface before it forwards
    through it: not the ingress, an IP configured, the destination inside the
    subnet of the interface, and a peer on its link. *)
Definition eligible (d : Device.t) (dstIp ingressId : string) (links : list SimLink.t)
    (e : SimInterface.t) : Prop :=
  SimInterface.id e <> ingressId
  /\ (exists cidr, SimInterface.ip e = Some cidr /\ cidr <> ""
                   /\ ipInSubnet dstIp cidr = true)
  /\ exists c, getConnectedInterface links (Device.id d) (SimInterface.id e) = Some c.

Definition eligibleb (d : Device.t) (dstIp ingressId : string) (links : list SimLink.t)
    (e : SimInterface.t) : bool :=
  negb (String.eqb (SimInterface.id e) ingressId)
  && JS.truthy (SimInterface.ip e)
  && ipInSubnet dstIp (default "" (SimInterface.ip e))
  && match getConnectedInterface links (Device.id d) (SimInterface.id e) with
     | Some _ => true
     | None => false
     end.

Lemma eligibleb_spec d dstIp ingressId links e :
  eligibleb d dstIp ingressId links e = true <-> eligible d dstIp ingressId links e.
Proof.
  unfold eligibleb, eligible. rewrite !andb_true_iff, negb_true_iff, String.eqb_neq.
  unfold JS.truthy. split.
  - intros [[[Hne Ht] Hs] Hc]. split; [exact Hne|]. split.
    + destruct (SimInterface.ip e) as [cidr|]; [|discriminate].
      exists cidr. split; [reflexivity|]. split; [|exact Hs].
      apply negb_true_iff, String.eqb_neq in Ht. exact Ht.
    + destruct (getConnectedInterface links (Device.id d) (SimInterface.id e)) as [c|];
        [eauto|discriminate].
  - intros [Hne [(cidr & -> & Hnz & Hs) (c & ->)]].
    apply String.eqb_neq in Hnz. rewrite Hnz. auto.
Qed.

Lemma find_first {A} (p : A -> bool) (l : list A) x :
  find p l = Some x ->
  exists l1 l2, l = l1 ++ x :: l2 /\ p x = true /\ forall y, In y l1 -> p y = false.
Proof.
  induction l as [|a l IH]; cbn [find]; [discriminate|].
  destruct (p a) eqn:Pa.
  - intros [= <-]. exists [], l. split; [reflexivity|]. split; [exact Pa|intros y []].
  - intros H. destruct (IH H) as (l1 & l2 & -> & Px & Hl1).
    exists (a :: l1), l2. split; [reflexivity|]. split; [exact Px|].
    intros y [<-|Hy]; auto.
Qed.

(** The route hop and the event [findDirectRoute] builds for interface [e]
    with peer [c]. *)
Definition direct_event (routedPacket : Packet.t) (e : SimInterface.t) (c : Endpoint.t)
  : Event.t :=
  Event.mk (Packet.with_srcMac (SimInterface.mac e) routedPacket)
    (Endpoint.nodeId c) (Endpoint.interfaceId c).

Definition direct_hop (d : Device.t) (time : Z) (routedPacket : Packet.t)
    (e : SimInterface.t) : TraceHop.t :=
  Device.createTraceHop d time (SimInterface.id e) TraceAction.route
    ("Routing to directly connected network via " +:+ SimInterface.id e)
    (Packet.with_srcMac (SimInterface.mac e) routedPacket).

Lemma findDirectRoute_loop_find d ifaces dstIp ingressId links routedPacket time :
  Router.findDirectRoute_loop d ifaces dstIp ingressId links routedPacket time =
    match find (eligibleb d dstIp ingressId links) ifaces with
    | Some e =>
        match getConnectedInterface links (Device.id d) (SimInterface.id e) with
        | Some c => Some (direct_event routedPacket e c, direct_hop d time routedPacket e)
        | None => None
        end
    | None => None
    end.
Proof.
  induction ifaces as [|e rest IH]; cbn [Router.findDirectRoute_loop find]; [reflexivity|].
  unfold eligibleb at 1. unfold Device.findConnectedInterface.
  destruct (String.eqb (SimInterface.id e) ingressId); cbn [negb andb orb]; [exact IH|].
  destruct (JS.truthy (SimInterface.ip e)); cbn [negb andb orb]; [|exact IH].
  destruct (ipInSubnet dstIp (default "" (SimInterface.ip e))); cbn [andb]; [|exact IH].
  destruct (getConnectedInterface links (Device.id d) (SimInterface.id e)) as [c|] eqn:Hc;
    [|exact IH].
  rewrite Hc. reflexivity.
Qed.

Lemma router_process_routes d staticRoutes interfaceId packet links time dstIp :
  Device.getInterface d interfaceId <> None ->
  Router.isPacketForRouter d packet = false ->
  1 < Packet.ttl packet ->
  Packet.dstIp packet = Some dstIp -> dstIp <> "" ->
  let routed := Packet.with_ttl (Packet.ttl packet - 1) packet in
  let receiveHop :=
    Device.createTraceHop d time interfaceId TraceAction.receive
      ("Packet received on " +:+ interfaceId) routed in
  Router.processPacket d staticRoutes interfaceId packet links time =
    match Router.findDirectRoute d dstIp interfaceId links routed time with
    | Some (ev, h) => result [ev] [receiveHop; h] false
    | None =>
        match Router.findStaticRoute d staticRoutes dstIp links routed time with
        | Some (ev, h) => result [ev] [receiveHop; h] false
        | None =>
            result [] [receiveHop;
                       Device.createTraceHop d time interfaceId TraceAction.drop
                         ("No route to " +:+ dstIp) routed] false
        end
    end.
Proof.
  intros Hi Hf Httl Hd Hnz routed receiveHop. unfold Router.processPacket.
  destruct (Device.getInterface d interfaceId); [|congruence].
  rewrite Hf. replace (Packet.ttl packet <=? 1) with false by (symmetry; apply Z.leb_gt; lia).
  rewrite Hd. unfold JS.truthy. apply String.eqb_neq in Hnz. rewrite Hnz.
  reflexivity.
Qed.

(** C6, as amended. For a router, an ingress interface and a packet whose
    destination IP is no interface IP of the router and whose TTL exceeds 1,
    [RouterDevice] forwards through the first interface, in configured order,
    that is not the ingress, has an IP, holds the destination in its subnet and
    has a peer on its link: the event goes to that peer, the source MAC of the
    packet is rewritten to the MAC of that interface and a [route] hop names
    the interface. With no such interface the directly-connected lookup yields
    nothing. On well-formed addresses the subnet test is standard CIDR
    containment (all the prefix bits are compared), so an interface whose
    subnet does not contain the destination is never chosen. *)
Theorem C6_direct_route_first_connected_match
    (d : Device.t) (staticRoutes : list StaticRoute.t) (interfaceId : string)
    (packet : Packet.t) (links : list SimLink.t) (time : Z) (dstIp : string) :
  Device.getInterface d interfaceId <> None ->
  Router.isPacketForRouter d packet = false ->
  1 < Packet.ttl packet ->
  Packet.dstIp packet = Some dstIp -> dstIp <> "" ->
  let routed := Packet.with_ttl (Packet.ttl packet - 1) packet in
  let res := Router.processPacket d staticRoutes interfaceId packet links time in
  ((exists l1 e l2 c,
       Device.interfaces d = l1 ++ e :: l2
       /\ eligible d dstIp interfaceId links e
       /\ (forall y, In y l1 -> ~ eligible d dstIp interfaceId links y)
       /\ getConnectedInterface links (Device.id d) (SimInterface.id e) = Some c
       /\ DeviceProcessResult.events res
          = [Event.mk (Packet.with_srcMac (SimInterface.mac e) routed)
               (Endpoint.nodeId c) (Endpoint.interfaceId c)]
       /\ exists h, last (DeviceProcessResult.trace res) = Some h
                    /\ TraceHop.action h = TraceAction.route
                    /\ TraceHop.interfaceId h = SimInterface.id e
                    /\ Packet.srcMac (TraceHop.packet h) = SimInterface.mac e)
   \/ ((forall y, In y (Device.interfaces d) -> ~ eligible d dstIp interfaceId links y)
       /\ Router.findDirectRoute d dstIp interfaceId links routed time = None))
  /\ (forall e cidr x net p,
        SimInterface.ip e = Some cidr ->
        Cidr.reads_ip dstIp x -> Cidr.reads_cidr cidr net p ->
        (eligible d dstIp interfaceId links e
         <-> SimInterface.id e <> interfaceId
             /\ Cidr.contains x net p
             /\ exists c, getConnectedInterface links (Device.id d) (SimInterface.id e)
                          = Some c)).
Proof.
  intros Hi Hf Httl Hd Hnz routed res. split.
  - subst res. rewrite (router_process_routes d staticRoutes interfaceId packet links time
                          dstIp Hi Hf Httl Hd Hnz).
    fold routed. unfold Router.findDirectRoute. rewrite findDirectRoute_loop_find.
    destruct (find (eligibleb d dstIp interfaceId links) (Device.interfaces d)) as [e|] eqn:F.
    + left. destruct (find_first _ _ _ F) as (l1 & l2 & E & He & Hl1).
      apply eligibleb_spec in He as He'.
      destruct He' as (_ & _ & c & Hc).
      exists l1, e, l2, c. split; [exact E|].
      split; [apply eligibleb_spec; exact He|].
      split.
      { intros y Hy Hel. apply eligibleb_spec in Hel. rewrite (Hl1 y Hy) in Hel.
        discriminate. }
      split; [exact Hc|]. rewrite Hc. split; [reflexivity|].
      eexists. split; [reflexivity|]. repeat split.
    + right. split; [|reflexivity].
      intros y Hy Hel. apply eligibleb_spec in Hel.
      rewrite (find_none _ _ F y Hy) in Hel. discriminate.
  - intros e cidr x net p Hip Hx Hc.
    pose proof (ipInSubnet_standard dstIp cidr x net p Hx Hc) as Hstd.
    unfold eligible. rewrite Hip. split.
    + intros (Hne & (cidr' & [= <-] & _ & Hs) & Hp).
      split; [exact Hne|]. split; [apply Hstd; exact Hs|exact Hp].
    + intros (Hne & Hcont & Hp). split; [exact Hne|]. split; [|exact Hp].
      exists cidr. split; [reflexivity|]. split; [|apply Hstd; exact Hcont].
      intros ->. destruct Hc as (addr & len & Hsplit & _). discriminate Hsplit.
Qed.

Definition c6_router : Device.t :=
  Device.mk "R" "Router" router
    [SimInterface.mk "eth0" "02:00:00:00:01:00" (Some "10.0.0.1/24") None None None;
     SimInterface.mk "eth1" "02:00:00:00:01:01" (Some "10.0.1.1/24") None None None;
     SimInterface.mk "eth2" "02:00:00:00:01:02" (Some "192.168.5.1/24") None None None]
    (RouterDevice []).

Definition c6_links : list SimLink.t :=
  [SimLink.mk "l1" (Endpoint.mk "A" "eth0") (Endpoint.mk "R" "eth0");
   SimLink.mk "l2" (Endpoint.mk "R" "eth1") (Endpoint.mk "B" "eth0");
   SimLink.mk "l3" (Endpoint.mk "R" "eth2") (Endpoint.mk "C" "eth0")].

Definition c6_packet : Packet.t :=
  Packet.mk "pkt-0" "02:AA:00:00:00:01" "02:AA:00:00:00:02" (Some "10.0.0.10")
    (Some "10.0.1.10") None icmp None None 64 None.

Example router_between_subnets :
  Router.processPacket c6_router [] "eth0" c6_packet c6_links 1
  = result
      [Event.mk (Packet.with_srcMac "02:00:00:00:01:01" (Packet.with_ttl 63 c6_packet))
         "B" "eth0"]
      [Device.createTraceHop c6_router 1 "eth0" TraceAction.receive
         "Packet received on eth0" (Packet.with_ttl 63 c6_packet);
       Device.createTraceHop c6_router 1 "eth1" TraceAction.route
         "Routing to directly connected network via eth1"
         (Packet.with_srcMac "02:00:00:00:01:01" (Packet.with_ttl 63 c6_packet))]
      false.
Proof. vm_compute. reflexivity. Qed.

Lemma C6_direct_route_first_connected_match_witness :
  Cidr.reads_ip "10.0.1.10" (Cidr.ip_value 10 0 1 10)
  /\ ~ eligible c6_router "10.0.1.10" "eth0" c6_links
        (SimInterface.mk "eth2" "02:00:00:00:01:02" (Some "192.168.5.1/24") None None None).
Proof.
  split; [exact reads_ip_ex|].
  assert (Hc : Cidr.reads_cidr "192.168.5.1/24" (Cidr.ip_value 192 168 5 1) 24).
  { exists "192.168.5.1", "24". split; [vm_compute; reflexivity|].
    split; [|split; [vm_compute; reflexivity|lia]].
    exists 192, 168, 5, 1. unfold Cidr.octet.
    split; [vm_compute; reflexivity|]. repeat split; lia. }
  intros He.
  apply (proj2 (C6_direct_route_first_connected_match c6_router [] "eth0" c6_packet
                  c6_links 1 "10.0.1.10"
                  ltac:(discriminate) eq_refl ltac:(reflexivity) eq_refl
                  ltac:(discriminate))
           (SimInterface.mk "eth2" "02:00:00:00:01:02" (Some "192.168.5.1/24") None None
              None)
           "192.168.5.1/24" (Cidr.ip_value 10 0 1 10) (Cidr.ip_value 192 168 5 1) 24
           eq_refl reads_ip_ex Hc) in He.
  destruct He as (_ & Hcont & _). vm_compute in Hcont. discriminate Hcont.
Defined.

(** The selection as the claim states it: the first interface, in configured
    order, that is not the ingress, has an IP with a prefix, and holds the
    destination in its subnet. *)
Definition stated_direct (d : Device.t) (dstIp ingressId : string)
  : option SimInterface.t :=
  find (fun e =>
          negb (String.eqb (SimInterface.id e) ingressId)
          && JS.truthy (SimInterface.ip e)
          && JS.includes "/" (default "" (SimInterface.ip e))
          && ipInSubnet dstIp (default "" (SimInterface.ip e)))
       (Device.interfaces d).

Definition c6_router_unlinked : Device.t :=
  Device.mk "R" "Router" router
    [SimInterface.mk "eth0" "02:00:00:00:01:00" (Some "10.0.0.1/24") None None None;
     SimInterface.mk "eth1" "02:00:00:00:01:01" (Some "10.0.1.1/24") None None None;
     SimInterface.mk "eth2" "02:00:00:00:01:02" (Some "10.0.1.2/24") None None None]
    (RouterDevice []).

Definition c6_links_unlinked : list SimLink.t :=
  [SimLink.mk "l1" (Endpoint.mk "A" "eth0") (Endpoint.mk "R" "eth0");
   SimLink.mk "l2" (Endpoint.mk "R" "eth2") (Endpoint.mk "B" "eth0")].

(** C6, as stated, fails: [eth1] is the first interface after the ingress
    whose subnet [10.0.1.1/24] contains the destination [10.0.1.10], but it
    has no link; the router goes on and forwards through [eth2], with the
    source MAC of [eth2]. *)
Lemma C6_first_match_counterexample :
  let res := Router.processPacket c6_router_unlinked [] "eth0" c6_packet
               c6_links_unlinked 1 in
  SimInterface.id <$> stated_direct c6_router_unlinked "10.0.1.10" "eth0" = Some "eth1"
  /\ DeviceProcessResult.events res
     = [Event.mk (Packet.with_srcMac "02:00:00:00:01:02" (Packet.with_ttl 63 c6_packet))
          "B" "eth0"]
  /\ TraceHop.interfaceId <$> last (DeviceProcessResult.trace res) = Some "eth2".
Proof. vm_compute. repeat split; reflexivity. Qed.

(** The legacy [routerProcess] compares whole octets only: with [eth1] in
    [10.0.1.1/25] it forwards a packet for [10.0.1.200] through [eth1],
    although that address lies outside the subnet, as [ipInSubnet] confirms. *)
Example legacy_routerProcess_octet_match :
  let node :=
    SimNode.mk "R" router "Router"
      [SimInterface.mk "eth0" "02:00:00:00:01:00" (Some "10.0.0.1/24") None None None;
       SimInterface.mk "eth1" "02:00:00:00:01:01" (Some "10.0.1.1/25") None None None]
      None None (Some []) None None in
  let links :=
    [SimLink.mk "l1" (Endpoint.mk "A" "eth0") (Endpoint.mk "R" "eth0");
     SimLink.mk "l2" (Endpoint.mk "R" "eth1") (Endpoint.mk "B" "eth0")] in
  let packet :=
    Packet.mk "pkt-0" "02:AA:00:00:00:01" "02:AA:00:00:00:02" (Some "10.0.0.10")
      (Some "10.0.1.200") None icmp None None 64 None in
  ipInSubnet "10.0.1.200" "10.0.1.1/25" = false
  /\ BehaviorResult.events <$> RouterBehavior.routerProcess node "eth0" packet links 1
     = Some [Event.mk (Packet.with_srcMac "02:00:00:00:01:01" (Packet.with_ttl 63 packet))
               "B" "eth0"]
  /\ DeviceProcessResult.events
       (Router.processPacket (createFromSimNode node) [] "eth0" packet links 1)
     = [].
Proof. vm_compute. repeat split; reflexivity. Qed.

(** ** The driver: the main loop *)

Lemma enqueue_all_time q evs :
  EventQueue.time (foldl (fun q ev => EventQueue.enqueue ev q) q evs) = EventQueue.time q.
Proof.
  revert q. induction evs as [|ev evs IH]; intros q; cbn [foldl]; [reflexivity|].
  rewrite IH. reflexivity.
Qed.

Lemma processAtDevice_frame s device interfaceId packet time :
  let s' := (Simulator.processAtDevice s device interfaceId packet time).2 in
  Simulator.options s' = Simulator.options s
  /\ Simulator.eventQueue s' = Simulator.eventQueue s
  /\ Simulator.trace s' = Simulator.trace s
  /\ Simulator.graph s' = Simulator.graph s.
Proof. unfold Simulator.processAtDevice. cbn [snd fst]. repeat split. Qed.

(** What a pass through the loop body leaves behind. *)
Definition step_state (st : Simulator.Step) : Simulator.t * Z :=
  match st with
  | Simulator.Return _ s h => (s, h)
  | Simulator.Continue s h _ => (s, h)
  end.

(** With an event in the queue the body dequeues once and ticks once: the
    counter [hops] and the clock both advance by one, and the options are
    left as they are. *)
Lemma loop_body_spec s hops visited :
  EventQueue.isEmpty (Simulator.eventQueue s) = false ->
  exists st,
    Simulator.loop_body s hops visited = Some st
    /\ (step_state st).2 = hops + 1
    /\ Simulator.options (step_state st).1 = Simulator.options s
    /\ EventQueue.time (Simulator.eventQueue (step_state st).1)
       = EventQueue.time (Simulator.eventQueue s) + 1.
Proof.
  intros Hq. unfold Simulator.loop_body, EventQueue.dequeue, EventQueue.isEmpty in *.
  destruct (EventQueue.queue (Simulator.eventQueue s)) as [|event rest]; [discriminate|].
  cbv zeta.
  destruct (bool_decide (Simulator.stateKey event ∈ visited)).
  { eexists. split; [reflexivity|]. repeat split. }
  destruct (Simulator.getDevice _ (SimEvent.nodeId event)) as [device|].
  2:{ eexists. split; [reflexivity|]. repeat split. }
  match goal with
  | |- context [Simulator.processAtDevice ?a ?b ?c ?d ?e] =>
      pose proof (processAtDevice_frame a b c d e) as (Ho & Hqq & _ & _);
      set (pr := Simulator.processAtDevice a b c d e) in *
  end.
  destruct (DeviceProcessResult.delivered pr.1).
  - eexists. split; [reflexivity|].
    cbn [step_state fst snd Simulator.options Simulator.eventQueue Simulator.set_run].
    rewrite Ho, Hqq. repeat split.
  - eexists. split; [reflexivity|].
    cbn [step_state fst snd Simulator.options Simulator.eventQueue Simulator.set_run].
    rewrite enqueue_all_time, Ho, Hqq. repeat split.
Qed.

Lemma enqueue_all_queue q evs :
  exists added,
    EventQueue.queue (foldl (fun q ev => EventQueue.enqueue ev q) q evs)
    = EventQueue.queue q ++ added.
Proof.
  revert q. induction evs as [|ev evs IH]; intros q; cbn [foldl].
  - exists []. symmetry. apply app_nil_r.
  - destruct (IH (EventQueue.enqueue ev q)) as (added & ->).
    cbn [EventQueue.enqueue EventQueue.queue]. rewrite <- app_assoc. eauto.
Qed.

(** A pass through the body takes exactly the head of the queue: the queue it
    leaves is the tail, followed by the events the device emitted. *)
Lemma loop_body_takes_head s hops visited st :
  Simulator.loop_body s hops visited = Some st ->
  exists event rest added,
    EventQueue.queue (Simulator.eventQueue s) = event :: rest
    /\ EventQueue.queue (Simulator.eventQueue (step_state st).1) = rest ++ added.
Proof.
  unfold Simulator.loop_body, EventQueue.dequeue.
  destruct (EventQueue.queue (Simulator.eventQueue s)) as [|event rest]; [discriminate|].
  cbv zeta. intros H. exists event, rest.
  destruct (bool_decide (Simulator.stateKey event ∈ visited)).
  { injection H as <-. exists []. split; [reflexivity|]. symmetry. apply app_nil_r. }
  destruct (Simulator.getDevice _ (SimEvent.nodeId event)) as [device|].
  2:{ injection H as <-. exists []. split; [reflexivity|]. symmetry. apply app_nil_r. }
  destruct (DeviceProcessResult.delivered _); injection H as <-;
    cbn [step_state fst Simulator.eventQueue Simulator.set_run
         Simulator.processAtDevice snd].
  - exists []. split; [reflexivity|]. symmetry. apply app_nil_r.
  - match goal with
    | |- context [foldl _ ?q ?evs] =>
        destruct (enqueue_all_queue q evs) as (added & E)
    end.
    exists added. split; [reflexivity|]. rewrite E. reflexivity.
Qed.

Lemma loop_guard_true s hops :
  Simulator.loop_guard s hops = true ->
  EventQueue.isEmpty (Simulator.eventQueue s) = false
  /\ hops < SimulationOptions.maxHops (Simulator.options s).
Proof.
  unfold Simulator.loop_guard. intros H. apply andb_true_iff in H as [H1 H2].
  apply negb_true_iff in H1. apply Z.ltb_lt in H2. auto.
Qed.

(** The loop is left within [maxHops - hops] further passes; each pass is one
    dequeue and one tick. *)
Lemma main_loop_total fuel :
  forall s hops visited,
    (Z.to_nat (SimulationOptions.maxHops (Simulator.options s) - hops) <= fuel)%nat ->
    exists r s' hops',
      Simulator.main_loop fuel s hops visited = Some (r, s', hops')
      /\ Simulator.options s' = Simulator.options s
      /\ hops <= hops'
      /\ hops' <= Z.max hops (SimulationOptions.maxHops (Simulator.options s))
      /\ EventQueue.time (Simulator.eventQueue s') - hops'
         = EventQueue.time (Simulator.eventQueue s) - hops.
Proof.
  induction fuel as [|fuel IH]; intros s hops visited Hfuel.
  - cbn [Simulator.main_loop].
    destruct (Simulator.loop_guard s hops) eqn:G.
    + apply loop_guard_true in G as [_ G]. lia.
    + eexists _, _, _. split; [reflexivity|]. repeat split; lia.
  - cbn [Simulator.main_loop].
    destruct (Simulator.loop_guard s hops) eqn:G.
    2:{ eexists _, _, _. split; [reflexivity|]. repeat split; lia. }
    apply loop_guard_true in G as [Hq Hlt].
    destruct (loop_body_spec s hops visited Hq) as (st & -> & Hh & Ho & Ht).
    destruct st as [r s1 h1|s1 h1 v1]; cbn [step_state fst snd] in Hh, Ho, Ht.
    + eexists _, _, _. split; [reflexivity|]. repeat split; try assumption; lia.
    + destruct (IH s1 h1 v1) as (r & s' & h' & E & Ho' & Hle & Hmax & Htime).
      { rewrite Ho. lia. }
      exists r, s', h'. split; [exact E|]. rewrite Ho in Ho', Hmax.
      repeat split; try assumption; lia.
Qed.

Lemma main_loop_fuel_mono fuel :
  forall s hops visited x extra,
    Simulator.main_loop fuel s hops visited = Some x ->
    Simulator.main_loop (fuel + extra) s hops visited = Some x.
Proof.
  induction fuel as [|fuel IH]; intros s hops visited x extra.
  - cbn [Simulator.main_loop]. destruct (Simulator.loop_guard s hops) eqn:G; [discriminate|].
    intros H. destruct extra; cbn [Nat.add Simulator.main_loop]; rewrite G; exact H.
  - cbn [Nat.add Simulator.main_loop]. destruct (Simulator.loop_guard s hops); [|auto].
    destruct (Simulator.loop_body s hops visited) as [[r s1 h1|s1 h1 v1]|]; auto.
Qed.

(** The last hop of a trace is an ACL deny or a drop. *)
Definition ends_denied_or_dropped (trace : list TraceHop.t) : Prop :=
  exists h, last trace = Some h
            /\ (TraceHop.action h = TraceAction.acl_deny
                \/ TraceHop.action h = TraceAction.drop).

(** A result that reports no delivery and no loop has [blocked] set exactly
    when its trace ends with an ACL deny or a drop. *)
Definition blocked_by_last_hop (r : SimulationResult.t) : Prop :=
  SimulationResult.delivered r = false ->
  SimulationResult.loop r = false ->
  (SimulationResult.blocked r = true <-> ends_denied_or_dropped (SimulationResult.trace r)).

Lemma after_loop_blocked s hops : blocked_by_last_hop (Simulator.after_loop s hops).
Proof.
  unfold blocked_by_last_hop, Simulator.after_loop, ends_denied_or_dropped.
  destruct (SimulationOptions.maxHops (Simulator.options s) <=? hops);
    cbn [SimulationResult.loop SimulationResult.blocked SimulationResult.trace];
    [discriminate|].
  intros _ _. destruct (last (Simulator.trace s)) as [h|].
  - split.
    + intros H. exists h. split; [reflexivity|].
      destruct (TraceHop.action h); cbn in H; try discriminate; auto.
    + intros (h' & [= <-] & [->| ->]); reflexivity.
  - split; [discriminate|]. intros (h' & H & _). discriminate.
Qed.

Lemma failure_blocked reason : blocked_by_last_hop (failure reason).
Proof.
  unfold blocked_by_last_hop, failure, ends_denied_or_dropped.
  cbn [SimulationResult.blocked SimulationResult.trace]. intros _ _.
  split; [discriminate|]. intros (h & H & _). discriminate.
Qed.

Lemma main_loop_blocked fuel :
  forall s hops visited r s' hops',
    Simulator.main_loop fuel s hops visited = Some (r, s', hops') ->
    blocked_by_last_hop r.
Proof.
  induction fuel as [|fuel IH]; intros s hops visited r s' hops';
    cbn [Simulator.main_loop]; destruct (Simulator.loop_guard s hops);
    try discriminate;
    try (intros [= <- <- <-]; apply after_loop_blocked).
  destruct (Simulator.loop_body s hops visited) as [[r1 s1 h1|s1 h1 v1]|] eqn:B;
    [|apply IH|discriminate].
  intros [= <- <- <-]. unfold Simulator.loop_body in B.
  destruct (EventQueue.dequeue (Simulator.eventQueue s)) as [[event|] q1]; [|discriminate].
  cbv zeta in B.
  destruct (bool_decide (Simulator.stateKey event ∈ visited)).
  { injection B as <- _ _. intros _ H. discriminate H. }
  destruct (Simulator.getDevice _ (SimEvent.nodeId event)); [|discriminate].
  destruct (DeviceProcessResult.delivered _); [|discriminate].
  injection B as <- _ _. intros H. discriminate H.
Qed.

Lemma simulate_from_seed_cases fuel s packetSpec srcNode dstNode :
  (exists reason, simulate_from_seed fuel s packetSpec srcNode dstNode
                  = Some (failure reason, s, 0))
  \/ (exists q tr i,
        EventQueue.time q = EventQueue.time (Simulator.eventQueue s)
        /\ simulate_from_seed fuel s packetSpec srcNode dstNode
           = Simulator.main_loop fuel
               (Simulator.set_run q (Simulator.macTables s) tr i s) 0 ∅).
Proof.
  unfold simulate_from_seed.
  destruct (Simulator.getDevice s (SimNode.id srcNode)) as [srcDevice|]; [|eauto].
  destruct (Device.class srcDevice); eauto.
  right. eexists _, _, _. split; [|reflexivity]. apply enqueue_all_time.
Qed.

Lemma simulate_cases graph_path fuel s0 packetSpec :
  let s := Simulator.set_run (EventQueue.clear (Simulator.eventQueue s0))
             (Simulator.macTables s0) [] (Simulator.ids s0) s0 in
  (exists reason, simulate graph_path fuel s0 packetSpec = Some (failure reason, s, 0))
  \/ (exists srcNode dstNode,
        simulate graph_path fuel s0 packetSpec
        = simulate_from_seed fuel s packetSpec srcNode dstNode).
Proof.
  intros s. unfold simulate. fold s.
  destruct (getNodeById _ (PacketSpec.srcNodeId packetSpec)) as [srcNode|]; [|eauto].
  destruct (getNodeById _ (PacketSpec.dstNodeId packetSpec)) as [dstNode|]; [|eauto].
  destruct (negb (isReachable graph_path (Simulator.graph s) (SimNode.id srcNode)
                    (SimNode.id dstNode))); eauto.
Qed.

(** C3. For every simulator, packet specification and options with
    [maxHops >= 1], [simulate] returns a result: with fuel for [maxHops]
    passes or more the model yields one and the same result. The loop makes
    [hops] passes, each of which dequeues one event and ticks the clock once,
    and [hops] does not exceed [maxHops]. *)
Theorem C3_simulate_terminates_within_maxHops
    (graph_path : Graph.t -> string -> string -> option (list string))
    (s0 : Simulator.t) (packetSpec : PacketSpec.t) :
  1 <= SimulationOptions.maxHops (Simulator.options s0) ->
  exists r s' hops,
    (forall fuel,
        (Z.to_nat (SimulationOptions.maxHops (Simulator.options s0)) <= fuel)%nat ->
        simulate graph_path fuel s0 packetSpec = Some (r, s', hops))
    /\ 0 <= hops <= SimulationOptions.maxHops (Simulator.options s0)
    /\ EventQueue.time (Simulator.eventQueue s') = hops.
Proof.
  intros Hmax.
  set (n := Z.to_nat (SimulationOptions.maxHops (Simulator.options s0))).
  set (s := Simulator.set_run (EventQueue.clear (Simulator.eventQueue s0))
              (Simulator.macTables s0) [] (Simulator.ids s0) s0).
  assert (Hfail : forall reason,
            (forall fuel, simulate graph_path fuel s0 packetSpec = Some (failure reason, s, 0)) ->
            exists r s' hops,
              (forall fuel, (n <= fuel)%nat ->
                            simulate graph_path fuel s0 packetSpec = Some (r, s', hops))
              /\ 0 <= hops <= SimulationOptions.maxHops (Simulator.options s0)
              /\ EventQueue.time (Simulator.eventQueue s') = hops).
  { intros reason H. exists (failure reason), s, 0. split; [auto|]. split; [lia|reflexivity]. }
  destruct (getNodeById (SimTopology.nodes (Simulator.topology s))
              (PacketSpec.srcNodeId packetSpec)) as [srcNode|] eqn:Hsrc.
  2:{ eapply Hfail. intros fuel. unfold simulate. cbv zeta. fold s.
      rewrite Hsrc. reflexivity. }
  destruct (getNodeById (SimTopology.nodes (Simulator.topology s))
              (PacketSpec.dstNodeId packetSpec)) as [dstNode|] eqn:Hdst.
  2:{ eapply Hfail. intros fuel. unfold simulate. cbv zeta. fold s.
      rewrite Hsrc, Hdst. reflexivity. }
  destruct (negb (isReachable graph_path (Simulator.graph s) (SimNode.id srcNode)
                    (SimNode.id dstNode))) eqn:Hr.
  { eapply Hfail. intros fuel. unfold simulate. cbv zeta. fold s.
    rewrite Hsrc, Hdst, Hr. reflexivity. }
  destruct (Simulator.getDevice s (SimNode.id srcNode)) as [srcDevice|] eqn:Hdev.
  2:{ eapply Hfail. intros fuel. unfold simulate. cbv zeta. fold s.
      rewrite Hsrc, Hdst, Hr. unfold simulate_from_seed. rewrite Hdev. reflexivity. }
  destruct (Device.class srcDevice) eqn:Hc;
    try (eapply Hfail; intros fuel; unfold simulate; cbv zeta; fold s;
         rewrite Hsrc, Hdst, Hr; unfold simulate_from_seed; rewrite Hdev, Hc;
         reflexivity).
  assert (Hsim : exists st0,
            EventQueue.time (Simulator.eventQueue st0) = 0
            /\ Simulator.options st0 = Simulator.options s0
            /\ forall fuel, simulate graph_path fuel s0 packetSpec
                            = Simulator.main_loop fuel st0 0 ∅).
  { eexists. split; [|split].
    3:{ intros fuel. unfold simulate. cbv zeta. fold s.
        rewrite Hsrc, Hdst, Hr. unfold simulate_from_seed. rewrite Hdev, Hc.
        reflexivity. }
    - cbn [Simulator.eventQueue Simulator.set_run]. rewrite enqueue_all_time. reflexivity.
    - reflexivity. }
  destruct Hsim as (st0 & Ht0 & Ho & Hsim).
  destruct (main_loop_total n st0 0 ∅) as (r & s' & h & E & _ & Hle & Hub & Ht).
  { subst n. rewrite Ho. lia. }
  exists r, s', h. split.
  - intros fuel Hf. rewrite Hsim. replace fuel with (n + (fuel - n))%nat by lia.
    apply main_loop_fuel_mono. exact E.
  - rewrite Ho in Hub. split; lia.
Qed.

(** When [simulate] reports neither a delivery nor a loop, [blocked] is set
    exactly when the final trace hop is an ACL deny or a drop. *)
Lemma simulate_blocked_by_last_hop
    (graph_path : Graph.t -> string -> string -> option (list string))
    (fuel : nat) (s : Simulator.t) (packetSpec : PacketSpec.t)
    (r : SimulationResult.t) (s' : Simulator.t) (hops : Z) :
  simulate graph_path fuel s packetSpec = Some (r, s', hops) -> blocked_by_last_hop r.
Proof.
  intros H.
  pose proof (simulate_cases graph_path fuel s packetSpec) as Hc. cbv zeta in Hc.
  destruct Hc as [(reason & E)|(src & dst & E)]; rewrite E in H.
  - injection H as <- _ _. apply failure_blocked.
  - destruct (simulate_from_seed_cases fuel
                (Simulator.set_run (EventQueue.clear (Simulator.eventQueue s))
                   (Simulator.macTables s) [] (Simulator.ids s) s)
                packetSpec src dst)
      as [(reason & E')|(q & tr & i & _ & E')]; rewrite E' in H.
    + injection H as <- _ _. apply failure_blocked.
    + eapply main_loop_blocked. exact H.
Qed.

Definition demo_ids : IdSupply.t := IdSupply.mk (fun n => "pkt-" +:+ pretty n) 0.

Definition demo_hostA : SimNode.t :=
  SimNode.mk "A" host "Host A"
    [SimInterface.mk "eth0" "02:AA:00:00:00:01" (Some "192.168.1.10/24") None None None]
    None None None None None.

Definition demo_hostB : SimNode.t :=
  SimNode.mk "B" host "Host B"
    [SimInterface.mk "eth0" "02:AA:00:00:00:02" (Some "192.168.1.11/24") None None None]
    None None None None None.

Definition demo_spec : PacketSpec.t := PacketSpec.mk "A" "B" None None None None None.

(** What matters of a run: delivered, loop, blocked, and the action and reason
    of the last hop. *)
Definition verdict (run : option (SimulationResult.t * Simulator.t * Z))
  : option (bool * bool * bool * option (TraceAction.t * string)) :=
  match run with
  | Some (r, _, _) =>
      Some (SimulationResult.delivered r, SimulationResult.loop r,
            SimulationResult.blocked r,
            (fun h => (TraceHop.action h, TraceHop.reason h))
              <$> last (SimulationResult.trace r))
  | None => None
  end.

(** ** The driver: the reachability pre-check *)

(** Every edge of the graph joins the node named ["undefined"] to itself. *)
Definition only_undefined_loops (g : Graph.t) : Prop :=
  forall e, In e (Graph.edges g) -> e = ("undefined", "undefined").

Lemma setNode_edges v g : Graph.edges (Graph.setNode v g) = Graph.edges g.
Proof. unfold Graph.setNode. destruct (bool_decide (v ∈ Graph.nodes g)); reflexivity. Qed.

Lemma add_nodes_edges nodes g :
  Graph.edges (foldl (fun g node => Graph.setNode (SimNode.id node) g) g nodes)
  = Graph.edges g.
Proof.
  revert g. induction nodes as [|n nodes IH]; intros g; cbn [foldl]; [reflexivity|].
  rewrite IH. apply setNode_edges.
Qed.

Lemma add_links_edges links g :
  only_undefined_loops g ->
  only_undefined_loops
    (foldl (fun g link => Graph.setEdge (link_sourceNodeId link) (link_targetNodeId link) g)
       g links).
Proof.
  revert g. induction links as [|l links IH]; intros g Hg; cbn [foldl]; [exact Hg|].
  apply IH. intros e He. unfold Graph.setEdge in He. cbn [Graph.edges] in He.
  rewrite !setNode_edges in He. apply in_app_or in He as [He|[<-|[]]]; [auto|reflexivity].
Qed.

Lemma buildGraph_edges topology : only_undefined_loops (buildGraph topology).
Proof.
  unfold buildGraph. apply add_links_edges. intros e He.
  rewrite add_nodes_edges in He. destruct He.
Qed.

Lemma connected_only_loops g a b :
  only_undefined_loops g -> Graph.connected g a b -> a = b.
Proof.
  intros Hg H. induction H as [|x y z Hxy _ IH]; [reflexivity|].
  rewrite <- IH. destruct Hxy as [H|H]; apply list_elem_of_In in H;
    apply Hg in H; injection H as -> ->; reflexivity.
Qed.

Section Precheck.

(** The path function of the graph library, and what is assumed of it: a
    path it reports runs along edges of the graph it is given. *)
Variable graph_path : Graph.t -> string -> string -> option (list string).

Hypothesis path_along_edges :
  forall g x y path, graph_path g x y = Some path -> path <> [] -> Graph.connected g x y.

(** The pre-check answers "unreachable" for every pair of distinct nodes,
    whatever the links. *)
Lemma isReachable_distinct topology a b :
  a <> b -> isReachable graph_path (buildGraph topology) a b = false.
Proof.
  intros Hab. unfold isReachable.
  destruct (graph_path (buildGraph topology) a b) as [path|] eqn:E; [|reflexivity].
  destruct path as [|x path]; [reflexivity|].
  exfalso. apply Hab. apply (connected_only_loops (buildGraph topology)).
  - apply buildGraph_edges.
  - eapply path_along_edges; [exact E|discriminate].
Qed.

(** C1, where the code departs from it. [buildGraph] reads [sourceNodeId] and
    [targetNodeId] from each link, properties a [SimLink] does not have, so
    no edge of the graph joins two nodes of the topology. With any path
    function that only reports paths along edges of the graph, [simulate]
    fails fast with "No path exists between ..." and an empty trace for every
    two distinct nodes of the topology, linked or not. *)
Theorem C1_precheck_fails_for_linked_nodes
    (topology : SimTopology.t) (options : SimulationOptions.t) (ids : IdSupply.t)
    (packetSpec : PacketSpec.t) (srcNode dstNode : SimNode.t) (fuel : nat) :
  getNodeById (SimTopology.nodes topology) (PacketSpec.srcNodeId packetSpec) = Some srcNode ->
  getNodeById (SimTopology.nodes topology) (PacketSpec.dstNodeId packetSpec) = Some dstNode ->
  SimNode.id srcNode <> SimNode.id dstNode ->
  exists s',
    simulate graph_path fuel (Simulator.new topology options ids) packetSpec
    = Some (failure ("No path exists between " +:+ SimNode.label srcNode
                       +:+ " and " +:+ SimNode.label dstNode),
            s', 0).
Proof.
  intros Hsrc Hdst Hne. unfold simulate. cbv zeta.
  cbn [Simulator.topology Simulator.graph Simulator.set_run Simulator.new].
  rewrite Hsrc, Hdst, (isReachable_distinct topology _ _ Hne).
  cbn [negb]. eexists. reflexivity.
Qed.

End Precheck.

(** Two hosts joined by one link. *)
Definition c1_topology : SimTopology.t :=
  SimTopology.mk [demo_hostA; demo_hostB]
    [SimLink.mk "l1" (Endpoint.mk "A" "eth0") (Endpoint.mk "B" "eth0")].

Lemma C1_precheck_fails_for_linked_nodes_witness :
  same_component c1_topology "A" "B"
  /\ exists s',
       simulate (fun _ _ _ => None) 100
         (Simulator.new c1_topology DEFAULT_SIM_OPTIONS demo_ids) demo_spec
       = Some (failure "No path exists between Host A and Host B", s', 0).
Proof.
  split.
  - apply rtc_once. exists (SimLink.mk "l1" (Endpoint.mk "A" "eth0") (Endpoint.mk "B" "eth0")).
    split; [apply list_elem_of_In; left; reflexivity|]. left. split; reflexivity.
  - apply (C1_precheck_fails_for_linked_nodes (fun _ _ _ => None)
             ltac:(intros g x y path H; discriminate H)
             c1_topology DEFAULT_SIM_OPTIONS demo_ids demo_spec demo_hostA demo_hostB 100).
    + reflexivity.
    + reflexivity.
    + discriminate.
Defined.

(** Past the pre-check the same two hosts reach each other: the seeded packet
    is delivered. *)
Example linked_hosts_deliver_past_precheck :
  verdict (simulate_from_seed 100 (Simulator.new c1_topology DEFAULT_SIM_OPTIONS demo_ids)
             demo_spec demo_hostA demo_hostB)
  = Some (true, false, false, Some (TraceAction.deliver, "Packet delivered to Host B")).
Proof. vm_compute. reflexivity. Qed.

(** A path function that does search the graph it is given: the node itself,
    or an edge between the two nodes. On the graph [buildGraph] builds it finds
    nothing between the two linked hosts either. *)
Definition path_by_edge (g : Graph.t) (a b : string) : option (list string) :=
  if String.eqb a b then Some [a]
  else if existsb (fun e => String.eqb e.1 a && String.eqb e.2 b
                            || String.eqb e.1 b && String.eqb e.2 a)
            (Graph.edges g)
  then Some [a; b]
  else None.

Example precheck_fails_with_edge_search :
  Graph.edges (buildGraph c1_topology) = [("undefined", "undefined")]
  /\ verdict (simulate path_by_edge 100
                (Simulator.new c1_topology DEFAULT_SIM_OPTIONS demo_ids) demo_spec)
     = Some (false, false, false, None)
  /\ (fun x => SimulationResult.reason x.1.1)
       <$> simulate path_by_edge 100
             (Simulator.new c1_topology DEFAULT_SIM_OPTIONS demo_ids) demo_spec
     = Some "No path exists between Host A and Host B".
Proof. vm_compute. repeat split; reflexivity. Qed.

(** * Further properties of the simulator *)

(** ** The event queue *)

(** An event as [enqueue] stores it: stamped with the clock. *)
Definition stamp (time : Z) (ev : Event.t) : SimEvent.t :=
  SimEvent.mk (Event.packet ev) (Event.nodeId ev) (Event.interfaceId ev) time.

(** [n] calls of [dequeue] in a row: the events returned, oldest call first,
    and the queue left. A call that returns [undefined] contributes nothing. *)
Fixpoint drain (n : nat) (q : EventQueue.t) : list SimEvent.t * EventQueue.t :=
  match n with
  | O => ([], q)
  | S n' =>
      let r := drain n' (EventQueue.dequeue q).2 in
      (option_list (EventQueue.dequeue q).1 ++ r.1, r.2)
  end.

Lemma enqueue_all_stamped q evs :
  EventQueue.queue (foldl (fun q ev => EventQueue.enqueue ev q) q evs)
  = EventQueue.queue q ++ map (stamp (EventQueue.time q)) evs.
Proof.
  revert q. induction evs as [|ev evs IH]; intros q; cbn [foldl map].
  - symmetry. apply app_nil_r.
  - rewrite IH. cbn [EventQueue.enqueue EventQueue.queue EventQueue.time].
    rewrite <- app_assoc. reflexivity.
Qed.

Lemma drain_all q :
  drain (EventQueue.size q) q = (EventQueue.queue q, EventQueue.mk [] (EventQueue.time q)).
Proof.
  destruct q as [l t]. unfold EventQueue.size. cbn [EventQueue.queue EventQueue.time].
  induction l as [|e l IH]; [reflexivity|].
  cbn [length drain]. unfold EventQueue.dequeue at 1 2 3.
  cbn [EventQueue.queue EventQueue.time fst snd option_list]. rewrite IH. reflexivity.
Qed.

(** X1. The queue is first-in first-out. After any events are enqueued, as
    many calls of [dequeue] as the queue holds events return the events that
    were waiting followed by the new ones in the order of their [enqueue]
    calls, each new one stamped with the clock at that time; the queue is
    then empty, a further [dequeue] returns [undefined] and changes nothing,
    and neither [enqueue] nor [dequeue] moves the clock. *)
Theorem eventQueue_fifo (q : EventQueue.t) (evs : list Event.t) :
  let q' := foldl (fun q ev => EventQueue.enqueue ev q) q evs in
  let drained := drain (EventQueue.size q') q' in
  EventQueue.size q' = (EventQueue.size q + length evs)%nat
  /\ drained.1 = EventQueue.getAll q ++ map (stamp (EventQueue.getTime q)) evs
  /\ EventQueue.isEmpty drained.2 = true
  /\ EventQueue.peek drained.2 = None
  /\ EventQueue.dequeue drained.2 = (None, drained.2)
  /\ EventQueue.getTime drained.2 = EventQueue.getTime q.
Proof.
  intros q' drained. subst drained. rewrite drain_all. subst q'.
  unfold EventQueue.size, EventQueue.getAll, EventQueue.getTime.
  rewrite enqueue_all_stamped, enqueue_all_time.
  rewrite length_app, length_map. repeat split.
Qed.

(** ** Links and their endpoints *)

Definition at_endpoint (e : Endpoint.t) (nodeId interfaceId : string) : bool :=
  String.eqb (Endpoint.nodeId e) nodeId && String.eqb (Endpoint.interfaceId e) interfaceId.

Lemma at_endpoint_spec e n i : at_endpoint e n i = true <-> e = Endpoint.mk n i.
Proof.
  unfold at_endpoint. rewrite andb_true_iff, !String.eqb_eq. destruct e as [en ei].
  cbn [Endpoint.nodeId Endpoint.interfaceId]. split.
  - intros [-> ->]. reflexivity.
  - intros [= -> ->]. auto.
Qed.

Lemma getConnectedInterface_cons link rest n i :
  getConnectedInterface (link :: rest) n i =
    if at_endpoint (SimLink.source link) n i then Some (SimLink.target link)
    else if at_endpoint (SimLink.target link) n i then Some (SimLink.source link)
    else getConnectedInterface rest n i.
Proof. reflexivity. Qed.

(** The link has the endpoint at one of its two ends. *)
Definition has_end (link : SimLink.t) (e : Endpoint.t) : Prop :=
  SimLink.source link = e \/ SimLink.target link = e.

(** The endpoints of the links, in order. *)
Definition link_ends (links : list SimLink.t) : list Endpoint.t :=
  flat_map (fun link => [SimLink.source link; SimLink.target link]) links.

(** X2. [getConnectedInterface] answers from the first link of the list that
    has the endpoint at one of its ends: the answer is the other end of that
    link (its target when the endpoint is its source), and the answer is
    [null] exactly when no link has the endpoint. *)
Theorem getConnectedInterface_first_link (links : list SimLink.t) (n i : string) :
  match getConnectedInterface links n i with
  | Some c =>
      exists l1 link l2,
        links = l1 ++ link :: l2
        /\ (forall l', In l' l1 -> ~ has_end l' (Endpoint.mk n i))
        /\ ((SimLink.source link = Endpoint.mk n i /\ c = SimLink.target link)
            \/ (SimLink.source link <> Endpoint.mk n i
                /\ SimLink.target link = Endpoint.mk n i /\ c = SimLink.source link))
  | None => forall link, In link links -> ~ has_end link (Endpoint.mk n i)
  end.
Proof.
  induction links as [|link rest IH]; [intros link []|].
  rewrite getConnectedInterface_cons.
  destruct (at_endpoint (SimLink.source link) n i) eqn:Hs.
  { apply at_endpoint_spec in Hs. exists [], link, rest.
    split; [reflexivity|]. split; [intros l' []|]. left. auto. }
  assert (Hs' : SimLink.source link <> Endpoint.mk n i).
  { intros H. apply at_endpoint_spec in H. congruence. }
  destruct (at_endpoint (SimLink.target link) n i) eqn:Ht.
  { apply at_endpoint_spec in Ht. exists [], link, rest.
    split; [reflexivity|]. split; [intros l' []|]. right. auto. }
  assert (Ht' : SimLink.target link <> Endpoint.mk n i).
  { intros H. apply at_endpoint_spec in H. congruence. }
  destruct (getConnectedInterface rest n i) as [c|].
  - destruct IH as (l1 & l & l2 & -> & Hl1 & Hl).
    exists (link :: l1), l, l2. split; [reflexivity|]. split; [|exact Hl].
    intros l' [<-|Hin]; [intros [H|H]; contradiction|auto].
  - intros l' [<-|Hin]; [intros [H|H]; contradiction|auto].
Qed.

Lemma getConnectedInterface_in_ends links n i c :
  getConnectedInterface links n i = Some c ->
  In c (link_ends links) /\ In (Endpoint.mk n i) (link_ends links).
Proof.
  induction links as [|link rest IH]; [discriminate|].
  rewrite getConnectedInterface_cons. cbn [link_ends flat_map app].
  destruct (at_endpoint (SimLink.source link) n i) eqn:Hs.
  { apply at_endpoint_spec in Hs. intros [= <-]. rewrite Hs. cbn [In]. auto. }
  destruct (at_endpoint (SimLink.target link) n i) eqn:Ht.
  { apply at_endpoint_spec in Ht. intros [= <-]. rewrite Ht. cbn [In]. auto. }
  intros H. destruct (IH H) as [H1 H2]. cbn [In]. auto.
Qed.

(** X3. When every endpoint occurs at most once among the ends of the links
    (an interface is cabled at most once, and no link joins an interface to
    itself), the lookup is symmetric: the peer of the peer of an interface is
    that interface. *)
Theorem getConnectedInterface_symmetric (links : list SimLink.t) (n i : string)
    (c : Endpoint.t) :
  NoDup (link_ends links) ->
  getConnectedInterface links n i = Some c ->
  getConnectedInterface links (Endpoint.nodeId c) (Endpoint.interfaceId c)
  = Some (Endpoint.mk n i).
Proof.
  induction links as [|link rest IH]; [discriminate|].
  cbn [link_ends flat_map app]. fold (link_ends rest).
  intros Hnd. apply NoDup_cons in Hnd as [Hsrc Hnd].
  apply NoDup_cons in Hnd as [Htgt Hnd].
  rewrite !getConnectedInterface_cons.
  assert (Hc : forall e, at_endpoint e (Endpoint.nodeId c) (Endpoint.interfaceId c) = true
                         <-> e = c).
  { intros e. rewrite at_endpoint_spec. destruct c; reflexivity. }
  destruct (at_endpoint (SimLink.source link) n i) eqn:Hs.
  { apply at_endpoint_spec in Hs. intros [= <-].
    destruct (at_endpoint (SimLink.source link) (Endpoint.nodeId (SimLink.target link))
                (Endpoint.interfaceId (SimLink.target link))) eqn:E.
    - apply Hc in E. exfalso. apply Hsrc. rewrite E. left.
    - replace (at_endpoint (SimLink.target link) _ _) with true
        by (symmetry; apply Hc; reflexivity).
      rewrite Hs. reflexivity. }
  destruct (at_endpoint (SimLink.target link) n i) eqn:Ht.
  { apply at_endpoint_spec in Ht. intros [= <-].
    replace (at_endpoint (SimLink.source link) _ _) with true
      by (symmetry; apply Hc; reflexivity).
    rewrite Ht. reflexivity. }
  intros H. destruct (getConnectedInterface_in_ends _ _ _ _ H) as [Hin _].
  apply list_elem_of_In in Hin.
  destruct (at_endpoint (SimLink.source link) (Endpoint.nodeId c) (Endpoint.interfaceId c))
    eqn:E.
  { apply Hc in E. exfalso. apply Hsrc. rewrite E. right. exact Hin. }
  destruct (at_endpoint (SimLink.target link) (Endpoint.nodeId c) (Endpoint.interfaceId c))
    eqn:E'.
  { apply Hc in E'. exfalso. apply Htgt. rewrite E'. exact Hin. }
  apply IH; assumption.
Qed.


(** ** What a device reports of one call *)

(** The hop carries the time of the call and the identity of the device. *)
Definition hop_of (d : Device.t) (time : Z) (h : TraceHop.t) : Prop :=
  TraceHop.time h = time /\ TraceHop.nodeId h = Device.id d
  /\ TraceHop.nodeLabel h = Device.label d.

Definition is_deliver (h : TraceHop.t) : bool :=
  TraceAction.eqb (TraceHop.action h) TraceAction.deliver.

(** Every hop is stamped, there is at least one, the flag [delivered] tells
    whether a [deliver] hop was recorded, and a delivered packet goes no
    further. *)
Definition well_reported (d : Device.t) (time : Z) (r : DeviceProcessResult.t) : Prop :=
  Forall (hop_of d time) (DeviceProcessResult.trace r)
  /\ DeviceProcessResult.trace r <> []
  /\ DeviceProcessResult.delivered r = existsb is_deliver (DeviceProcessResult.trace r)
  /\ (DeviceProcessResult.delivered r = true -> DeviceProcessResult.events r = []).

Ltac report :=
  solve [unfold well_reported;
         cbn [DeviceProcessResult.trace DeviceProcessResult.delivered
              DeviceProcessResult.events result];
         repeat split; try discriminate; repeat constructor].

Lemma host_reported d interfaceId packet time :
  well_reported d time (Host.processPacket d interfaceId packet time).
Proof.
  unfold Host.processPacket.
  destruct (Device.getInterface d interfaceId);
    [destruct (Device.isPacketForThisDevice d packet interfaceId)|]; report.
Qed.

Lemma cloud_reported d interfaceId packet time :
  well_reported d time (Cloud.processPacket d interfaceId packet time).
Proof.
  unfold Cloud.processPacket. destruct (Device.getInterface d interfaceId); report.
Qed.

(** The hops a part of a call pushes: stamped, and none of them a delivery. *)
Definition plain_hops (d : Device.t) (time : Z) (tr : list TraceHop.t) : Prop :=
  Forall (hop_of d time) tr /\ existsb is_deliver tr = false.

Lemma plain_hops_app d time tr1 tr2 :
  plain_hops d time tr1 -> plain_hops d time tr2 -> plain_hops d time (tr1 ++ tr2).
Proof.
  intros [F1 E1] [F2 E2]. split; [apply Forall_app; auto|].
  rewrite existsb_app, E1, E2. reflexivity.
Qed.

Ltac plain := solve [unfold plain_hops; repeat split; repeat constructor].

Lemma learnMacAddress_hops d ids mac interfaceId vlan time (table : MacTable) :
  plain_hops d time (Switch.learnMacAddress d ids mac interfaceId vlan time table).1.2.
Proof.
  unfold Switch.learnMacAddress.
  destruct (match table !! macTableKey mac vlan with
            | Some e => negb (String.eqb (MacTableEntry.interfaceId e) interfaceId)
            | None => true
            end); plain.
Qed.

Lemma switch_egress_hops d packet interfaceId vlan links time isBroadcast dstEntry :
  plain_hops d time
    (Switch.egress d packet interfaceId vlan links time isBroadcast dstEntry).2.
Proof.
  unfold Switch.egress, Switch.forwardToKnownPort, Switch.floodPacket.
  destruct (negb isBroadcast), dstEntry as [entry|]; try plain.
  destruct (Device.getInterface d (MacTableEntry.interfaceId entry)) as [e|]; [|plain].
  destruct (String.eqb (SimInterface.id e) interfaceId); [plain|].
  destruct (Switch.canEgressOnInterface e vlan); [|plain].
  destruct (Device.findConnectedInterface d links (SimInterface.id e)); plain.
Qed.

Lemma switch_reported d macLearning ids interfaceId packet links time table :
  well_reported d time
    (Switch.processPacket d macLearning ids interfaceId packet links time table).1.1
  /\ DeviceProcessResult.delivered
       (Switch.processPacket d macLearning ids interfaceId packet links time table).1.1
     = false.
Proof.
  unfold Switch.processPacket.
  destruct (Device.getInterface d interfaceId) as [iface|]; [|split; [report|reflexivity]].
  destruct (Switch.resolveVlan packet iface) as [vlan|]; [|split; [report|reflexivity]].
  cbv zeta. cbn [fst snd]. split; [|reflexivity].
  match goal with
  | |- well_reported _ _ (result _ (?l ++ ?r ++ ?o) _) =>
      assert (Hp : plain_hops d time (l ++ r ++ o))
  end.
  { apply plain_hops_app; [|apply plain_hops_app; [plain|apply switch_egress_hops]].
    unfold Switch.learning. destruct macLearning, table as [table|]; try plain.
    apply learnMacAddress_hops. }
  destruct Hp as [Hf He].
  unfold well_reported.
  cbn [DeviceProcessResult.trace DeviceProcessResult.delivered DeviceProcessResult.events
       result].
  split; [exact Hf|]. split; [|split; [symmetry; exact He|discriminate]].
  intros H. apply app_eq_nil in H as [_ H]. discriminate H.
Qed.

(** The interface [forwardPacket] of the firewall looks for: not the ingress,
    and with a peer on its link. *)
Definition linked_out (d : Device.t) (ingressId : string) (links : list SimLink.t)
    (e : SimInterface.t) : bool :=
  negb (String.eqb (SimInterface.id e) ingressId)
  && match getConnectedInterface links (Device.id d) (SimInterface.id e) with
     | Some _ => true
     | None => false
     end.

Definition forward_hop (d : Device.t) (time : Z) (packet : Packet.t)
    (e : SimInterface.t) : TraceHop.t :=
  Device.createTraceHop d time (SimInterface.id e) TraceAction.forward
    ("Forwarding via " +:+ SimInterface.id e)
    (Packet.with_srcMac (SimInterface.mac e) packet).

Lemma forwardPacket_loop_find d ifaces packet ingressId links time :
  Firewall.forwardPacket_loop d ifaces packet ingressId links time =
    match find (linked_out d ingressId links) ifaces with
    | Some e =>
        match getConnectedInterface links (Device.id d) (SimInterface.id e) with
        | Some c => Some (direct_event packet e c, forward_hop d time packet e)
        | None => None
        end
    | None => None
    end.
Proof.
  induction ifaces as [|e rest IH]; cbn [Firewall.forwardPacket_loop find]; [reflexivity|].
  unfold linked_out at 1. unfold Device.findConnectedInterface.
  destruct (String.eqb (SimInterface.id e) ingressId); cbn [negb andb]; [exact IH|].
  destruct (getConnectedInterface links (Device.id d) (SimInterface.id e)) as [c|] eqn:Hc;
    [|exact IH].
  rewrite Hc. reflexivity.
Qed.

(** The two lookups of the router, as the hop and the event they build. *)
Lemma findDirectRoute_shape d dstIp ingressId links routedPacket time ev h :
  Router.findDirectRoute d dstIp ingressId links routedPacket time = Some (ev, h) ->
  exists e c,
    In e (Device.interfaces d) /\ SimInterface.id e <> ingressId
    /\ getConnectedInterface links (Device.id d) (SimInterface.id e) = Some c
    /\ ev = direct_event routedPacket e c
    /\ h = direct_hop d time routedPacket e.
Proof.
  unfold Router.findDirectRoute. rewrite findDirectRoute_loop_find.
  destruct (find _ (Device.interfaces d)) as [e|] eqn:F; [|discriminate].
  apply find_some in F as [Hin He]. apply eligibleb_spec in He as [Hne _].
  destruct (getConnectedInterface links (Device.id d) (SimInterface.id e)) as [c|] eqn:Hc;
    [|discriminate].
  intros [= <- <-]. exists e, c. auto.
Qed.

Lemma findStaticRoute_shape d staticRoutes dstIp links routedPacket time ev h :
  Router.findStaticRoute d staticRoutes dstIp links routedPacket time = Some (ev, h) ->
  exists route e c,
    findBestRoute (Some staticRoutes) dstIp = Some route
    /\ Device.getInterface d (StaticRoute.outInterface route) = Some e
    /\ In e (Device.interfaces d)
    /\ getConnectedInterface links (Device.id d) (SimInterface.id e) = Some c
    /\ ev = direct_event routedPacket e c
    /\ hop_of d time h /\ TraceHop.action h = TraceAction.route.
Proof.
  unfold Router.findStaticRoute.
  destruct (findBestRoute (Some staticRoutes) dstIp) as [route|]; [|discriminate].
  destruct (Device.getInterface d (StaticRoute.outInterface route)) as [e|] eqn:He;
    [|discriminate].
  unfold Device.findConnectedInterface.
  destruct (getConnectedInterface links (Device.id d) (SimInterface.id e)) as [c|] eqn:Hc;
    [|discriminate].
  intros [= <- <-]. exists route, e, c. split; [reflexivity|]. split; [exact He|].
  split; [apply (find_some _ _ He)|]. split; [exact Hc|]. split; [reflexivity|].
  split; [repeat split|reflexivity].
Qed.

Lemma router_reported d staticRoutes interfaceId packet links time :
  well_reported d time (Router.processPacket d staticRoutes interfaceId packet links time).
Proof.
  unfold Router.processPacket.
  destruct (Device.getInterface d interfaceId); [|report].
  destruct (Router.isPacketForRouter d packet); [report|].
  destruct (Packet.ttl packet <=? 1); [report|]. cbv zeta.
  destruct (negb (JS.truthy (Packet.dstIp packet))); [report|].
  destruct (Router.findDirectRoute _ _ _ _ _ _) as [[ev h]|] eqn:Hd.
  { apply findDirectRoute_shape in Hd as (e & c & _ & _ & _ & _ & ->). report. }
  destruct (Router.findStaticRoute _ _ _ _ _ _) as [[ev h]|] eqn:Hs; [|report].
  apply findStaticRoute_shape in Hs as (route & e & c & _ & _ & _ & _ & _ & Hh & Ha).
  unfold well_reported.
  cbn [DeviceProcessResult.trace DeviceProcessResult.delivered DeviceProcessResult.events
       result existsb].
  unfold is_deliver at 2. rewrite Ha.
  split; [|split; [discriminate|split; [reflexivity|discriminate]]].
  constructor; [repeat split|]. constructor; [exact Hh|constructor].
Qed.

Lemma firewall_reported d aclRules defaultPolicy interfaceId packet links time :
  well_reported d time
    (Firewall.processPacket d aclRules defaultPolicy interfaceId packet links time).
Proof.
  unfold Firewall.processPacket.
  destruct (Device.getInterface d interfaceId); [|report]. cbv zeta.
  destruct (Firewall.isPacketForFirewall d packet); [report|].
  destruct (AclMatch.action _); [|report].
  unfold Firewall.forwardPacket. rewrite forwardPacket_loop_find.
  destruct (find _ (Device.interfaces d)) as [e|]; [|report].
  destruct (getConnectedInterface links (Device.id d) (SimInterface.id e)); report.
Qed.

Lemma processPacket_reported d ids interfaceId packet links time table :
  well_reported d time (processPacket d ids interfaceId packet links time table).1.1.
Proof.
  unfold processPacket. destruct (Device.class d); cbn [fst].
  - apply host_reported.
  - apply cloud_reported.
  - apply switch_reported.
  - apply router_reported.
  - apply firewall_reported.
Qed.

(** X4. Whatever the class of the device, every hop one call of
    [processPacket] records carries the time passed to the call and the id and
    label of the device, and the call records at least one hop. *)
Theorem device_hops_stamped (d : Device.t) (ids : IdSupply.t) (interfaceId : string)
    (packet : Packet.t) (links : list SimLink.t) (time : Z) (table : option MacTable) :
  let r := (processPacket d ids interfaceId packet links time table).1.1 in
  DeviceProcessResult.trace r <> []
  /\ forall h, In h (DeviceProcessResult.trace r) ->
       TraceHop.time h = time /\ TraceHop.nodeId h = Device.getId d
       /\ TraceHop.nodeLabel h = Device.getLabel d.
Proof.
  intros r.
  destruct (processPacket_reported d ids interfaceId packet links time table)
    as (Hf & Hne & _). split; [exact Hne|].
  intros h Hh. rewrite Forall_forall in Hf. apply Hf, list_elem_of_In. exact Hh.
Qed.

(** X5. Whatever the class of the device, the flag [delivered] of a call is
    set exactly when the call records a [deliver] hop; a call that delivers
    emits no event; and a switch never delivers. *)
Theorem device_delivered_iff_deliver_hop (d : Device.t) (ids : IdSupply.t)
    (interfaceId : string) (packet : Packet.t) (links : list SimLink.t) (time : Z)
    (table : option MacTable) :
  let r := (processPacket d ids interfaceId packet links time table).1.1 in
  (DeviceProcessResult.delivered r = true
   <-> exists h, In h (DeviceProcessResult.trace r)
                 /\ TraceHop.action h = TraceAction.deliver)
  /\ (DeviceProcessResult.delivered r = true -> DeviceProcessResult.events r = [])
  /\ (forall macLearning vlanDatabase,
        Device.class d = SwitchDevice macLearning vlanDatabase ->
        DeviceProcessResult.delivered r = false).
Proof.
  intros r.
  destruct (processPacket_reported d ids interfaceId packet links time table)
    as (_ & _ & Hd & He). fold r in Hd, He.
  split; [|split; [exact He|]].
  - rewrite Hd, existsb_exists. unfold is_deliver. split.
    + intros (h & Hin & Ha). exists h. split; [exact Hin|].
      destruct (TraceHop.action h); try discriminate. reflexivity.
    + intros (h & Hin & Ha). exists h. split; [exact Hin|]. rewrite Ha. reflexivity.
  - intros macLearning vlanDatabase Hc. subst r. unfold processPacket. rewrite Hc.
    apply switch_reported.
Qed.

(** ** What a device does to the packet it passes on *)

(** The fields no device rewrites. *)
Definition same_flow (p q : Packet.t) : Prop :=
  Packet.id p = Packet.id q /\ Packet.dstMac p = Packet.dstMac q
  /\ Packet.srcIp p = Packet.srcIp q /\ Packet.dstIp p = Packet.dstIp q
  /\ Packet.proto p = Packet.proto q /\ Packet.srcPort p = Packet.srcPort q
  /\ Packet.dstPort p = Packet.dstPort q /\ Packet.payload p = Packet.payload q.

Lemma switch_events_shape d macLearning ids interfaceId packet links time table ev :
  In ev (DeviceProcessResult.events
           (Switch.processPacket d macLearning ids interfaceId packet links time table).1.1) ->
  exists iface vlan e,
    Device.getInterface d interfaceId = Some iface
    /\ Switch.resolveVlan packet iface = Some vlan
    /\ In e (Device.interfaces d)
    /\ leaves_through (Device.id d) links interfaceId vlan
         (Packet.with_vlan (Some vlan) packet) ev e.
Proof.
  intros Hev.
  destruct (Device.getInterface d interfaceId) as [iface|] eqn:Hi.
  2:{ unfold Switch.processPacket in Hev. rewrite Hi in Hev. destruct Hev. }
  destruct (Switch.resolveVlan packet iface) as [vlan|] eqn:Hv.
  2:{ unfold Switch.processPacket in Hev. rewrite Hi, Hv in Hev. destruct Hev. }
  destruct (switch_process_events _ _ _ _ _ _ _ _ _ _ _ Hi Hv Hev) as (e & Hin & Hl).
  exists iface, vlan, e. auto.
Qed.

Lemma router_events d staticRoutes interfaceId packet links time ev :
  In ev (DeviceProcessResult.events
           (Router.processPacket d staticRoutes interfaceId packet links time)) ->
  1 < Packet.ttl packet
  /\ Router.isPacketForRouter d packet = false
  /\ exists e c,
       In e (Device.interfaces d)
       /\ getConnectedInterface links (Device.id d) (SimInterface.id e) = Some c
       /\ ev = direct_event (Packet.with_ttl (Packet.ttl packet - 1) packet) e c.
Proof.
  unfold Router.processPacket.
  destruct (Device.getInterface d interfaceId); [|intros []].
  destruct (Router.isPacketForRouter d packet); [intros []|].
  destruct (Packet.ttl packet <=? 1) eqn:Httl; [intros []|]. apply Z.leb_gt in Httl.
  cbv zeta. destruct (negb (JS.truthy (Packet.dstIp packet))); [intros []|].
  destruct (Router.findDirectRoute _ _ _ _ _ _) as [[ev' h]|] eqn:Hd.
  { apply findDirectRoute_shape in Hd as (e & c & Hin & _ & Hc & -> & _).
    intros [<-|[]]. split; [lia|]. split; [reflexivity|]. exists e, c. auto. }
  destruct (Router.findStaticRoute _ _ _ _ _ _) as [[ev' h]|] eqn:Hs; [|intros []].
  apply findStaticRoute_shape in Hs as (route & e & c & _ & _ & Hin & Hc & -> & _).
  intros [<-|[]]. split; [lia|]. split; [reflexivity|]. exists e, c. auto.
Qed.

Lemma firewall_events d aclRules defaultPolicy interfaceId packet links time ev :
  In ev (DeviceProcessResult.events
           (Firewall.processPacket d aclRules defaultPolicy interfaceId packet links time)) ->
  Firewall.isPacketForFirewall d packet = false
  /\ AclMatch.action (Firewall.matchAclRules aclRules defaultPolicy packet) = allow
  /\ exists e c,
       In e (Device.interfaces d) /\ SimInterface.id e <> interfaceId
       /\ getConnectedInterface links (Device.id d) (SimInterface.id e) = Some c
       /\ ev = direct_event packet e c.
Proof.
  unfold Firewall.processPacket.
  destruct (Device.getInterface d interfaceId); [|intros []]. cbv zeta.
  destruct (Firewall.isPacketForFirewall d packet); [intros []|].
  destruct (AclMatch.action _); [|intros []].
  unfold Firewall.forwardPacket. rewrite forwardPacket_loop_find.
  destruct (find _ (Device.interfaces d)) as [e|] eqn:F; [|intros []].
  apply find_some in F as [Hin He]. unfold linked_out in He.
  apply andb_true_iff in He as [Hne _]. apply negb_true_iff, String.eqb_neq in Hne.
  destruct (getConnectedInterface links (Device.id d) (SimInterface.id e)) as [c|] eqn:Hc;
    [|intros []].
  intros [<-|[]]. split; [reflexivity|]. split; [reflexivity|]. exists e, c. auto.
Qed.

(** X6. Whatever the class of the device, a packet it passes on keeps the
    identifier, the destination MAC, both IP addresses, the protocol, both
    ports and the payload of the packet it received. *)
Theorem device_events_keep_flow (d : Device.t) (ids : IdSupply.t) (interfaceId : string)
    (packet : Packet.t) (links : list SimLink.t) (time : Z) (table : option MacTable)
    (ev : Event.t) :
  In ev (DeviceProcessResult.events
           (processPacket d ids interfaceId packet links time table).1.1) ->
  same_flow (Event.packet ev) packet.
Proof.
  unfold processPacket.
  destruct (Device.class d) as [| |macLearning vlanDatabase|staticRoutes|aclRules policy];
    cbn [fst].
  - unfold Host.processPacket.
    destruct (Device.getInterface d interfaceId);
      [destruct (Device.isPacketForThisDevice d packet interfaceId)|]; intros [].
  - unfold Cloud.processPacket. destruct (Device.getInterface d interfaceId); intros [].
  - intros Hev. apply switch_events_shape in Hev
      as (iface & vlan & e & _ & _ & _ & _ & _ & _ & ->).
    unfold Switch.prepareEgressPacket.
    destruct (SimInterface.portMode e) as [[|]|]; repeat split.
  - intros Hev. apply router_events in Hev as (_ & _ & e & c & _ & _ & ->). repeat split.
  - intros Hev. apply firewall_events in Hev as (_ & _ & e & c & _ & _ & _ & ->).
    repeat split.
Qed.

(** X7. What each class rewrites in a packet it passes on. Hosts and clouds
    pass nothing on. A switch leaves the source MAC and the TTL. A router
    leaves the VLAN tag, lowers the TTL by exactly one to a value of at least
    1, and writes the MAC of one of its own interfaces as source MAC. A
    firewall leaves the VLAN tag and the TTL and writes the MAC of one of its
    own interfaces, not the ingress, as source MAC. *)
Theorem device_rewrites_by_class (d : Device.t) (ids : IdSupply.t) (interfaceId : string)
    (packet : Packet.t) (links : list SimLink.t) (time : Z) (table : option MacTable)
    (ev : Event.t) :
  In ev (DeviceProcessResult.events
           (processPacket d ids interfaceId packet links time table).1.1) ->
  let out := Event.packet ev in
  match Device.class d with
  | HostDevice | CloudDevice => False
  | SwitchDevice _ _ =>
      Packet.srcMac out = Packet.srcMac packet /\ Packet.ttl out = Packet.ttl packet
  | RouterDevice _ =>
      Packet.vlan out = Packet.vlan packet
      /\ Packet.ttl out = Packet.ttl packet - 1 /\ 1 <= Packet.ttl out
      /\ exists e, In e (Device.interfaces d) /\ Packet.srcMac out = SimInterface.mac e
  | FirewallDevice _ _ =>
      Packet.vlan out = Packet.vlan packet /\ Packet.ttl out = Packet.ttl packet
      /\ exists e, In e (Device.interfaces d) /\ SimInterface.id e <> interfaceId
                   /\ Packet.srcMac out = SimInterface.mac e
  end.
Proof.
  unfold processPacket.
  destruct (Device.class d) as [| |macLearning vlanDatabase|staticRoutes|aclRules policy];
    cbn [fst]; cbv zeta.
  - unfold Host.processPacket.
    destruct (Device.getInterface d interfaceId);
      [destruct (Device.isPacketForThisDevice d packet interfaceId)|]; intros [].
  - unfold Cloud.processPacket. destruct (Device.getInterface d interfaceId); intros [].
  - intros Hev. apply switch_events_shape in Hev
      as (iface & vlan & e & _ & _ & _ & _ & _ & _ & ->).
    unfold Switch.prepareEgressPacket.
    destruct (SimInterface.portMode e) as [[|]|]; split; reflexivity.
  - intros Hev. apply router_events in Hev as (Httl & _ & e & c & Hin & _ & ->).
    cbn [direct_event Event.packet Packet.with_srcMac Packet.with_ttl Packet.vlan
         Packet.ttl Packet.srcMac].
    split; [reflexivity|]. split; [reflexivity|]. split; [lia|]. exists e. auto.
  - intros Hev. apply firewall_events in Hev as (_ & _ & e & c & Hin & Hne & _ & ->).
    cbn [direct_event Event.packet Packet.with_srcMac Packet.vlan Packet.ttl Packet.srcMac].
    split; [reflexivity|]. split; [reflexivity|]. exists e. auto.
Qed.

(** ** Switch: tagging, flooding, known destinations, the table *)

Lemma or_one_nonzero x : JS.or_one x <> 0.
Proof.
  unfold JS.or_one. destruct x as [v|]; [|discriminate].
  destruct (v =? 0) eqn:E; [discriminate|]. apply Z.eqb_neq. exact E.
Qed.

Lemma resolveVlan_nonzero packet iface vlan :
  Switch.resolveVlan packet iface = Some vlan -> vlan <> 0.
Proof.
  unfold Switch.resolveVlan.
  destruct (SimInterface.portMode iface) as [[|]|];
    [| destruct (SimInterface.allowedVlans iface) as [allowed|];
       [destruct (negb _); [discriminate|]|] |];
    intros H; injection H as <-;
    first [ apply or_one_nonzero
          | exact (or_one_nonzero (Some (JS.or_one (SimInterface.vlan iface))))
          | exact (or_one_nonzero (Some (JS.or_one (Packet.vlan packet)))) ].
Qed.

(** The tag a packet of VLAN [vlan] carries when it leaves through [e]. *)
Definition egress_tag (e : SimInterface.t) (vlan : Z) : option Z :=
  match SimInterface.portMode e with
  | Some access => None
  | _ => Some vlan
  end.

Lemma prepareEgressPacket_tag packet e vlan :
  Switch.prepareEgressPacket (Packet.with_vlan (Some vlan) packet) e
  = Packet.with_vlan (egress_tag e vlan) packet.
Proof.
  unfold Switch.prepareEgressPacket, egress_tag.
  destruct (SimInterface.portMode e) as [[|]|]; reflexivity.
Qed.

(** X8. Every packet a switch passes on left through an interface other than
    the ingress, towards the peer of that interface, and differs from the
    packet received in the VLAN tag only: the tag is removed on an access
    port and is the effective VLAN of the ingress on any other port. The
    effective VLAN is never 0. *)
Theorem switch_egress_tagging (d : Device.t) (macLearning : bool) (ids : IdSupply.t)
    (interfaceId : string) (packet : Packet.t) (links : list SimLink.t) (time : Z)
    (table : option MacTable) (ev : Event.t) :
  In ev (DeviceProcessResult.events
           (Switch.processPacket d macLearning ids interfaceId packet links time table).1.1) ->
  exists iface vlan e,
    Device.getInterface d interfaceId = Some iface
    /\ Switch.resolveVlan packet iface = Some vlan /\ vlan <> 0
    /\ In e (Device.interfaces d) /\ SimInterface.id e <> interfaceId
    /\ getConnectedInterface links (Device.id d) (SimInterface.id e)
       = Some (Endpoint.mk (Event.nodeId ev) (Event.interfaceId ev))
    /\ Event.packet ev
       = Packet.with_vlan
           (match SimInterface.portMode e with
            | Some access => None
            | _ => Some vlan
            end) packet.
Proof.
  intros Hev. apply switch_events_shape in Hev
    as (iface & vlan & e & Hi & Hv & Hin & Hne & _ & Hp & Hpk).
  exists iface, vlan, e. split; [exact Hi|]. split; [exact Hv|].
  split; [exact (resolveVlan_nonzero _ _ _ Hv)|]. split; [exact Hin|].
  split; [exact Hne|]. split; [exact Hp|].
  rewrite Hpk. apply prepareEgressPacket_tag.
Qed.

Lemma switch_flood_loop_complete d ifaces packet ingressId vlan links e c :
  In e ifaces -> SimInterface.id e <> ingressId ->
  Switch.canEgressOnInterface e vlan = true ->
  getConnectedInterface links (Device.id d) (SimInterface.id e) = Some c ->
  In (Event.mk (Switch.prepareEgressPacket packet e) (Endpoint.nodeId c)
        (Endpoint.interfaceId c))
     (Switch.flood_loop d ifaces packet ingressId vlan links).
Proof.
  intros Hin Hne Hc Hp. induction ifaces as [|x rest IH]; [destruct Hin|].
  cbn [Switch.flood_loop]. destruct Hin as [->|Hin].
  - apply String.eqb_neq in Hne. rewrite Hne, Hc.
    unfold Device.findConnectedInterface. rewrite Hp. left. reflexivity.
  - specialize (IH Hin).
    destruct (String.eqb (SimInterface.id x) ingressId); [exact IH|].
    destruct (Switch.canEgressOnInterface x vlan); [|exact IH].
    destruct (Device.findConnectedInterface d links (SimInterface.id x)); [right|];
      exact IH.
Qed.

(** The table entry [processPacket] of a switch consults for the destination:
    the entry of the table as the call leaves it. *)
Definition known_port (out : DeviceProcessResult.t * option MacTable * IdSupply.t)
    (dstMac : string) (vlan : Z) : option MacTableEntry.t :=
  out.1.2 ≫= (fun table : MacTable => table !! macTableKey dstMac vlan).

Lemma switch_process_unfold d macLearning ids interfaceId packet links time table
    iface vlan :
  Device.getInterface d interfaceId = Some iface ->
  Switch.resolveVlan packet iface = Some vlan ->
  let out := Switch.processPacket d macLearning ids interfaceId packet links time table in
  let learned := Switch.learning d macLearning ids interfaceId packet vlan time table in
  let isBroadcast :=
    isBroadcastMac (Packet.dstMac packet) || isMulticastMac (Packet.dstMac packet) in
  let sent :=
    Switch.egress d (Packet.with_vlan (Some vlan) packet) interfaceId vlan links time
      isBroadcast (known_port out (Packet.dstMac packet) vlan) in
  out.1.2 = learned.1.1 /\ out.2 = learned.2
  /\ DeviceProcessResult.events out.1.1 = sent.1
  /\ DeviceProcessResult.trace out.1.1
     = learned.1.2
       ++ [Device.createTraceHop d time interfaceId TraceAction.receive
             ("Packet received on " +:+ interfaceId) (Packet.with_vlan (Some vlan) packet)]
       ++ sent.2.
Proof.
  intros Hi Hv. unfold known_port, Switch.processPacket. rewrite Hi, Hv.
  cbv zeta. cbn [fst snd DeviceProcessResult.events DeviceProcessResult.trace result].
  repeat split.
Qed.

(** X9. A frame for the broadcast address, a multicast address or a
    destination the table does not know in the effective VLAN is flooded: the
    switch records a [flood] hop and sends the frame to the peer of every
    interface other than the ingress that admits the VLAN and has a link, with
    the tag that interface calls for. *)
Theorem switch_flood_reaches_every_port (d : Device.t) (macLearning : bool)
    (ids : IdSupply.t) (interfaceId : string) (packet : Packet.t)
    (links : list SimLink.t) (time : Z) (table : option MacTable)
    (iface : SimInterface.t) (vlan : Z) :
  Device.getInterface d interfaceId = Some iface ->
  Switch.resolveVlan packet iface = Some vlan ->
  let out := Switch.processPacket d macLearning ids interfaceId packet links time table in
  isBroadcastMac (Packet.dstMac packet) || isMulticastMac (Packet.dstMac packet) = true
  \/ known_port out (Packet.dstMac packet) vlan = None ->
  (exists h, In h (DeviceProcessResult.trace out.1.1)
             /\ TraceHop.action h = TraceAction.flood)
  /\ forall e c,
       In e (Device.interfaces d) -> SimInterface.id e <> interfaceId ->
       admissible e vlan ->
       getConnectedInterface links (Device.id d) (SimInterface.id e) = Some c ->
       In (Event.mk (Packet.with_vlan (egress_tag e vlan) packet)
             (Endpoint.nodeId c) (Endpoint.interfaceId c))
          (DeviceProcessResult.events out.1.1).
Proof.
  intros Hi Hv out Hflood.
  destruct (switch_process_unfold d macLearning ids interfaceId packet links time table
              iface vlan Hi Hv) as (_ & _ & Hev & Htr).
  fold out in Hev, Htr. rewrite Hev, Htr.
  assert (E : Switch.egress d (Packet.with_vlan (Some vlan) packet) interfaceId vlan links
                time
                (isBroadcastMac (Packet.dstMac packet) || isMulticastMac (Packet.dstMac packet))
                (known_port out (Packet.dstMac packet) vlan)
              = Switch.floodPacket d (Packet.with_vlan (Some vlan) packet) interfaceId vlan
                  links time
                  (isBroadcastMac (Packet.dstMac packet)
                   || isMulticastMac (Packet.dstMac packet))).
  { unfold Switch.egress. destruct Hflood as [->| ->]; [reflexivity|].
    destruct (negb _); reflexivity. }
  rewrite E. unfold Switch.floodPacket. cbn [fst snd]. split.
  - eexists. split; [apply in_or_app; right; right; left; reflexivity|reflexivity].
  - intros e c Hin Hne Ha Hp. rewrite <- prepareEgressPacket_tag.
    apply switch_flood_loop_complete; try assumption.
    apply canEgress_admissible. exact Ha.
Qed.

(** X10. A frame for a unicast destination the table knows in the effective
    VLAN is not flooded: at most one event is emitted, it goes to the peer of
    the interface the table names, and no [flood] hop is recorded. When the
    table names the ingress interface itself the frame is discarded without
    any event and without a [drop] hop. *)
Theorem switch_unicast_known (d : Device.t) (macLearning : bool) (ids : IdSupply.t)
    (interfaceId : string) (packet : Packet.t) (links : list SimLink.t) (time : Z)
    (table : option MacTable) (iface : SimInterface.t) (vlan : Z)
    (entry : MacTableEntry.t) :
  Device.getInterface d interfaceId = Some iface ->
  Switch.resolveVlan packet iface = Some vlan ->
  let out := Switch.processPacket d macLearning ids interfaceId packet links time table in
  isBroadcastMac (Packet.dstMac packet) || isMulticastMac (Packet.dstMac packet) = false ->
  known_port out (Packet.dstMac packet) vlan = Some entry ->
  (length (DeviceProcessResult.events out.1.1) <= 1)%nat
  /\ (forall ev, In ev (DeviceProcessResult.events out.1.1) ->
        exists e, Device.getInterface d (MacTableEntry.interfaceId entry) = Some e
                  /\ getConnectedInterface links (Device.id d) (SimInterface.id e)
                     = Some (Endpoint.mk (Event.nodeId ev) (Event.interfaceId ev)))
  /\ (forall h, In h (DeviceProcessResult.trace out.1.1) ->
        TraceHop.action h <> TraceAction.flood)
  /\ (MacTableEntry.interfaceId entry = interfaceId ->
      DeviceProcessResult.events out.1.1 = []
      /\ forall h, In h (DeviceProcessResult.trace out.1.1) ->
           TraceHop.action h <> TraceAction.drop
           /\ TraceHop.action h <> TraceAction.forward).
Proof.
  intros Hi Hv out Hb Hk.
  destruct (switch_process_unfold d macLearning ids interfaceId packet links time table
              iface vlan Hi Hv) as (_ & _ & Hev & Htr).
  fold out in Hev, Htr. rewrite Hev, Htr, Hb, Hk. clear Hev Htr.
  unfold Switch.egress. cbn [negb].
  assert (Hlearn : forall h,
             In h (Switch.learning d macLearning ids interfaceId packet vlan time table).1.2 ->
             TraceHop.action h = TraceAction.learn).
  { unfold Switch.learning, Switch.learnMacAddress.
    destruct macLearning, table as [tb|]; cbn [fst snd]; try (intros h []).
    destruct (match tb !! macTableKey (Packet.srcMac packet) vlan with
              | Some e => negb (String.eqb (MacTableEntry.interfaceId e) interfaceId)
              | None => true
              end); cbn [fst snd]; [|intros h []].
    intros h [<-|[]]. reflexivity. }
  pose proof (forwardToKnownPort_actions d (MacTableEntry.interfaceId entry)
                (Packet.with_vlan (Some vlan) packet) interfaceId vlan links time) as Hfw.
  rewrite Forall_forall in Hfw.
  assert (Htrace : forall h,
            In h ((Switch.learning d macLearning ids interfaceId packet vlan time table).1.2
                  ++ [Device.createTraceHop d time interfaceId TraceAction.receive
                        ("Packet received on " +:+ interfaceId)
                        (Packet.with_vlan (Some vlan) packet)]
                  ++ (Switch.forwardToKnownPort d (MacTableEntry.interfaceId entry)
                        (Packet.with_vlan (Some vlan) packet) interfaceId vlan links time).2) ->
            TraceHop.action h = TraceAction.learn
            \/ TraceHop.action h = TraceAction.receive
            \/ (TraceHop.action h = TraceAction.forward
                /\ In h (Switch.forwardToKnownPort d (MacTableEntry.interfaceId entry)
                           (Packet.with_vlan (Some vlan) packet) interfaceId vlan links
                           time).2)).
  { intros h Hh. apply in_app_or in Hh as [Hh|[<-|Hh]]; [auto|auto|].
    right. right. split; [|exact Hh]. apply Hfw, list_elem_of_In. exact Hh. }
  split; [|split; [|split]].
  - unfold Switch.forwardToKnownPort.
    destruct (Device.getInterface d (MacTableEntry.interfaceId entry)) as [e|];
      [|cbn; lia].
    destruct (String.eqb (SimInterface.id e) interfaceId); [cbn; lia|].
    destruct (Switch.canEgressOnInterface e vlan); [|cbn; lia].
    destruct (Device.findConnectedInterface d links (SimInterface.id e)); cbn; lia.
  - intros ev. unfold Switch.forwardToKnownPort.
    destruct (Device.getInterface d (MacTableEntry.interfaceId entry)) as [e|];
      [|intros []].
    destruct (String.eqb (SimInterface.id e) interfaceId); [intros []|].
    destruct (Switch.canEgressOnInterface e vlan); [|intros []].
    unfold Device.findConnectedInterface.
    destruct (getConnectedInterface links (Device.id d) (SimInterface.id e)) as [c|] eqn:Hc;
      [|intros []].
    intros [<-|[]]. exists e. split; [reflexivity|]. destruct c; exact Hc.
  - intros h Hh. destruct (Htrace h Hh) as [H|[H|[H _]]]; rewrite H; discriminate.
  - intros Hsame.
    assert (Hnone : Switch.forwardToKnownPort d (MacTableEntry.interfaceId entry)
                      (Packet.with_vlan (Some vlan) packet) interfaceId vlan links time
                    = ([], [])).
    { unfold Switch.forwardToKnownPort. rewrite Hsame, Hi.
      rewrite (getInterface_id _ _ _ Hi), String.eqb_refl. reflexivity. }
    split; [rewrite Hnone; reflexivity|].
    intros h Hh. destruct (Htrace h Hh) as [H|[H|[H Hin]]].
    + rewrite H. split; discriminate.
    + rewrite H. split; discriminate.
    + rewrite Hnone in Hin. destruct Hin.
Qed.

(** X11. What one call of a switch does to its MAC table. No entry is ever
    removed. Every entry of the table after the call is an entry it had
    before, or the binding the call learned: the source MAC of the packet on
    the ingress interface, stamped with the time of the call, in a VLAN other
    than 0, stored under the key of its own MAC and VLAN. With learning
    switched off the table and the identifier supply are left as they are;
    otherwise at most one identifier is drawn. *)
Theorem switch_learning_frame (d : Device.t) (macLearning : bool) (ids : IdSupply.t)
    (interfaceId : string) (packet : Packet.t) (links : list SimLink.t) (time : Z)
    (table : MacTable) :
  let out :=
    Switch.processPacket d macLearning ids interfaceId packet links time (Some table) in
  exists table' : MacTable,
    out.1.2 = Some table'
    /\ (forall k e, table !! k = Some e -> exists e', table' !! k = Some e')
    /\ (forall k e, table' !! k = Some e ->
          table !! k = Some e
          \/ (MacTableEntry.mac e = Packet.srcMac packet
              /\ MacTableEntry.interfaceId e = interfaceId
              /\ MacTableEntry.timestamp e = time
              /\ MacTableEntry.vlan e <> 0
              /\ k = macTableKey (MacTableEntry.mac e) (MacTableEntry.vlan e)))
    /\ (macLearning = false -> table' = table /\ out.2 = ids)
    /\ (IdSupply.drawn ids <= IdSupply.drawn out.2 <= S (IdSupply.drawn ids))%nat.
Proof.
  intros out. subst out. unfold Switch.processPacket.
  assert (Hsame : exists table' : MacTable,
            Some table = Some table'
            /\ (forall k e, table !! k = Some e -> exists e', table' !! k = Some e')
            /\ (forall k e, table' !! k = Some e ->
                  table !! k = Some e
                  \/ (MacTableEntry.mac e = Packet.srcMac packet
                      /\ MacTableEntry.interfaceId e = interfaceId
                      /\ MacTableEntry.timestamp e = time
                      /\ MacTableEntry.vlan e <> 0
                      /\ k = macTableKey (MacTableEntry.mac e) (MacTableEntry.vlan e)))
            /\ (macLearning = false -> table' = table /\ ids = ids)
            /\ (IdSupply.drawn ids <= IdSupply.drawn ids <= S (IdSupply.drawn ids))%nat).
  { exists table. split; [reflexivity|]. split; [eauto|]. split; [auto|].
    split; [auto|lia]. }
  destruct (Device.getInterface d interfaceId) as [iface|]; [|exact Hsame].
  destruct (Switch.resolveVlan packet iface) as [vlan|] eqn:Hv; [|exact Hsame].
  cbv zeta. cbn [fst snd]. unfold Switch.learning.
  destruct macLearning; [|exact Hsame].
  unfold Switch.learnMacAddress.
  destruct (match table !! macTableKey (Packet.srcMac packet) vlan with
            | Some e => negb (String.eqb (MacTableEntry.interfaceId e) interfaceId)
            | None => true
            end); cbn [fst snd]; [|exact Hsame].
  eexists. split; [reflexivity|]. split; [|split; [|split; [discriminate|cbn; lia]]].
  - intros k e Hk.
    destruct (decide (macTableKey (Packet.srcMac packet) vlan = k)) as [<-|Hne].
    + eexists. apply lookup_insert_eq.
    + exists e. rewrite lookup_insert_ne by exact Hne. exact Hk.
  - intros k e Hk. apply lookup_insert_Some in Hk as [[<- <-]|[_ Hk]]; [right|left; exact Hk].
    cbn [MacTableEntry.mac MacTableEntry.interfaceId MacTableEntry.timestamp
         MacTableEntry.vlan].
    repeat split. exact (resolveVlan_nonzero _ _ _ Hv).
Qed.

(** ** Firewall: where an allowed packet goes, and editing the rule list *)

(** X12. A packet that is not addressed to the firewall and that the rules
    deny goes nowhere. One that they allow leaves through the first
    interface, in configured order, that is not the ingress and has a peer on
    its link, whatever the destination of the packet; the source MAC becomes
    the MAC of that interface. With no such interface the packet is passed
    to no one, and the trace of the call ends with the [acl-allow] hop. *)
Theorem firewall_forwards_via_first_linked (d : Device.t) (aclRules : list AclRule.t)
    (defaultPolicy : AclAction) (interfaceId : string) (packet : Packet.t)
    (links : list SimLink.t) (time : Z) :
  Device.getInterface d interfaceId <> None ->
  Firewall.isPacketForFirewall d packet = false ->
  let r := Firewall.processPacket d aclRules defaultPolicy interfaceId packet links time in
  let unusable (y : SimInterface.t) :=
    SimInterface.id y = interfaceId
    \/ getConnectedInterface links (Device.id d) (SimInterface.id y) = None in
  match AclMatch.action (Firewall.matchAclRules aclRules defaultPolicy packet) with
  | deny =>
      DeviceProcessResult.events r = []
      /\ TraceHop.action <$> last (DeviceProcessResult.trace r) = Some TraceAction.acl_deny
  | allow =>
      (exists l1 e l2 c,
         Device.interfaces d = l1 ++ e :: l2
         /\ (forall y, In y l1 -> unusable y)
         /\ SimInterface.id e <> interfaceId
         /\ getConnectedInterface links (Device.id d) (SimInterface.id e) = Some c
         /\ DeviceProcessResult.events r
            = [Event.mk (Packet.with_srcMac (SimInterface.mac e) packet)
                 (Endpoint.nodeId c) (Endpoint.interfaceId c)])
      \/ ((forall y, In y (Device.interfaces d) -> unusable y)
          /\ DeviceProcessResult.events r = []
          /\ TraceHop.action <$> last (DeviceProcessResult.trace r)
             = Some TraceAction.acl_allow)
  end.
Proof.
  intros Hi Hf r unusable. subst r. unfold Firewall.processPacket.
  destruct (Device.getInterface d interfaceId); [|congruence]. cbv zeta. rewrite Hf.
  assert (Hun : forall y, linked_out d interfaceId links y = false -> unusable y).
  { intros y Hy. unfold linked_out in Hy. unfold unusable.
    destruct (String.eqb_spec (SimInterface.id y) interfaceId) as [->|Hne]; [auto|].
    destruct (getConnectedInterface links (Device.id d) (SimInterface.id y));
      [discriminate|auto]. }
  destruct (AclMatch.action _); [|split; reflexivity].
  unfold Firewall.forwardPacket. rewrite forwardPacket_loop_find.
  destruct (find (linked_out d interfaceId links) (Device.interfaces d)) as [e|] eqn:F.
  - left. destruct (find_first _ _ _ F) as (l1 & l2 & E & He & Hl1).
    unfold linked_out in He. apply andb_true_iff in He as [Hne Hc].
    apply negb_true_iff, String.eqb_neq in Hne.
    destruct (getConnectedInterface links (Device.id d) (SimInterface.id e)) as [c|] eqn:Hp;
      [|discriminate].
    exists l1, e, l2, c. repeat split; auto.
  - right. split; [|split; reflexivity].
    intros y Hy. apply Hun. exact (find_none _ _ F y Hy).
Qed.

Lemma sort_rules_sorted_id l : StronglySorted order_le l -> sort_rules l = l.
Proof.
  induction 1 as [|x l Hs IH Hx]; [reflexivity|].
  cbn [sort_rules foldr]. fold (sort_rules l). rewrite IH.
  destruct l as [|y ys]; [reflexivity|]. cbn [insert_rule].
  apply Forall_inv in Hx. unfold order_le in Hx.
  replace (AclRule.order x <=? AclRule.order y) with true
    by (symmetry; apply Z.leb_le; exact Hx).
  reflexivity.
Qed.

Lemma first_match_app_one p l x :
  first_match p (l ++ [x]) =
    match first_match p l with
    | Some y => if p x && (AclRule.order x <? AclRule.order y) then Some x else Some y
    | None => if p x then Some x else None
    end.
Proof.
  induction l as [|a l IH]; [reflexivity|].
  cbn [app first_match]. rewrite IH. clear IH.
  destruct (first_match p l) as [y|]; destruct (p a), (p x); cbn [andb];
    repeat match goal with
      | |- context [?u <=? ?v] => destruct (Z.leb_spec u v); cbn [andb]
      | |- context [?u <? ?v] => destruct (Z.ltb_spec u v); cbn [andb]
      end; try reflexivity; lia.
Qed.

(** X13. [addAclRule] stores the rules sorted by [order], the new rule behind
    the rules of equal order, and loses none. For any packet the verdict of
    the stored list is that of the list with the rule appended: the new rule
    decides when it matches the packet and no rule matched before or the
    rule that matched has a strictly greater [order]; otherwise the verdict
    is what it was. *)
Theorem addAclRule_effect (rule : AclRule.t) (aclRules : list AclRule.t)
    (defaultPolicy : AclAction) (packet : Packet.t) :
  let stored := Firewall.addAclRule rule aclRules in
  let before := Firewall.matchAclRules aclRules defaultPolicy packet in
  StronglySorted order_le stored
  /\ Permutation stored (rule :: aclRules)
  /\ find (Firewall.matchesRule packet) stored
     = AclMatch.matchedRule (Firewall.matchAclRules stored defaultPolicy packet)
  /\ Firewall.matchAclRules stored defaultPolicy packet
     = if Firewall.matchesRule packet rule
          && match AclMatch.matchedRule before with
             | Some r => AclRule.order rule <? AclRule.order r
             | None => true
             end
       then AclMatch.mk true (AclRule.action rule) (Some rule)
       else before.
Proof.
  intros stored before. subst stored before. unfold Firewall.addAclRule.
  split; [apply sort_rules_sorted|].
  split; [rewrite sort_rules_perm; symmetry; apply Permutation_cons_append|].
  unfold Firewall.matchAclRules.
  rewrite (sort_rules_sorted_id (sort_rules _)) by apply sort_rules_sorted.
  rewrite !find_sort_rules, first_match_app_one.
  split.
  - destruct (first_match (Firewall.matchesRule packet) aclRules) as [y|];
      [destruct (Firewall.matchesRule packet rule && _)|
       destruct (Firewall.matchesRule packet rule)]; reflexivity.
  - destruct (first_match (Firewall.matchesRule packet) aclRules) as [y|];
      cbn [AclMatch.matchedRule].
    + destruct (Firewall.matchesRule packet rule && _); reflexivity.
    + rewrite andb_true_r. destruct (Firewall.matchesRule packet rule); reflexivity.
Qed.

Lemma first_match_filter p q l r :
  first_match p l = Some r -> q r = true -> first_match p (List.filter q l) = Some r.
Proof.
  revert r. induction l as [|x rest IH]; intros r; [discriminate|].
  cbn [first_match List.filter].
  destruct (first_match p rest) as [y|] eqn:F.
  - destruct (p x && (AclRule.order x <=? AclRule.order y)) eqn:E; intros [= <-] Hq.
    + rewrite Hq. cbn [first_match]. apply andb_true_iff in E as [Px E].
      apply Z.leb_le in E. rewrite Px.
      destruct (first_match p (List.filter q rest)) as [y'|] eqn:F'; [|reflexivity].
      destruct (first_match_Some _ _ _ F') as (l1 & l2 & El & Py' & _).
      assert (Hin : In y' rest).
      { assert (H : In y' (List.filter q rest)) by (rewrite El; apply in_elt).
        apply filter_In in H. tauto. }
      destruct (first_match_exists p rest y' Hin Py') as (r' & Hr' & Hle).
      rewrite F in Hr'. injection Hr' as <-.
      replace (AclRule.order x <=? AclRule.order y') with true
        by (symmetry; apply Z.leb_le; lia).
      reflexivity.
    + specialize (IH y eq_refl Hq). destruct (q x); [|exact IH].
      cbn [first_match]. rewrite IH, E. reflexivity.
  - destruct (p x) eqn:Px; [|discriminate]. intros [= <-] Hq. rewrite Hq.
    cbn [first_match]. rewrite Px.
    replace (first_match p (List.filter q rest)) with (@None AclRule.t); [reflexivity|].
    symmetry. apply first_match_None. intros r Hr. apply filter_In in Hr as [Hr _].
    rewrite first_match_None in F. auto.
Qed.

(** X14. [removeAclRule] removes the rules of the given id and no other, in
    place. A verdict that was decided by a rule of another id, or by the
    default policy, is the same after the removal. *)
Theorem removeAclRule_effect (ruleId : string) (aclRules : list AclRule.t)
    (defaultPolicy : AclAction) (packet : Packet.t) :
  let kept := Firewall.removeAclRule ruleId aclRules in
  let before := Firewall.matchAclRules aclRules defaultPolicy packet in
  (forall r, In r kept <-> In r aclRules /\ AclRule.id r <> ruleId)
  /\ (match AclMatch.matchedRule before with
      | Some r => AclRule.id r <> ruleId
      | None => True
      end ->
      Firewall.matchAclRules kept defaultPolicy packet = before).
Proof.
  intros kept before. subst kept before. unfold Firewall.removeAclRule. split.
  - intros r. rewrite filter_In, negb_true_iff, String.eqb_neq. reflexivity.
  - rewrite !matchAclRules_first_match.
    destruct (first_match (Firewall.matchesRule packet) aclRules) as [r|] eqn:F;
      cbn [AclMatch.matchedRule].
    + intros Hne. rewrite (first_match_filter _ _ _ _ F); [reflexivity|].
      apply negb_true_iff, String.eqb_neq. exact Hne.
    + intros _.
      replace (first_match _ (List.filter _ aclRules)) with (@None AclRule.t);
        [reflexivity|].
      symmetry. apply first_match_None. intros r Hr. apply filter_In in Hr as [Hr _].
      rewrite first_match_None in F. auto.
Qed.

(** ** Router: the static routes as a fallback *)

(** X15. When no interface qualifies for the directly-connected lookup, a
    router passes the packet on exactly when the best static route names an
    interface of the router that has a peer on its link: the packet then goes
    to that peer, through that interface even if it is the ingress. Only the
    best route is tried: when its interface is unknown or has no link the
    call emits nothing and ends with a [drop] hop for the lack of a route,
    on the packet with the TTL already lowered. *)
Theorem router_static_fallback (d : Device.t) (staticRoutes : list StaticRoute.t)
    (interfaceId : string) (packet : Packet.t) (links : list SimLink.t) (time : Z)
    (dstIp : string) :
  Device.getInterface d interfaceId <> None ->
  Router.isPacketForRouter d packet = false ->
  1 < Packet.ttl packet ->
  Packet.dstIp packet = Some dstIp -> dstIp <> "" ->
  (forall y, In y (Device.interfaces d) -> ~ eligible d dstIp interfaceId links y) ->
  let routed := Packet.with_ttl (Packet.ttl packet - 1) packet in
  let r := Router.processPacket d staticRoutes interfaceId packet links time in
  (forall ev,
     In ev (DeviceProcessResult.events r)
     <-> exists route e c,
           findBestRoute (Some staticRoutes) dstIp = Some route
           /\ Device.getInterface d (StaticRoute.outInterface route) = Some e
           /\ getConnectedInterface links (Device.id d) (SimInterface.id e) = Some c
           /\ ev = Event.mk (Packet.with_srcMac (SimInterface.mac e) routed)
                     (Endpoint.nodeId c) (Endpoint.interfaceId c))
  /\ (DeviceProcessResult.events r = [] ->
      exists h, last (DeviceProcessResult.trace r) = Some h
                /\ TraceHop.action h = TraceAction.drop
                /\ TraceHop.reason h = "No route to " +:+ dstIp
                /\ TraceHop.packet h = routed).
Proof.
  intros Hi Hf Httl Hd Hnz Hnone routed r. subst r.
  rewrite (router_process_routes d staticRoutes interfaceId packet links time dstIp
             Hi Hf Httl Hd Hnz).
  fold routed.
  assert (Hdirect : Router.findDirectRoute d dstIp interfaceId links routed time = None).
  { unfold Router.findDirectRoute. rewrite findDirectRoute_loop_find.
    destruct (find _ (Device.interfaces d)) as [e|] eqn:F; [|reflexivity].
    apply find_some in F as [Hin He]. apply eligibleb_spec in He.
    destruct (Hnone e Hin He). }
  rewrite Hdirect.
  destruct (Router.findStaticRoute d staticRoutes dstIp links routed time)
    as [[ev0 h0]|] eqn:Hs.
  - split; [|discriminate].
    pose proof Hs as Hshape.
    apply findStaticRoute_shape in Hshape as (route & e & c & Hr & He & _ & Hc & -> & _).
    intros ev. cbn [DeviceProcessResult.events result]. split.
    + intros [<-|[]]. exists route, e, c. auto.
    + intros (route' & e' & c' & Hr' & He' & Hc' & ->).
      rewrite Hr in Hr'. injection Hr' as <-. rewrite He in He'. injection He' as <-.
      rewrite Hc in Hc'. injection Hc' as <-. left. reflexivity.
  - split.
    + intros ev. cbn [DeviceProcessResult.events result]. split; [intros []|].
      intros (route & e & c & Hr & He & Hc & _). exfalso.
      unfold Router.findStaticRoute in Hs. rewrite Hr, He in Hs.
      unfold Device.findConnectedInterface in Hs. rewrite Hc in Hs. discriminate.
    + intros _. eexists. split; [reflexivity|]. repeat split.
Qed.

(** ** The legacy behaviour functions against the device classes *)

(** What a hop says apart from its wording and the packet it shows. *)
Definition hop_outline (h : TraceHop.t) : Z * string * string * string * TraceAction.t :=
  (TraceHop.time h, TraceHop.nodeId h, TraceHop.nodeLabel h, TraceHop.interfaceId h,
   TraceHop.action h).

Definition host_like (t : DeviceType) : Prop :=
  t = host \/ t = phone \/ t = server \/ t = laptop.

Lemma createFromSimNode_host node :
  host_like (SimNode.type node) ->
  createFromSimNode node
  = Device.mk (SimNode.id node) (SimNode.label node) (SimNode.type node)
      (SimNode.interfaces node) HostDevice.
Proof.
  unfold createFromSimNode. intros [H|[H|[H|H]]]; rewrite H; reflexivity.
Qed.

(** The factory copies the id, the label, the type and the interfaces of the
    node, whatever its type. *)
Lemma createFromSimNode_base node :
  Device.id (createFromSimNode node) = SimNode.id node
  /\ Device.label (createFromSimNode node) = SimNode.label node
  /\ Device.type (createFromSimNode node) = SimNode.type node
  /\ Device.interfaces (createFromSimNode node) = SimNode.interfaces node.
Proof. unfold createFromSimNode. destruct (SimNode.type node); repeat split. Qed.

(** X16. On an interface the node has, the legacy [hostReceive] and the
    class [HostDevice] return the same events, the same trace and the same
    flag. On an interface the node does not have they differ: the class drops
    the packet, while [hostReceive] still delivers a packet for the
    broadcast address. *)
Theorem hostReceive_against_HostDevice (node : SimNode.t) (ids : IdSupply.t)
    (interfaceId : string) (packet : Packet.t) (links : list SimLink.t) (time : Z)
    (table : option MacTable) :
  host_like (SimNode.type node) ->
  let legacy := HostBehavior.hostReceive node interfaceId packet time in
  let class :=
    (processPacket (createFromSimNode node) ids interfaceId packet links time table).1.1 in
  (getInterfaceById node interfaceId <> None ->
   BehaviorResult.events legacy = DeviceProcessResult.events class
   /\ BehaviorResult.trace legacy = DeviceProcessResult.trace class
   /\ BehaviorResult.delivered legacy = DeviceProcessResult.delivered class)
  /\ (getInterfaceById node interfaceId = None ->
      DeviceProcessResult.delivered class = false
      /\ BehaviorResult.delivered legacy = isBroadcastMac (Packet.dstMac packet)).
Proof.
  intros Hh legacy class. subst legacy class.
  rewrite (createFromSimNode_host node Hh).
  unfold processPacket, Host.processPacket, HostBehavior.hostReceive,
    Device.isPacketForThisDevice, Device.getInterface, getInterfaceById, isBroadcastMac.
  cbn [Device.class Device.interfaces fst].
  destruct (find _ (SimNode.interfaces node)) as [iface|]; split; try congruence.
  - intros _. cbn [fmap option_fmap option_map mbind option_bind Device.opt_str_eqb].
    destruct (String.eqb (JS.toUpperCase (Packet.dstMac packet))
                (JS.toUpperCase (SimInterface.mac iface))); cbn [orb];
      [repeat split|].
    destruct (String.eqb (JS.toUpperCase (Packet.dstMac packet)) "FF:FF:FF:FF:FF:FF");
      cbn [orb]; [repeat split|].
    destruct (JS.truthy (Packet.dstIp packet)); cbn [andb]; [|repeat split].
    destruct (Device.opt_str_eqb _ (Packet.dstIp packet)); repeat split.
  - intros _. split; [reflexivity|].
    cbn [fmap option_fmap option_map mbind option_bind Device.opt_str_eqb orb].
    destruct (String.eqb (JS.toUpperCase (Packet.dstMac packet)) "FF:FF:FF:FF:FF:FF");
      cbn [orb]; [reflexivity|].
    destruct (Packet.dstIp packet) as [ip|];
      cbn [JS.truthy Device.opt_str_eqb andb]; [rewrite andb_false_r|]; reflexivity.
Qed.

(** X17. The legacy [hostSend] and [HostDevice.sendPacket] return the same
    events, trace and flag. The packet they build has TTL 64, the identifier
    drawn, the MAC and the bare IP of the first interface of the host as
    source, and the VLAN of that interface; at most one event is emitted, to
    the peer of the first interface, and with no link on that interface the
    trace is a single [drop] hop. A host without interfaces sends nothing
    and records nothing. *)
Theorem hostSend_against_sendPacket (node : SimNode.t) (pid dstMac dstIp : string)
    (links : list SimLink.t) (time : Z) (proto : Proto) (srcPort dstPort : option Z) :
  let legacy := HostBehavior.hostSend node pid dstMac dstIp links time proto srcPort dstPort in
  let class :=
    Host.sendPacket (createFromSimNode node) pid dstMac dstIp links time proto
      srcPort dstPort in
  BehaviorResult.events legacy = DeviceProcessResult.events class
  /\ BehaviorResult.trace legacy = DeviceProcessResult.trace class
  /\ BehaviorResult.delivered legacy = DeviceProcessResult.delivered class
  /\ DeviceProcessResult.delivered class = false
  /\ match SimNode.interfaces node with
     | [] => DeviceProcessResult.events class = [] /\ DeviceProcessResult.trace class = []
     | iface :: _ =>
         let packet :=
           Packet.mk pid (SimInterface.mac iface) dstMac
             (Device.bare_ip (SimInterface.ip iface)) (Some dstIp)
             (SimInterface.vlan iface) proto srcPort dstPort 64 None in
         match getConnectedInterface links (SimNode.id node) (SimInterface.id iface) with
         | Some c =>
             DeviceProcessResult.events class
             = [Event.mk packet (Endpoint.nodeId c) (Endpoint.interfaceId c)]
             /\ hop_outline <$> DeviceProcessResult.trace class
                = [(time, SimNode.id node, SimNode.label node, SimInterface.id iface,
                    TraceAction.forward)]
         | None =>
             DeviceProcessResult.events class = []
             /\ hop_outline <$> DeviceProcessResult.trace class
                = [(time, SimNode.id node, SimNode.label node, SimInterface.id iface,
                    TraceAction.drop)]
         end
     end.
Proof.
  intros legacy class. subst legacy class.
  destruct (createFromSimNode_base node) as (Hid & Hlabel & _ & Hifs).
  unfold Host.sendPacket, HostBehavior.hostSend, Device.findConnectedInterface,
    Device.createTraceHop, Device.createForwardEvent, hop.
  rewrite Hid, Hlabel, Hifs.
  destruct (SimNode.interfaces node) as [|iface rest]; [repeat split|].
  destruct (getConnectedInterface links (SimNode.id node) (SimInterface.id iface));
    repeat split.
Qed.

(** A device and a node that share id, label and interfaces. *)
Definition models (d : Device.t) (node : SimNode.t) : Prop :=
  Device.id d = SimNode.id node /\ Device.label d = SimNode.label node
  /\ Device.interfaces d = SimNode.interfaces node.

Lemma createFromSimNode_models node : models (createFromSimNode node) node.
Proof. destruct (createFromSimNode_base node) as (H1 & H2 & _ & H3). repeat split; auto. Qed.

Lemma flood_loop_agree d node ifaces packet interfaceId vlan links :
  Device.id d = SimNode.id node ->
  Switch.flood_loop d ifaces packet interfaceId vlan links
  = SwitchBehavior.flood_loop node ifaces packet interfaceId vlan links.
Proof.
  intros Hid. induction ifaces as [|e rest IH];
    cbn [Switch.flood_loop SwitchBehavior.flood_loop]; [reflexivity|].
  rewrite IH. unfold Device.findConnectedInterface, Device.createForwardEvent.
  rewrite Hid. reflexivity.
Qed.

Lemma egress_agree d node packet interfaceId vlan links time isBroadcast dstEntry :
  models d node ->
  (Switch.egress d packet interfaceId vlan links time isBroadcast dstEntry).1
  = (SwitchBehavior.egress node packet interfaceId vlan links time isBroadcast dstEntry).1
  /\ hop_outline <$> (Switch.egress d packet interfaceId vlan links time isBroadcast
                        dstEntry).2
     = hop_outline <$> (SwitchBehavior.egress node packet interfaceId vlan links time
                          isBroadcast dstEntry).2.
Proof.
  intros (Hid & Hlabel & Hifs).
  unfold Switch.egress, SwitchBehavior.egress, Switch.floodPacket,
    Switch.forwardToKnownPort, Device.getInterface, Device.findConnectedInterface,
    Device.createTraceHop, Device.createForwardEvent, hop.
  rewrite Hid, Hlabel, Hifs.
  destruct (negb isBroadcast), dstEntry as [entry|]; cbn [fst snd];
    try (split; [apply flood_loop_agree; exact Hid|reflexivity]).
  destruct (find _ (SimNode.interfaces node)) as [e|]; [|split; reflexivity].
  destruct (String.eqb (SimInterface.id e) interfaceId); cbn [negb andb];
    [split; reflexivity|].
  change (SwitchBehavior.canEgressOnInterface e vlan)
    with (Switch.canEgressOnInterface e vlan).
  destruct (Switch.canEgressOnInterface e vlan); [|split; reflexivity].
  destruct (getConnectedInterface links (SimNode.id node) (SimInterface.id e));
    split; reflexivity.
Qed.

Lemma learning_agree d node ids interfaceId packet vlan time (table : MacTable) :
  models d node ->
  let class :=
    Switch.learning d (default true (SimNode.macLearning node)) ids interfaceId packet
      vlan time (Some table) in
  let legacy := SwitchBehavior.learning node interfaceId packet vlan time table in
  class.1.1 = Some legacy.1 /\ hop_outline <$> class.1.2 = hop_outline <$> legacy.2.
Proof.
  intros (Hid & Hlabel & Hifs).
  unfold Switch.learning, SwitchBehavior.learning, Switch.learnMacAddress,
    Device.createTraceHop, hop.
  rewrite Hid, Hlabel.
  destruct (SimNode.macLearning node) as [[|]|]; cbn [default from_option id];
    try (split; reflexivity);
    destruct (match table !! macTableKey (Packet.srcMac packet) vlan with
              | Some e => negb (String.eqb (MacTableEntry.interfaceId e) interfaceId)
              | None => true
              end); split; reflexivity.
Qed.

Lemma resolveVlan_refused iface packet :
  Switch.resolveVlan packet iface = None ->
  exists vlan, SwitchBehavior.ingress_vlan iface packet = inr vlan.
Proof.
  unfold Switch.resolveVlan, SwitchBehavior.ingress_vlan, Switch.includes.
  destruct (SimInterface.portMode iface) as [[|]|]; try discriminate.
  destruct (SimInterface.allowedVlans iface) as [allowed|]; [|discriminate].
  destruct (negb (existsb _ allowed)); [eauto|discriminate].
Qed.

(** X18. For a node of type switch, the legacy [switchProcess] and the
    device the factory builds emit the same events and leave the same MAC
    table, and their traces agree hop by hop on time, node, interface and
    action. *)
Theorem switchProcess_against_SwitchDevice (node : SimNode.t) (ids : IdSupply.t)
    (interfaceId : string) (packet : Packet.t) (links : list SimLink.t) (time : Z)
    (table : MacTable) :
  SimNode.type node = switch ->
  let legacy := SwitchBehavior.switchProcess node interfaceId packet links table time in
  let class :=
    processPacket (createFromSimNode node) ids interfaceId packet links time (Some table) in
  SwitchBehavior.SwitchBehaviorResult.events legacy.1 = DeviceProcessResult.events class.1.1
  /\ Some legacy.2 = class.1.2
  /\ hop_outline <$> SwitchBehavior.SwitchBehaviorResult.trace legacy.1
     = hop_outline <$> DeviceProcessResult.trace class.1.1.
Proof.
  intros Ht legacy class. subst legacy class.
  pose proof (createFromSimNode_models node) as Hm.
  rewrite (createFromSimNode_switch node Ht) in *.
  set (d := Device.mk _ _ _ _ _) in *.
  unfold processPacket. cbn [Device.class d].
  unfold Switch.processPacket, SwitchBehavior.switchProcess, Device.getInterface.
  replace (Device.interfaces d) with (SimNode.interfaces node) by reflexivity.
  destruct (find _ (SimNode.interfaces node)) as [iface|]; [|repeat split].
  destruct (Switch.resolveVlan packet iface) as [vlan|] eqn:Hv.
  2:{ destruct (resolveVlan_refused _ _ Hv) as (v & ->). repeat split. }
  apply ingress_vlan_resolveVlan in Hv. rewrite Hv. cbv zeta.
  cbn [fst snd SwitchBehavior.SwitchBehaviorResult.events
       SwitchBehavior.SwitchBehaviorResult.trace DeviceProcessResult.events
       DeviceProcessResult.trace result].
  destruct (learning_agree d node ids interfaceId packet vlan time table Hm) as [Hl1 Hl2].
  rewrite Hl1. cbn [mbind option_bind].
  match goal with
  | |- context [Switch.egress d ?p ?i ?v ?l ?t ?b ?e] =>
      destruct (egress_agree d node p i v l t b e Hm) as [He1 He2]
  end.
  split; [symmetry; exact He1|]. split; [reflexivity|].
  rewrite !fmap_app, Hl2, He2. reflexivity.
Qed.

Lemma forward_loop_agree d node ifaces packet interfaceId links time :
  models d node ->
  match Firewall.forwardPacket_loop d ifaces packet interfaceId links time,
        FirewallBehavior.egress_loop node ifaces packet interfaceId links time with
  | Some (ev, h), Some (ev', h') => ev = ev' /\ hop_outline h = hop_outline h'
  | None, None => True
  | _, _ => False
  end.
Proof.
  intros (Hid & Hlabel & Hifs). induction ifaces as [|e rest IH];
    cbn [Firewall.forwardPacket_loop FirewallBehavior.egress_loop]; [exact I|].
  destruct (String.eqb (SimInterface.id e) interfaceId); [exact IH|].
  unfold Device.findConnectedInterface. rewrite Hid.
  destruct (getConnectedInterface links (SimNode.id node) (SimInterface.id e));
    [|exact IH].
  unfold Device.createTraceHop, hop, hop_outline. rewrite Hid, Hlabel. split; reflexivity.
Qed.

(** X19. For a node of type firewall, the legacy [firewallProcess] and the
    device the factory builds emit the same events and set the same flag,
    and their traces agree hop by hop on time, node, interface and action. *)
Theorem firewallProcess_against_FirewallDevice (node : SimNode.t) (ids : IdSupply.t)
    (interfaceId : string) (packet : Packet.t) (links : list SimLink.t) (time : Z)
    (table : option MacTable) :
  SimNode.type node = firewall ->
  let legacy := FirewallBehavior.firewallProcess node interfaceId packet links time in
  let class :=
    (processPacket (createFromSimNode node) ids interfaceId packet links time table).1.1 in
  BehaviorResult.events legacy = DeviceProcessResult.events class
  /\ BehaviorResult.delivered legacy = DeviceProcessResult.delivered class
  /\ hop_outline <$> BehaviorResult.trace legacy
     = hop_outline <$> DeviceProcessResult.trace class.
Proof.
  intros Ht legacy class. subst legacy class.
  pose proof (createFromSimNode_models node) as Hm.
  assert (Hc : Device.class (createFromSimNode node)
               = FirewallDevice (default [] (SimNode.aclRules node))
                   (default deny (SimNode.defaultPolicy node))).
  { unfold createFromSimNode. rewrite Ht. reflexivity. }
  unfold processPacket. rewrite Hc. cbn [fst].
  set (d := createFromSimNode node) in *.
  pose proof Hm as (Hid & Hlabel & Hifs).
  unfold Firewall.processPacket, FirewallBehavior.firewallProcess, Device.getInterface,
    Firewall.isPacketForFirewall.
  rewrite Hifs.
  destruct (find _ (SimNode.interfaces node)) as [iface|].
  2:{ unfold Device.createTraceHop, hop. rewrite Hid, Hlabel. repeat split. }
  cbv zeta.
  destruct (existsb _ (SimNode.interfaces node)).
  { unfold Device.createTraceHop, hop. rewrite Hid, Hlabel. repeat split. }
  change (FirewallBehavior.evaluate node packet)
    with (Firewall.matchAclRules (default [] (SimNode.aclRules node))
            (default deny (SimNode.defaultPolicy node)) packet).
  destruct (AclMatch.action _).
  2:{ unfold Device.createTraceHop, hop. rewrite Hid, Hlabel. repeat split. }
  unfold Firewall.forwardPacket. rewrite Hifs.
  pose proof (forward_loop_agree d node (SimNode.interfaces node) packet interfaceId links
                time Hm) as Hloop.
  destruct (Firewall.forwardPacket_loop d _ _ _ _ _) as [[ev h]|],
           (FirewallBehavior.egress_loop node _ _ _ _ _) as [[ev' h']|];
    try contradiction.
  - destruct Hloop as [-> Hh].
    cbn [BehaviorResult.events BehaviorResult.delivered BehaviorResult.trace
         DeviceProcessResult.events DeviceProcessResult.delivered DeviceProcessResult.trace
         result fmap list_fmap].
    rewrite Hh. unfold Device.createTraceHop, hop, hop_outline. rewrite Hid, Hlabel.
    repeat split.
  - unfold Device.createTraceHop, hop. rewrite Hid, Hlabel. repeat split.
Qed.

(** ** The driver: what a run preserves *)

(** The table the driver passes to a device. *)
Definition table_for (s : Simulator.t) (device : Device.t) : option MacTable :=
  match Device.getType device with
  | switch => Simulator.macTables s !! Device.getId device
  | _ => None
  end.

(** The tables of the driver after a device returned [table]. *)
Definition tables_after (s : Simulator.t) (device : Device.t) (table : option MacTable)
  : gmap string MacTable :=
  match table with
  | Some table => <[Device.getId device := table]> (Simulator.macTables s)
  | None => Simulator.macTables s
  end.

(** The three ways through the body of the loop: the state was seen before;
    no device has the id of the event; a device processes the event, and
    either delivers or hands on events. *)
Lemma loop_body_cases s hops visited st :
  Simulator.loop_body s hops visited = Some st ->
  exists event rest,
    EventQueue.queue (Simulator.eventQueue s) = event :: rest
    /\ let clock := EventQueue.time (Simulator.eventQueue s) + 1 in
       let s1 :=
         Simulator.set_run (EventQueue.mk rest clock) (Simulator.macTables s)
           (Simulator.trace s) (Simulator.ids s) s in
       st = Simulator.Return
              (SimulationResult.mk false false false true (Simulator.trace s)
                 "Loop detected") s1 (hops + 1)
       \/ (Simulator.devices s !! SimEvent.nodeId event = None
           /\ exists v, st = Simulator.Continue s1 (hops + 1) v)
       \/ exists device,
            Simulator.devices s !! SimEvent.nodeId event = Some device
            /\ let out :=
                 processPacket device (Simulator.ids s) (SimEvent.interfaceId event)
                   (SimEvent.packet event) (SimTopology.links (Simulator.topology s))
                   clock (table_for s device) in
               let tables' := tables_after s device out.1.2 in
               let trace' := Simulator.trace s ++ DeviceProcessResult.trace out.1.1 in
               (DeviceProcessResult.delivered out.1.1 = true
                /\ st = Simulator.Return
                          (SimulationResult.mk true true false false trace'
                             ("Packet delivered to " +:+ Device.getLabel device))
                          (Simulator.set_run (EventQueue.mk rest clock) tables' trace'
                             out.2 s)
                          (hops + 1))
               \/ (DeviceProcessResult.delivered out.1.1 = false
                   /\ exists v,
                        st = Simulator.Continue
                               (Simulator.set_run
                                  (foldl (fun q ev => EventQueue.enqueue ev q)
                                     (EventQueue.mk rest clock)
                                     (DeviceProcessResult.events out.1.1))
                                  tables' trace' out.2 s)
                               (hops + 1) v).
Proof.
  unfold Simulator.loop_body, EventQueue.dequeue.
  destruct (EventQueue.queue (Simulator.eventQueue s)) as [|event rest]; [discriminate|].
  cbv zeta. intros H. exists event, rest. split; [reflexivity|].
  destruct (bool_decide (Simulator.stateKey event ∈ visited)).
  { injection H as <-. left. reflexivity. }
  right. unfold Simulator.getDevice in H.
  cbn [Simulator.devices Simulator.set_run] in H.
  destruct (Simulator.devices s !! SimEvent.nodeId event) as [device|].
  2:{ injection H as <-. left. split; [reflexivity|]. eexists. reflexivity. }
  right. exists device. split; [reflexivity|].
  destruct (DeviceProcessResult.delivered _) eqn:Hd in H; injection H as <-.
  - left. split; [exact Hd|]. reflexivity.
  - right. split; [exact Hd|]. eexists. reflexivity.
Qed.

(** Invariant reasoning on the main loop: [I] holds when the loop is entered
    and every way round the body preserves it; [Q] then holds of whatever
    the loop returns. *)
Lemma main_loop_invariant (I : Simulator.t -> Z -> Prop)
    (Q : SimulationResult.t -> Simulator.t -> Z -> Prop) :
  (forall s hops, I s hops -> Q (Simulator.after_loop s hops) s hops) ->
  (forall s hops visited r s' hops',
     I s hops -> Simulator.loop_guard s hops = true ->
     Simulator.loop_body s hops visited = Some (Simulator.Return r s' hops') ->
     Q r s' hops') ->
  (forall s hops visited s' hops' visited',
     I s hops -> Simulator.loop_guard s hops = true ->
     Simulator.loop_body s hops visited = Some (Simulator.Continue s' hops' visited') ->
     I s' hops') ->
  forall fuel s hops visited r s' hops',
    I s hops ->
    Simulator.main_loop fuel s hops visited = Some (r, s', hops') ->
    Q r s' hops'.
Proof.
  intros Hexit Hret Hcont.
  induction fuel as [|fuel IH]; intros s hops visited r s' hops' Hi;
    cbn [Simulator.main_loop]; destruct (Simulator.loop_guard s hops) eqn:G;
    try discriminate;
    try (intros [= <- <- <-]; apply Hexit; exact Hi).
  destruct (Simulator.loop_body s hops visited) as [[r1 s1 h1|s1 h1 v1]|] eqn:B;
    [| |discriminate].
  - intros [= <- <- <-]. exact (Hret _ _ _ _ _ _ Hi G B).
  - apply IH. exact (Hcont _ _ _ _ _ _ Hi G B).
Qed.

(** The simulator as [simulate] resets it, and as the first packet leaves it. *)
Definition reset (s0 : Simulator.t) : Simulator.t :=
  Simulator.set_run (EventQueue.clear (Simulator.eventQueue s0)) (Simulator.macTables s0)
    [] (Simulator.ids s0) s0.

Definition seeded (s0 : Simulator.t) (sendResult : DeviceProcessResult.t)
    (ids1 : IdSupply.t) : Simulator.t :=
  Simulator.set_run
    (foldl (fun q ev => EventQueue.enqueue ev q) (EventQueue.mk [] 0)
       (DeviceProcessResult.events sendResult))
    (Simulator.macTables s0) (DeviceProcessResult.trace sendResult) ids1 s0.

(** [simulate] either fails before any packet is sent, with the simulator
    reset, or runs the main loop from the state the first packet leaves. *)
Lemma simulate_seed graph_path fuel s0 packetSpec x :
  simulate graph_path fuel s0 packetSpec = Some x ->
  (exists reason, x = (failure reason, reset s0, 0))
  \/ exists srcDevice pid dstMac dstIp ids1,
       Simulator.main_loop fuel
         (seeded s0
            (Host.sendPacket srcDevice pid dstMac dstIp
               (SimTopology.links (Simulator.topology s0)) 0
               (default icmp (PacketSpec.proto packetSpec))
               (PacketSpec.srcPort packetSpec) (PacketSpec.dstPort packetSpec))
            ids1)
         0 ∅ = Some x.
Proof.
  unfold simulate. fold (reset s0).
  destruct (getNodeById _ (PacketSpec.srcNodeId packetSpec)) as [srcNode|];
    [|intros [= <-]; eauto].
  destruct (getNodeById _ (PacketSpec.dstNodeId packetSpec)) as [dstNode|];
    [|intros [= <-]; eauto].
  destruct (negb (isReachable graph_path _ _ _)); [intros [= <-]; eauto|].
  unfold simulate_from_seed.
  destruct (Simulator.getDevice (reset s0) (SimNode.id srcNode)) as [srcDevice|];
    [|intros [= <-]; eauto].
  destruct (Device.class srcDevice);
    [intros H; right; eexists srcDevice, _, _, _, _; exact H|..];
    intros [= <-]; eauto.
Qed.

Lemma sendPacket_hops d pid dstMac dstIp links time proto srcPort dstPort :
  Forall (fun h => TraceHop.time h = time /\ is_deliver h = false)
    (DeviceProcessResult.trace
       (Host.sendPacket d pid dstMac dstIp links time proto srcPort dstPort)).
Proof.
  unfold Host.sendPacket. destruct (Device.interfaces d) as [|iface rest]; [constructor|].
  destruct (Device.findConnectedInterface d links (SimInterface.id iface));
    repeat constructor.
Qed.

Lemma processPacket_delivered_last d ids interfaceId packet links time table :
  let r := (processPacket d ids interfaceId packet links time table).1.1 in
  DeviceProcessResult.delivered r = true ->
  is_deliver <$> last (DeviceProcessResult.trace r) = Some true.
Proof.
  unfold processPacket.
  destruct (Device.class d) as [| |macLearning vlanDatabase|staticRoutes|aclRules policy];
    cbn [fst]; cbv zeta.
  - unfold Host.processPacket.
    destruct (Device.getInterface d interfaceId);
      [destruct (Device.isPacketForThisDevice d packet interfaceId)|];
      try discriminate; reflexivity.
  - unfold Cloud.processPacket.
    destruct (Device.getInterface d interfaceId); try discriminate; reflexivity.
  - intros H. exfalso.
    destruct (switch_reported d macLearning ids interfaceId packet links time table)
      as [_ Hf].
    congruence.
  - unfold Router.processPacket.
    destruct (Device.getInterface d interfaceId); [|discriminate].
    destruct (Router.isPacketForRouter d packet); [reflexivity|].
    destruct (Packet.ttl packet <=? 1); [discriminate|]. cbv zeta.
    destruct (negb (JS.truthy (Packet.dstIp packet))); [discriminate|].
    destruct (Router.findDirectRoute _ _ _ _ _ _) as [[ev h]|]; [discriminate|].
    destruct (Router.findStaticRoute _ _ _ _ _ _) as [[ev h]|]; discriminate.
  - unfold Firewall.processPacket.
    destruct (Device.getInterface d interfaceId); [|discriminate]. cbv zeta.
    destruct (Firewall.isPacketForFirewall d packet); [reflexivity|].
    destruct (AclMatch.action _); [|discriminate].
    destruct (Firewall.forwardPacket _ _ _ _ _) as [[ev h]|]; discriminate.
Qed.

(** The flags of a result fit together, its trace is the trace the simulator
    keeps, and delivery shows as a [deliver] hop, the last of the trace. *)
Definition coherent (r : SimulationResult.t) (s' : Simulator.t) : Prop :=
  SimulationResult.success r = SimulationResult.delivered r
  /\ (SimulationResult.delivered r = true ->
      SimulationResult.blocked r = false /\ SimulationResult.loop r = false)
  /\ (SimulationResult.loop r = true -> SimulationResult.blocked r = false)
  /\ SimulationResult.trace r = Simulator.trace s'
  /\ SimulationResult.delivered r = existsb is_deliver (SimulationResult.trace r)
  /\ (SimulationResult.delivered r = true ->
      is_deliver <$> last (SimulationResult.trace r) = Some true).

Lemma main_loop_coherent fuel s hops visited r s' hops' :
  existsb is_deliver (Simulator.trace s) = false ->
  Simulator.main_loop fuel s hops visited = Some (r, s', hops') ->
  coherent r s'.
Proof.
  apply (main_loop_invariant
           (fun s _ => existsb is_deliver (Simulator.trace s) = false)
           (fun r s' _ => coherent r s')); clear.
  - intros s hops Hi. unfold Simulator.after_loop, coherent.
    destruct (SimulationOptions.maxHops (Simulator.options s) <=? hops);
      cbn [SimulationResult.success SimulationResult.delivered SimulationResult.blocked
           SimulationResult.loop SimulationResult.trace];
      rewrite Hi; repeat split; discriminate.
  - intros s hops visited r s' hops' Hi _ B.
    apply loop_body_cases in B as (event & rest & _ & B). cbv zeta in B.
    destruct B as [B|[[_ (v & B)]|(device & _ & [[Hd B]|[_ (v & B)]])]];
      try discriminate; injection B as -> -> _; unfold coherent;
      cbn [SimulationResult.success SimulationResult.delivered SimulationResult.blocked
           SimulationResult.loop SimulationResult.trace Simulator.trace
           Simulator.set_run].
    + rewrite Hi. repeat split; discriminate.
    + rewrite existsb_app, Hi. cbn [orb].
      match type of Hd with
      | DeviceProcessResult.delivered (processPacket ?d ?i ?f ?p ?l ?t ?m).1.1 = true =>
          destruct (processPacket_reported d i f p l t m) as (_ & Hne & Hdel & _);
          pose proof (processPacket_delivered_last d i f p l t m Hd) as Hlast
      end.
      rewrite <- Hdel, Hd. repeat split; try discriminate.
      intros _. rewrite last_app.
      destruct (last (DeviceProcessResult.trace _)) as [h|]; [exact Hlast|discriminate].
  - intros s hops visited s' hops' visited' Hi _ B.
    apply loop_body_cases in B as (event & rest & _ & B). cbv zeta in B.
    destruct B as [B|[[_ (v & B)]|(device & _ & [[_ B]|[Hd (v & B)]])]];
      try discriminate; injection B as -> _ _;
      cbn [Simulator.trace Simulator.set_run]; [exact Hi|].
    rewrite existsb_app, Hi. cbn [orb].
    match type of Hd with
    | DeviceProcessResult.delivered (processPacket ?d ?i ?f ?p ?l ?t ?m).1.1 = false =>
        destruct (processPacket_reported d i f p l t m) as (_ & _ & Hdel & _)
    end.
    rewrite <- Hdel. exact Hd.
Qed.

(** X20. Whatever [simulate] returns, [success] is [delivered]; a delivered
    packet is neither blocked nor looping and a run that stopped for a loop
    is not blocked; the trace of the result is the trace the simulator keeps
    for [getTrace]; and [delivered] is set exactly when the trace holds a
    [deliver] hop, which is then its last hop. *)
Theorem simulate_result_coherent
    (graph_path : Graph.t -> string -> string -> option (list string))
    (fuel : nat) (s0 : Simulator.t) (packetSpec : PacketSpec.t)
    (r : SimulationResult.t) (s' : Simulator.t) (hops : Z) :
  simulate graph_path fuel s0 packetSpec = Some (r, s', hops) ->
  SimulationResult.success r = SimulationResult.delivered r
  /\ (SimulationResult.delivered r = true ->
      SimulationResult.blocked r = false /\ SimulationResult.loop r = false)
  /\ (SimulationResult.loop r = true -> SimulationResult.blocked r = false)
  /\ SimulationResult.trace r = Simulator.trace s'
  /\ (SimulationResult.delivered r = true
      <-> exists h, In h (SimulationResult.trace r)
                    /\ TraceHop.action h = TraceAction.deliver)
  /\ (SimulationResult.delivered r = true ->
      exists h, last (SimulationResult.trace r) = Some h
                /\ TraceHop.action h = TraceAction.deliver).
Proof.
  intros H.
  assert (Hc : coherent r s').
  { apply simulate_seed in H as [(reason & [= -> -> ->])|
                                 (srcDevice & pid & dstMac & dstIp & ids1 & H)].
    - unfold coherent, failure, reset. cbn. repeat split; discriminate.
    - eapply main_loop_coherent; [|exact H].
      unfold seeded. cbn [Simulator.trace Simulator.set_run].
      match goal with
      | |- context [Host.sendPacket ?d ?p ?m ?i ?l ?t ?pr ?sp ?dp] =>
          pose proof (sendPacket_hops d p m i l t pr sp dp) as Hs
      end.
      induction Hs as [|h tr [_ Hh] _ IH]; [reflexivity|].
      cbn [existsb]. rewrite Hh, IH. reflexivity. }
  destruct Hc as (H1 & H2 & H3 & H4 & H5 & H6).
  repeat split; try assumption; try (apply H2; assumption).
  - rewrite H5, existsb_exists. unfold is_deliver.
    intros (h & Hin & Ha). exists h. split; [exact Hin|].
    destruct (TraceHop.action h); try discriminate. reflexivity.
  - rewrite H5, existsb_exists. unfold is_deliver.
    intros (h & Hin & Ha). exists h. split; [exact Hin|]. rewrite Ha. reflexivity.
  - intros Hd. specialize (H6 Hd).
    destruct (last (SimulationResult.trace r)) as [h|]; [|discriminate].
    exists h. split; [reflexivity|]. injection H6 as H6. unfold is_deliver in H6.
    destruct (TraceHop.action h); try discriminate. reflexivity.
Qed.

(** The trace is in time order and every hop is stamped between 0 and the
    clock. *)
Definition timed (trace : list TraceHop.t) (clock : Z) : Prop :=
  StronglySorted Z.le (TraceHop.time <$> trace)
  /\ Forall (fun h => 0 <= TraceHop.time h <= clock) trace.

Lemma timed_weaken trace clock clock' :
  clock <= clock' -> timed trace clock -> timed trace clock'.
Proof.
  intros Hle [Hs Hb]. split; [exact Hs|].
  eapply Forall_impl; [exact Hb|]. cbn beta. intros h Hh. lia.
Qed.

Lemma timed_app trace added clock :
  0 <= clock + 1 ->
  timed trace clock ->
  Forall (fun h => TraceHop.time h = clock + 1) added ->
  timed (trace ++ added) (clock + 1).
Proof.
  intros Hpos [Hs Hb] Ha. split.
  - rewrite fmap_app. induction trace as [|h tr IH]; cbn [fmap list_fmap app].
    + clear Hs Hb. induction Ha as [|a added Hh Htl IHa]; cbn [fmap list_fmap];
        [constructor|].
      constructor; [exact IHa|].
      apply Forall_fmap. eapply Forall_impl; [exact Htl|].
      cbn beta. intros y Hy. unfold compose. lia.
    + cbn [fmap list_fmap] in Hs. apply StronglySorted_inv in Hs as [Hs Hh].
      apply Forall_cons in Hb as [Hb0 Hb].
      constructor; [apply IH; assumption|].
      apply Forall_app. split; [exact Hh|].
      apply Forall_fmap. eapply Forall_impl; [exact Ha|].
      cbn beta. intros y Hy. unfold compose. lia.
  - apply Forall_app. split.
    + eapply Forall_impl; [exact Hb|]. cbn beta. intros h Hh. lia.
    + eapply Forall_impl; [exact Ha|]. cbn beta. intros h Hh. lia.
Qed.

Lemma main_loop_timed fuel s hops visited r s' hops' :
  EventQueue.time (Simulator.eventQueue s) = hops -> 0 <= hops ->
  timed (Simulator.trace s) hops ->
  Simulator.main_loop fuel s hops visited = Some (r, s', hops') ->
  timed (SimulationResult.trace r) hops'
  /\ EventQueue.time (Simulator.eventQueue s') = hops'.
Proof.
  intros Hc Hpos Ht.
  apply (main_loop_invariant
           (fun s hops => EventQueue.time (Simulator.eventQueue s) = hops /\ 0 <= hops
                          /\ timed (Simulator.trace s) hops)
           (fun r s' hops' => timed (SimulationResult.trace r) hops'
                              /\ EventQueue.time (Simulator.eventQueue s') = hops'));
    [| | |auto]; clear.
  - intros s hops (Hc & Hpos & Ht). unfold Simulator.after_loop.
    destruct (SimulationOptions.maxHops (Simulator.options s) <=? hops);
      cbn [SimulationResult.trace]; auto.
  - intros s hops visited r s' hops' (Hc & Hpos & Ht) _ B.
    apply loop_body_cases in B as (event & rest & _ & B). cbv zeta in B.
    destruct B as [B|[[_ (v & B)]|(device & _ & [[Hd B]|[_ (v & B)]])]];
      try discriminate; injection B as -> -> ->;
      cbn [SimulationResult.trace Simulator.eventQueue Simulator.set_run EventQueue.time].
    + split; [|lia]. apply (timed_weaken _ hops); [lia|exact Ht].
    + split; [|lia]. rewrite Hc. apply timed_app; [lia|exact Ht|].
      match goal with
      | |- context [processPacket ?d ?i ?f ?p ?l ?t ?m] =>
          destruct (processPacket_reported d i f p l t m) as (Hf & _)
      end.
      eapply Forall_impl; [exact Hf|]. intros h (Hh & _). exact Hh.
  - intros s hops visited s' hops' visited' (Hc & Hpos & Ht) _ B.
    apply loop_body_cases in B as (event & rest & _ & B). cbv zeta in B.
    destruct B as [B|[[_ (v & B)]|(device & _ & [[_ B]|[Hd (v & B)]])]];
      try discriminate; injection B as -> -> _;
      cbn [Simulator.trace Simulator.eventQueue Simulator.set_run EventQueue.time].
    + split; [lia|]. split; [lia|]. apply (timed_weaken _ hops); [lia|exact Ht].
    + rewrite enqueue_all_time. cbn [EventQueue.time].
      split; [lia|]. split; [lia|]. rewrite Hc. apply timed_app; [lia|exact Ht|].
      match goal with
      | |- context [processPacket ?d ?i ?f ?p ?l ?t ?m] =>
          destruct (processPacket_reported d i f p l t m) as (Hf & _)
      end.
      eapply Forall_impl; [exact Hf|]. intros h (Hh & _). exact Hh.
Qed.

(** X21. In the trace [simulate] returns the hops are in time order: the
    time of a hop never decreases along the trace. The hops of the first
    send carry time 0 and every other hop carries the number of the loop pass
    that recorded it, so every time lies between 0 and the number of passes
    made, which is also what the clock of the event queue shows at the end. *)
Theorem simulate_trace_in_time_order
    (graph_path : Graph.t -> string -> string -> option (list string))
    (fuel : nat) (s0 : Simulator.t) (packetSpec : PacketSpec.t)
    (r : SimulationResult.t) (s' : Simulator.t) (hops : Z) :
  simulate graph_path fuel s0 packetSpec = Some (r, s', hops) ->
  StronglySorted Z.le (TraceHop.time <$> SimulationResult.trace r)
  /\ (forall h, In h (SimulationResult.trace r) -> 0 <= TraceHop.time h <= hops)
  /\ EventQueue.getTime (Simulator.eventQueue s') = hops.
Proof.
  intros H.
  assert (Ht : timed (SimulationResult.trace r) hops
               /\ EventQueue.time (Simulator.eventQueue s') = hops).
  { apply simulate_seed in H as [(reason & [= -> -> ->])|
                                 (srcDevice & pid & dstMac & dstIp & ids1 & H)].
    - split; [|reflexivity]. split; constructor.
    - eapply main_loop_timed; [| | |exact H].
      + unfold seeded. cbn [Simulator.eventQueue Simulator.set_run].
        apply enqueue_all_time.
      + lia.
      + unfold seeded. cbn [Simulator.trace Simulator.set_run].
        match goal with
        | |- context [Host.sendPacket ?d ?p ?m ?i ?l ?t ?pr ?sp ?dp] =>
            pose proof (sendPacket_hops d p m i l t pr sp dp) as Hs
        end.
        apply (timed_app [] _ (-1)); [lia|split; constructor|].
        eapply Forall_impl; [exact Hs|]. intros h (Hh & _). exact Hh. }
  destruct Ht as [[Hs Hb] Hc]. split; [exact Hs|]. split; [|exact Hc].
  intros h Hh. rewrite Forall_forall in Hb. apply Hb, list_elem_of_In. exact Hh.
Qed.

(** Every key bound in [t] is bound in [t']. *)
Definition grows (t t' : MacTable) : Prop :=
  forall key e, t !! key = Some e -> exists e', t' !! key = Some e'.

(** The same node ids have a table, and no table lost a key. *)
Definition tables_persist (m m' : gmap string MacTable) : Prop :=
  (forall k, is_Some (m' !! k) <-> is_Some (m !! k))
  /\ forall k t, m !! k = Some t -> exists t', m' !! k = Some t' /\ grows t t'.

Lemma processPacket_table d ids interfaceId packet links time (table : option MacTable) :
  match table with
  | Some tb =>
      exists tb', (processPacket d ids interfaceId packet links time table).1.2 = Some tb'
                  /\ grows tb tb'
  | None => (processPacket d ids interfaceId packet links time table).1.2 = None
  end.
Proof.
  assert (Hrefl : forall tb : MacTable, exists tb', Some tb = Some tb' /\ grows tb tb').
  { intros tb. exists tb. split; [reflexivity|]. intros key e He. eauto. }
  unfold processPacket.
  destruct (Device.class d) as [| |macLearning vlanDatabase|staticRoutes|aclRules policy];
    cbn [fst snd]; try (destruct table as [tb|]; [apply Hrefl|reflexivity]).
  unfold Switch.processPacket.
  destruct (Device.getInterface d interfaceId) as [iface|];
    [|destruct table as [tb|]; [apply Hrefl|reflexivity]].
  destruct (Switch.resolveVlan packet iface) as [vlan|];
    [|destruct table as [tb|]; [apply Hrefl|reflexivity]].
  cbv zeta. cbn [fst snd]. unfold Switch.learning.
  destruct macLearning, table as [tb|]; cbn [fst snd]; try apply Hrefl; try reflexivity.
  unfold Switch.learnMacAddress.
  destruct (match tb !! macTableKey (Packet.srcMac packet) vlan with
            | Some e => negb (String.eqb (MacTableEntry.interfaceId e) interfaceId)
            | None => true
            end); cbn [fst snd]; [|apply Hrefl].
  eexists. split; [reflexivity|]. intros key e He.
  destruct (decide (macTableKey (Packet.srcMac packet) vlan = key)) as [<-|Hne].
  - eexists. apply lookup_insert_eq.
  - exists e. rewrite lookup_insert_ne by exact Hne. exact He.
Qed.

Lemma tables_persist_step m0 s device ids interfaceId packet links time :
  tables_persist m0 (Simulator.macTables s) ->
  tables_persist m0
    (tables_after s device
       (processPacket device ids interfaceId packet links time (table_for s device)).1.2).
Proof.
  intros [Hdom Hgrow].
  pose proof (processPacket_table device ids interfaceId packet links time
                (table_for s device)) as Ht.
  destruct (table_for s device) as [tb|] eqn:Htf.
  2:{ rewrite Ht. split; assumption. }
  destruct Ht as (tb' & -> & Hg). unfold tables_after.
  assert (Hid : Simulator.macTables s !! Device.getId device = Some tb).
  { unfold table_for in Htf. destruct (Device.getType device); try discriminate.
    exact Htf. }
  split.
  - intros k. rewrite <- Hdom.
    destruct (decide (Device.getId device = k)) as [<-|Hne].
    + rewrite lookup_insert_eq, Hid. split; eauto.
    + rewrite lookup_insert_ne by exact Hne. reflexivity.
  - intros k t Hk. destruct (Hgrow k t Hk) as (t1 & Ht1 & Hg1).
    destruct (decide (Device.getId device = k)) as [<-|Hne].
    + exists tb'. rewrite lookup_insert_eq. split; [reflexivity|].
      rewrite Hid in Ht1. injection Ht1 as <-.
      intros key e He. destruct (Hg1 key e He) as (e1 & He1). exact (Hg key e1 He1).
    + exists t1. rewrite lookup_insert_ne by exact Hne. auto.
Qed.

(** The parts of the simulator a run does not touch. *)
Definition same_setup (s s' : Simulator.t) : Prop :=
  Simulator.topology s' = Simulator.topology s
  /\ Simulator.options s' = Simulator.options s
  /\ Simulator.devices s' = Simulator.devices s
  /\ Simulator.graph s' = Simulator.graph s.

Lemma main_loop_persist s0 fuel s hops visited r s' hops' :
  same_setup s0 s -> tables_persist (Simulator.macTables s0) (Simulator.macTables s) ->
  Simulator.main_loop fuel s hops visited = Some (r, s', hops') ->
  same_setup s0 s' /\ tables_persist (Simulator.macTables s0) (Simulator.macTables s').
Proof.
  intros Hs Hp.
  apply (main_loop_invariant
           (fun s _ => same_setup s0 s
                       /\ tables_persist (Simulator.macTables s0) (Simulator.macTables s))
           (fun _ s' _ => same_setup s0 s'
                          /\ tables_persist (Simulator.macTables s0)
                               (Simulator.macTables s')));
    [| | |auto]; clear.
  - auto.
  - intros s hops visited r s' hops' (Hs & Hp) _ B.
    apply loop_body_cases in B as (event & rest & _ & B). cbv zeta in B.
    destruct B as [B|[[_ (v & B)]|(device & _ & [[Hd B]|[_ (v & B)]])]];
      try discriminate; injection B as _ -> _; (split; [exact Hs|]);
      cbn [Simulator.macTables Simulator.set_run]; [exact Hp|].
    apply tables_persist_step. exact Hp.
  - intros s hops visited s' hops' visited' (Hs & Hp) _ B.
    apply loop_body_cases in B as (event & rest & _ & B). cbv zeta in B.
    destruct B as [B|[[_ (v & B)]|(device & _ & [[_ B]|[Hd (v & B)]])]];
      try discriminate; injection B as -> _ _; (split; [exact Hs|]);
      cbn [Simulator.macTables Simulator.set_run]; [exact Hp|].
    apply tables_persist_step. exact Hp.
Qed.

(** X22. A call of [simulate] leaves the topology, the options, the devices
    and the graph of the simulator as they are. The MAC tables are not reset:
    after the call a table exists for exactly the node ids that had one
    before, and every key bound in a table before the call is still bound in
    it. *)
Theorem simulate_keeps_mac_tables
    (graph_path : Graph.t -> string -> string -> option (list string))
    (fuel : nat) (s0 : Simulator.t) (packetSpec : PacketSpec.t)
    (r : SimulationResult.t) (s' : Simulator.t) (hops : Z) :
  simulate graph_path fuel s0 packetSpec = Some (r, s', hops) ->
  Simulator.topology s' = Simulator.topology s0
  /\ Simulator.options s' = Simulator.options s0
  /\ Simulator.devices s' = Simulator.devices s0
  /\ Simulator.graph s' = Simulator.graph s0
  /\ (forall k, is_Some (Simulator.macTables s' !! k)
                <-> is_Some (Simulator.macTables s0 !! k))
  /\ (forall k (t : MacTable) key e,
        Simulator.macTables s0 !! k = Some t -> t !! key = Some e ->
        exists (t' : MacTable) e',
          Simulator.macTables s' !! k = Some t' /\ t' !! key = Some e').
Proof.
  intros H.
  assert (Hrefl : tables_persist (Simulator.macTables s0) (Simulator.macTables s0)).
  { split; [reflexivity|]. intros k t Hk. exists t. split; [exact Hk|].
    intros key e He. eauto. }
  assert (Hp : same_setup s0 s'
               /\ tables_persist (Simulator.macTables s0) (Simulator.macTables s')).
  { apply simulate_seed in H as [(reason & [= -> -> ->])|
                                 (srcDevice & pid & dstMac & dstIp & ids1 & H)].
    - split; [repeat split|exact Hrefl].
    - eapply main_loop_persist; [| |exact H]; [repeat split|exact Hrefl]. }
  destruct Hp as [(H1 & H2 & H3 & H4) [Hdom Hgrow]].
  repeat split; try assumption; try (apply Hdom; assumption).
  intros k t key e Hk He. destruct (Hgrow k t Hk) as (t' & Ht' & Hg).
  destruct (Hg key e He) as (e' & He'). eauto.
Qed.

(** ** The driver: what the constructor sets up *)

Definition has_id (nodeId : string) (n : SimNode.t) : bool :=
  String.eqb (SimNode.id n) nodeId.

Definition is_switch (n : SimNode.t) : bool :=
  match SimNode.type n with
  | switch => true
  | _ => false
  end.

Lemma find_snoc {A} (p : A -> bool) (l : list A) (a : A) :
  find p (l ++ [a]) = match find p l with
                      | Some x => Some x
                      | None => if p a then Some a else None
                      end.
Proof.
  induction l as [|x l IH]; cbn [app find]; [reflexivity|].
  destruct (p x); [reflexivity|exact IH].
Qed.

Lemma devices_lookup {V} (f : SimNode.t -> V) nodes (m0 : gmap string V) k :
  foldl (fun m n => <[SimNode.id n := f n]> m) m0 nodes !! k
  = match find (has_id k) (reverse nodes) with
    | Some n => Some (f n)
    | None => m0 !! k
    end.
Proof.
  revert m0. induction nodes as [|n rest IH]; intros m0; cbn [foldl]; [reflexivity|].
  rewrite IH, reverse_cons, find_snoc.
  destruct (find (has_id k) (reverse rest)) as [x|]; [reflexivity|].
  unfold has_id at 1.
  destruct (String.eqb_spec (SimNode.id n) k) as [->|Hne].
  - apply lookup_insert_eq.
  - apply lookup_insert_ne. exact Hne.
Qed.

Lemma tables_lookup nodes (m0 : gmap string MacTable) k :
  foldl (fun tables node =>
           match SimNode.type node with
           | switch => <[SimNode.id node := (∅ : MacTable)]> tables
           | _ => tables
           end) m0 nodes !! k
  = if existsb (fun n => has_id k n && is_switch n) nodes then Some ∅ else m0 !! k.
Proof.
  revert m0. induction nodes as [|n rest IH]; intros m0; cbn [foldl existsb];
    [reflexivity|].
  rewrite IH. destruct (existsb _ rest); [rewrite orb_true_r; reflexivity|].
  rewrite orb_false_r. unfold has_id, is_switch.
  destruct (SimNode.type n); rewrite ?andb_false_r; try reflexivity.
  rewrite andb_true_r.
  destruct (String.eqb_spec (SimNode.id n) k) as [->|Hne].
  - apply lookup_insert_eq.
  - apply lookup_insert_ne. exact Hne.
Qed.

Lemma find_reverse_unique nodes k :
  NoDup (SimNode.id <$> nodes) ->
  find (has_id k) (reverse nodes) = find (has_id k) nodes.
Proof.
  induction nodes as [|n rest IH]; [reflexivity|].
  cbn [fmap list_fmap]. intros Hnd. apply NoDup_cons in Hnd as [Hn Hnd].
  rewrite reverse_cons, find_snoc, (IH Hnd). cbn [find].
  destruct (has_id k n) eqn:Hk.
  - destruct (find (has_id k) rest) as [x|] eqn:F; [|reflexivity].
    exfalso. apply find_some in F as [Hx Hxk].
    unfold has_id in *. apply String.eqb_eq in Hk, Hxk.
    apply Hn. rewrite Hk, <- Hxk.
    apply list_elem_of_fmap. exists x. split; [reflexivity|].
    apply list_elem_of_In. exact Hx.
  - destruct (find (has_id k) rest); reflexivity.
Qed.

(** X23. The constructor builds one device per node id: the device under an
    id is built by the factory from the last node of the topology with that
    id, and carries that id. When the node ids are distinct it is the device
    of the node [getNodeById] returns. An empty MAC table is set up for
    exactly the ids of the nodes of type switch; the trace is empty, the
    queue is empty and the clock shows 0. *)
Theorem Simulator_new_setup (topology : SimTopology.t) (options : SimulationOptions.t)
    (ids : IdSupply.t) :
  let s := Simulator.new topology options ids in
  let nodes := SimTopology.nodes topology in
  (forall nodeId,
     Simulator.getDevice s nodeId
     = createFromSimNode <$> find (has_id nodeId) (reverse nodes))
  /\ (forall nodeId d, Simulator.getDevice s nodeId = Some d -> Device.getId d = nodeId)
  /\ (NoDup (SimNode.id <$> nodes) ->
      forall nodeId,
        Simulator.getDevice s nodeId = createFromSimNode <$> getNodeById nodes nodeId)
  /\ (forall nodeId,
        Simulator.macTables s !! nodeId
        = if existsb (fun n => has_id nodeId n && is_switch n) nodes
          then Some ∅ else None)
  /\ Simulator.trace s = []
  /\ EventQueue.isEmpty (Simulator.eventQueue s) = true
  /\ EventQueue.getTime (Simulator.eventQueue s) = 0.
Proof.
  intros s nodes. subst s nodes. unfold Simulator.getDevice, Simulator.new.
  cbn [Simulator.devices Simulator.macTables Simulator.trace Simulator.eventQueue].
  assert (Hdev : forall nodeId,
            foldl (fun devices node => <[SimNode.id node := createFromSimNode node]> devices)
              (∅ : gmap string Device.t) (SimTopology.nodes topology) !! nodeId
            = createFromSimNode <$> find (has_id nodeId)
                                      (reverse (SimTopology.nodes topology))).
  { intros nodeId. rewrite (devices_lookup createFromSimNode).
    destruct (find _ _); [reflexivity|apply lookup_empty]. }
  split; [exact Hdev|]. split; [|split; [|split; [|repeat split]]].
  - intros nodeId d. rewrite Hdev.
    destruct (find (has_id nodeId) _) as [n|] eqn:F; [|discriminate].
    intros [= <-]. apply find_some in F as [_ F]. apply String.eqb_eq in F.
    unfold Device.getId. destruct (createFromSimNode_base n) as (-> & _). exact F.
  - intros Hnd nodeId. rewrite Hdev, (find_reverse_unique _ _ Hnd). reflexivity.
  - intros nodeId. rewrite tables_lookup.
    destruct (existsb _ _); [reflexivity|apply lookup_empty].
Qed.

(** ** The validators against the parsers of the simulator *)

Arguments Validators.valid_part : simpl never.

(** The decimal spelling of an octet is read back by [Number], passes the
    part test of [isValidIp], and holds no dot. *)
Definition is_int (x : JS.number) (n : Z) : bool :=
  match x with
  | JS.Fin m 0 => m =? n
  | _ => false
  end.

Lemma is_int_spec x n : is_int x n = true -> x = JS.Int n.
Proof.
  destruct x as [| |m [|k]]; try discriminate.
  cbn [is_int]. intros H. apply Z.eqb_eq in H. subst m. reflexivity.
Qed.

Lemma octet_spelling n :
  0 <= n <= 255 ->
  JS.Number (pretty n) = JS.Int n
  /\ Validators.valid_part (pretty n) = true
  /\ JS.includes "." (pretty n) = false.
Proof.
  intros Hn.
  assert (Hall : forallb (fun k : nat =>
                            let n := Z.of_nat k in
                            is_int (JS.Number (pretty n)) n
                            && Validators.valid_part (pretty n)
                            && negb (JS.includes "." (pretty n)))
                         (seq 0 256) = true)
    by (vm_compute; reflexivity).
  rewrite forallb_forall in Hall. specialize (Hall (Z.to_nat n)).
  cbv zeta in Hall. rewrite Z2Nat.id in Hall by lia.
  assert (Hin : In (Z.to_nat n) (seq 0 256)) by (apply in_seq; lia).
  apply Hall in Hin. apply andb_true_iff in Hin as [Hin H3].
  apply andb_true_iff in Hin as [H1 H2]. apply negb_true_iff in H3.
  split; [|auto]. apply is_int_spec. exact H1.
Qed.

Lemma valid_part_octet part :
  Validators.valid_part part = true ->
  exists n, 0 <= n <= 255 /\ part = pretty n.
Proof.
  unfold Validators.valid_part.
  destruct (JS.parseInt (Some part) 10) as [| |num [|k]]; try discriminate.
  intros H. apply andb_true_iff in H as [H H3]. apply andb_true_iff in H as [H1 H2].
  apply Z.leb_le in H1, H2. apply String.eqb_eq in H3. eauto.
Qed.

Lemma isValidIp_parts ip :
  Validators.isValidIp ip = true ->
  exists a b c d,
    JS.split "." ip = [pretty a; pretty b; pretty c; pretty d]
    /\ Cidr.octet a /\ Cidr.octet b /\ Cidr.octet c /\ Cidr.octet d.
Proof.
  unfold Validators.isValidIp.
  destruct (JS.split "." ip) as [|p1 [|p2 [|p3 [|p4 [|p5 rest]]]]];
    cbn [length Nat.eqb negb]; try discriminate.
  cbn [forallb]. intros H.
  apply andb_true_iff in H as [H1 H]. apply andb_true_iff in H as [H2 H].
  apply andb_true_iff in H as [H3 H]. apply andb_true_iff in H as [H4 _].
  apply valid_part_octet in H1 as (a & Ha & ->), H2 as (b & Hb & ->),
    H3 as (c & Hc & ->), H4 as (d & Hd & ->).
  exists a, b, c, d. auto.
Qed.

Lemma isValidIp_reads ip :
  Validators.isValidIp ip = true -> exists x, Cidr.reads_ip ip x.
Proof.
  intros H. apply isValidIp_parts in H as (a & b & c & d & Hs & Ha & Hb & Hc & Hd).
  exists (Cidr.ip_value a b c d), a, b, c, d. rewrite Hs. cbn [map].
  rewrite (proj1 (octet_spelling a Ha)), (proj1 (octet_spelling b Hb)),
    (proj1 (octet_spelling c Hc)), (proj1 (octet_spelling d Hd)).
  auto 10.
Qed.

Lemma isValidCidr_reads cidr :
  Validators.isValidCidr cidr = true -> exists net p, Cidr.reads_cidr cidr net p.
Proof.
  unfold Validators.isValidCidr.
  destruct (JS.split "/" cidr) as [|addr [|len [|more rest]]] eqn:Hs; try discriminate.
  destruct (Validators.isValidIp addr) eqn:Hip; [|discriminate]. cbn [negb].
  destruct (JS.parseInt (Some len) 10) as [| |p [|k]] eqn:Hp; try discriminate.
  intros H. apply andb_true_iff in H as [H1 H2]. apply Z.leb_le in H1, H2.
  destruct (isValidIp_reads addr Hip) as (net & Hnet).
  exists net, p, addr, len. auto.
Qed.

(** X24. An address [isValidIp] accepts and a prefix [isValidCidr] accepts are
    texts the simulator reads as intended: the address as four octets, the
    prefix as a network and a length from 0 to 32. On such inputs
    [ipInSubnet] is standard CIDR containment: it holds exactly when the
    address and the network agree on the first [length] bits. *)
Theorem validated_subnet_test (ip cidr : string) :
  Validators.isValidIp ip = true ->
  Validators.isValidCidr cidr = true ->
  exists x net p,
    Cidr.reads_ip ip x /\ Cidr.reads_cidr cidr net p
    /\ (ipInSubnet ip cidr = true <-> Cidr.contains x net p).
Proof.
  intros Hip Hc.
  destruct (isValidIp_reads ip Hip) as (x & Hx).
  destruct (isValidCidr_reads cidr Hc) as (net & p & Hn).
  exists x, net, p. split; [exact Hx|]. split; [exact Hn|].
  apply ipInSubnet_standard; assumption.
Qed.

Lemma validated_subnet_test_witness :
  Validators.isValidIp "10.0.1.10" = true
  /\ Validators.isValidCidr "10.0.1.1/24" = true
  /\ exists x net p,
       Cidr.reads_ip "10.0.1.10" x /\ Cidr.reads_cidr "10.0.1.1/24" net p
       /\ (ipInSubnet "10.0.1.10" "10.0.1.1/24" = true <-> Cidr.contains x net p).
Proof.
  assert (H1 : Validators.isValidIp "10.0.1.10" = true) by (vm_compute; reflexivity).
  assert (H2 : Validators.isValidCidr "10.0.1.1/24" = true) by (vm_compute; reflexivity).
  split; [exact H1|]. split; [exact H2|].
  exact (validated_subnet_test "10.0.1.10" "10.0.1.1/24" H1 H2).
Defined.

(** The text [a.b.c.d]. *)
Definition dotted (a b c d : Z) : string :=
  pretty a +:+ "." +:+ pretty b +:+ "." +:+ pretty c +:+ "." +:+ pretty d.

(** [parts.join(sep)] for a one-character separator. *)
Fixpoint join (sep : ascii) (parts : list string) : string :=
  match parts with
  | [] => ""
  | x :: rest =>
      match rest with
      | [] => x
      | _ :: _ => x +:+ String sep (join sep rest)
      end
  end.

Lemma join_cons_char sep c x xs :
  join sep (String c x :: xs) = String c (join sep (x :: xs)).
Proof. cbn [join]. destruct xs; reflexivity. Qed.

Lemma split_cons sep c r :
  JS.split sep (String c r) =
    if Ascii.eqb c sep then EmptyString :: JS.split sep r
    else match JS.split sep r with
         | [] => [String c EmptyString]
         | x :: xs => String c x :: xs
         end.
Proof. reflexivity. Qed.

Lemma split_nonempty sep s : JS.split sep s <> [].
Proof.
  destruct s as [|c r]; [discriminate|]. rewrite split_cons.
  destruct (Ascii.eqb c sep); [discriminate|]. destruct (JS.split sep r); discriminate.
Qed.

(** Joining the parts of a split gives the text back. *)
Lemma join_split sep s : join sep (JS.split sep s) = s.
Proof.
  induction s as [|c r IH]; [reflexivity|]. rewrite split_cons.
  destruct (Ascii.eqb_spec c sep) as [->|Hne].
  - pose proof (split_nonempty sep r) as Hne.
    cbn [join]. destruct (JS.split sep r) as [|x xs]; [congruence|].
    rewrite IH. reflexivity.
  - pose proof (split_nonempty sep r) as Hnil.
    destruct (JS.split sep r) as [|x xs]; [congruence|].
    rewrite join_cons_char, IH. reflexivity.
Qed.

Lemma split_no_sep sep a : JS.includes sep a = false -> JS.split sep a = [a].
Proof.
  induction a as [|c r IH]; [reflexivity|]. cbn [JS.includes]. intros H.
  apply orb_false_iff in H as [Hc Hr]. rewrite split_cons, Hc, (IH Hr). reflexivity.
Qed.

Lemma append_nil_l s : "" +:+ s = s.
Proof. reflexivity. Qed.

Lemma append_cons c r s : String c r +:+ s = String c (r +:+ s).
Proof. reflexivity. Qed.

Lemma split_app sep a b :
  JS.includes sep a = false ->
  JS.split sep (a +:+ String sep b) = a :: JS.split sep b.
Proof.
  induction a as [|c r IH]; cbn [JS.includes].
  - intros _. rewrite append_nil_l, split_cons, Ascii.eqb_refl. reflexivity.
  - intros H. apply orb_false_iff in H as [Hc Hr].
    rewrite append_cons, split_cons, Hc, (IH Hr). reflexivity.
Qed.

(** X25. [isValidIp] accepts exactly the canonical dotted quads: the texts
    [a.b.c.d] where each of the four numbers lies between 0 and 255 and is
    written in decimal without sign, leading zero or space. *)
Theorem isValidIp_canonical (ip : string) :
  Validators.isValidIp ip = true
  <-> exists a b c d,
        Cidr.octet a /\ Cidr.octet b /\ Cidr.octet c /\ Cidr.octet d
        /\ ip = dotted a b c d.
Proof.
  split.
  - intros H. apply isValidIp_parts in H as (a & b & c & d & Hs & Ha & Hb & Hc & Hd).
    exists a, b, c, d. repeat split; try apply Ha; try apply Hb; try apply Hc;
      try apply Hd.
    rewrite <- (join_split "." ip), Hs. reflexivity.
  - intros (a & b & c & d & Ha & Hb & Hc & Hd & ->).
    destruct (octet_spelling a Ha) as (_ & Va & Ia).
    destruct (octet_spelling b Hb) as (_ & Vb & Ib).
    destruct (octet_spelling c Hc) as (_ & Vc & Ic).
    destruct (octet_spelling d Hd) as (_ & Vd & Id).
    unfold Validators.isValidIp, dotted.
    change (pretty a +:+ "." +:+ pretty b +:+ "." +:+ pretty c +:+ "." +:+ pretty d)
      with (pretty a +:+ String "." (pretty b +:+ String "." (pretty c
              +:+ String "." (pretty d)))).
    rewrite (split_app "." _ _ Ia), (split_app "." _ _ Ib), (split_app "." _ _ Ic),
      (split_no_sep "." _ Id).
    cbn [length Nat.eqb negb forallb]. rewrite Va, Vb, Vc, Vd. reflexivity.
Qed.

(** ** The generators *)

(** *** Decimal spellings read back *)

(** A text of decimal digits only. *)
Fixpoint all_digits (s : string) : bool :=
  match s with
  | EmptyString => true
  | String c r =>
      let n := Z.of_nat (nat_of_ascii c) in
      (48 <=? n) && (n <=? 57) && all_digits r
  end.

Lemma pretty_N_char_digit (m : N) :
  (m < 10)%N ->
  JS.digit_val (pretty_N_char m) = Some (Z.of_N m)
  /\ all_digits (String (pretty_N_char m) "") = true
  /\ JS.parseInt (Some (String (pretty_N_char m) "")) 10 = JS.Int (Z.of_N m).
Proof.
  intros Hm.
  assert (H : (m = 0 \/ m = 1 \/ m = 2 \/ m = 3 \/ m = 4 \/ m = 5 \/ m = 6 \/ m = 7
               \/ m = 8 \/ m = 9)%N) by lia.
  repeat destruct H as [H|H]; subst m; vm_compute; auto.
Qed.

(** Reading the digits of [s] after the value [v] was read. *)
Lemma digits_prefix_char (m : N) s acc :
  (m < 10)%N ->
  JS.digits_prefix 10 (String (pretty_N_char m) s) acc
  = JS.digits_prefix 10 s (Some (default 0 acc * 10 + Z.of_N m)).
Proof.
  intros Hm. cbn [JS.digits_prefix].
  rewrite (proj1 (pretty_N_char_digit m Hm)).
  replace (Z.of_N m <? 10) with true by (symmetry; apply Z.ltb_lt; lia).
  reflexivity.
Qed.

Lemma digits_prefix_go (x : N) :
  forall s, (0 < x)%N ->
    JS.digits_prefix 10 (pretty_N_go x s) None = JS.digits_prefix 10 s (Some (Z.of_N x)).
Proof.
  induction (N.lt_wf_0 x) as [x _ IH]. intros s Hx.
  rewrite pretty_N_go_step by exact Hx.
  assert (Hm : (x `mod` 10 < 10)%N) by (apply N.mod_lt; lia).
  destruct (N.eq_dec (x `div` 10)%N 0%N) as [Hq|Hq].
  - rewrite Hq, pretty_N_go_0, digits_prefix_char by exact Hm.
    cbn [default from_option id]. do 2 f_equal.
    pose proof (N.div_mod x 10 ltac:(lia)) as E. rewrite Hq in E. lia.
  - rewrite IH;
      [|first [apply N.neq_0_lt_0; exact Hq | apply N.div_lt; lia]..].
    rewrite digits_prefix_char by exact Hm. cbn [default from_option id]. do 2 f_equal.
    pose proof (N.div_mod x 10 ltac:(lia)) as E. lia.
Qed.

(** The decimal spelling of a positive number starts with a digit, holds
    digits only, and so neither a dot nor a slash. *)
Lemma pretty_N_go_shape (x : N) :
  forall s, (0 < x)%N ->
    (exists m r, (m < 10)%N /\ pretty_N_go x s = String (pretty_N_char m) r)
    /\ (all_digits s = true -> all_digits (pretty_N_go x s) = true).
Proof.
  induction (N.lt_wf_0 x) as [x _ IH]. intros s Hx.
  rewrite pretty_N_go_step by exact Hx.
  assert (Hm : (x `mod` 10 < 10)%N) by (apply N.mod_lt; lia).
  assert (Hd : all_digits s = true ->
               all_digits (String (pretty_N_char (x `mod` 10)) s) = true).
  { intros Hs. pose proof (proj1 (proj2 (pretty_N_char_digit _ Hm))) as Hc.
    cbn [all_digits] in Hc |- *. rewrite andb_true_r in Hc. rewrite Hc, Hs.
    reflexivity. }
  destruct (N.eq_dec (x `div` 10)%N 0%N) as [Hq|Hq].
  - rewrite Hq, pretty_N_go_0. split; [eauto|exact Hd].
  - destruct (IH (x `div` 10)%N) with (s := String (pretty_N_char (x `mod` 10)) s)
      as [Hhead Hall]; [apply N.div_lt; lia|apply N.neq_0_lt_0; exact Hq|].
    split; [exact Hhead|]. intros Hs. apply Hall, Hd, Hs.
Qed.

Lemma all_digits_excludes c s :
  all_digits s = true ->
  (Z.of_nat (nat_of_ascii c) < 48 \/ 57 < Z.of_nat (nat_of_ascii c)) ->
  JS.includes c s = false.
Proof.
  intros Hs Hc. induction s as [|a r IH]; [reflexivity|].
  cbn [all_digits JS.includes] in *.
  apply andb_true_iff in Hs as [Ha Hr]. apply andb_true_iff in Ha as [H1 H2].
  apply Z.leb_le in H1, H2. rewrite (IH Hr), orb_false_r.
  apply Ascii.eqb_neq. intros ->. lia.
Qed.

(** No white space is skipped before a digit. *)
Lemma skip_ws_digit (m : N) r :
  (m < 10)%N ->
  JS.skip_ws (String (pretty_N_char m) r) = String (pretty_N_char m) r.
Proof.
  intros Hm.
  assert (H : (m = 0 \/ m = 1 \/ m = 2 \/ m = 3 \/ m = 4 \/ m = 5 \/ m = 6 \/ m = 7
               \/ m = 8 \/ m = 9)%N) by lia.
  repeat destruct H as [H|H]; subst m; destruct r as [|d [|e r2]]; reflexivity.
Qed.

Lemma parseInt_digit_head (m : N) r :
  (m < 10)%N ->
  JS.parseInt (Some (String (pretty_N_char m) r)) 10
  = match JS.digits_prefix 10 (String (pretty_N_char m) r) None with
    | Some n => JS.of_Z n
    | None => JS.NaN
    end.
Proof.
  intros Hm. unfold JS.parseInt. cbn [default from_option id].
  rewrite skip_ws_digit by exact Hm.
  assert (H : (m = 0 \/ m = 1 \/ m = 2 \/ m = 3 \/ m = 4 \/ m = 5 \/ m = 6 \/ m = 7
               \/ m = 8 \/ m = 9)%N) by lia.
  repeat destruct H as [H|H]; subst m; cbn [pretty_N_char];
    change (10 =? 16) with false; cbv beta iota zeta;
    match goal with
    | |- match ?d with Some _ => _ | None => _ end = _ => destruct d; reflexivity
    end.
Qed.

(** [parseInt] reads the decimal spelling of a natural number back, as the
    nearest double. *)
Lemma parseInt_pretty (n : Z) :
  0 <= n ->
  JS.parseInt (Some (pretty n)) 10 = JS.of_Z n
  /\ JS.includes "." (pretty n) = false /\ JS.includes "/" (pretty n) = false.
Proof.
  intros Hn. destruct n as [|p|p]; [vm_compute; auto| |lia].
  change (pretty (Z.pos p)) with (pretty_N_go (N.pos p) "").
  destruct (pretty_N_go_shape (N.pos p) "" ltac:(lia)) as [(m & r & Hm & E) Hall].
  specialize (Hall eq_refl). split; [|split].
  - rewrite E, parseInt_digit_head by exact Hm. rewrite <- E.
    rewrite digits_prefix_go by lia. reflexivity.
  - apply all_digits_excludes; [exact Hall|]. vm_compute. left. reflexivity.
  - apply all_digits_excludes; [exact Hall|]. vm_compute. left. reflexivity.
Qed.

Lemma append_assoc a b c : (a +:+ b) +:+ c = a +:+ (b +:+ c).
Proof. induction a as [|x a IH]; [reflexivity|]. rewrite !append_cons, IH. reflexivity. Qed.

Lemma includes_app c a b : JS.includes c (a +:+ b) = JS.includes c a || JS.includes c b.
Proof.
  induction a as [|x a IH]; [reflexivity|]. rewrite append_cons. cbn [JS.includes].
  rewrite IH, orb_assoc. reflexivity.
Qed.

(** X26. For a node index that is not negative, [generateDefaultIp] yields a
    text [isValidCidr] accepts exactly when the index is at most 245: from
    index 246 on the last octet exceeds 255. *)
Theorem generateDefaultIp_valid (index : Z) :
  0 <= index ->
  Validators.isValidCidr (Validators.generateDefaultIp index) = true <-> index <= 245.
Proof.
  intros Hi. unfold Validators.generateDefaultIp.
  destruct (parseInt_pretty (10 + index)) as (Hp & Hdot & Hslash); [lia|].
  set (n := 10 + index) in *.
  rewrite <- append_assoc.
  change (("192.168.1." +:+ pretty n) +:+ "/24")
    with (("192.168.1." +:+ pretty n) +:+ String "/" "24").
  unfold Validators.isValidCidr.
  rewrite split_app by (rewrite includes_app, Hslash; reflexivity).
  change (JS.split "/" "24") with ["24"].
  change (JS.parseInt (Some "24") 10) with (JS.Int 24).
  cbv beta iota delta [JS.Int].
  change ((0 <=? 24) && (24 <=? 32)) with true.
  assert (Hpart : Validators.valid_part (pretty n) = (n <=? 255)).
  { unfold Validators.valid_part. rewrite Hp.
    destruct (Z.lt_ge_cases n (2 ^ 53)) as [Hs|Hl].
    - rewrite of_Z_small by lia. cbv beta iota delta [JS.Int].
      rewrite String.eqb_refl.
      replace (0 <=? n) with true by (symmetry; apply Z.leb_le; lia).
      cbn [andb]. apply andb_true_r.
    - assert (Hbig : (n <=? 255) = false).
      { apply Z.leb_gt. change (2 ^ 53) with 9007199254740992 in Hl. lia. }
      rewrite Hbig.
      destruct (of_Z_large n Hl) as [->|(v & -> & Hv)]; [reflexivity|].
      cbv beta iota delta [JS.Int].
      replace (v <=? 255) with false
        by (symmetry; apply Z.leb_gt; change (2 ^ 53) with 9007199254740992 in Hv; lia).
      rewrite andb_false_r. reflexivity. }
  assert (Hip : Validators.isValidIp ("192.168.1." +:+ pretty n) = (n <=? 255)).
  { unfold Validators.isValidIp.
    change ("192.168.1." +:+ pretty n)
      with ("192" +:+ String "." ("168" +:+ String "." ("1" +:+ String "." (pretty n)))).
    rewrite (split_app "." "192"), (split_app "." "168"), (split_app "." "1"),
      (split_no_sep "." _ Hdot) by reflexivity.
    cbn [length Nat.eqb negb forallb].
    change (Validators.valid_part "192") with true.
    change (Validators.valid_part "168") with true.
    change (Validators.valid_part "1") with true.
    rewrite Hpart. cbn [andb]. rewrite !andb_true_r. reflexivity. }
  rewrite Hip. destruct (Z.leb_spec n 255); cbn [negb]; subst n; split; intros; try lia;
    try reflexivity; discriminate.
Qed.

Lemma generateDefaultIp_valid_witness :
  0 <= 7
  /\ (Validators.isValidCidr (Validators.generateDefaultIp 7) = true <-> 7 <= 245)
  /\ Validators.generateDefaultIp 7 = "192.168.1.17/24".
Proof.
  assert (H : 0 <= 7) by lia.
  split; [exact H|]. split; [exact (generateDefaultIp_valid 7 H)|].
  vm_compute. reflexivity.
Defined.

Lemma hexDigit_spec k :
  0 <= k < 16 ->
  exists c, Validators.hexDigit k = String c "" /\ Validators.is_hex c = true.
Proof.
  intros Hk.
  assert (H : k = 0 \/ k = 1 \/ k = 2 \/ k = 3 \/ k = 4 \/ k = 5 \/ k = 6 \/ k = 7
              \/ k = 8 \/ k = 9 \/ k = 10 \/ k = 11 \/ k = 12 \/ k = 13 \/ k = 14
              \/ k = 15) by lia.
  repeat destruct H as [H|H]; subst k; eexists; split; vm_compute; reflexivity.
Qed.

Lemma locally_administered_unicast z :
  isMulticastMac (String "0" (String "2" (String ":" z))) = false
  /\ isBroadcastMac (String "0" (String "2" (String ":" z))) = false.
Proof. split; vm_compute; reflexivity. Qed.

(** X27. Whatever the random digits drawn, the address [generateMac]
    builds is one [isValidMac] accepts, and the simulator treats it as a
    unicast address: it is neither multicast nor the broadcast address, so a
    switch floods a frame for it only while the address is unknown. *)
Theorem generateMac_valid_unicast (rand : nat -> Z) :
  (forall n, 0 <= rand n < 16) ->
  Validators.isValidMac (Validators.generateMac rand) = true
  /\ isMulticastMac (Validators.generateMac rand) = false
  /\ isBroadcastMac (Validators.generateMac rand) = false.
Proof.
  intros Hr. unfold Validators.generateMac. cbn [Validators.generateMac_loop].
  destruct (hexDigit_spec _ (Hr 0%nat)) as (c0 & -> & H0).
  destruct (hexDigit_spec _ (Hr 1%nat)) as (c1 & -> & H1).
  destruct (hexDigit_spec _ (Hr 2%nat)) as (c2 & -> & H2).
  destruct (hexDigit_spec _ (Hr 3%nat)) as (c3 & -> & H3).
  destruct (hexDigit_spec _ (Hr 4%nat)) as (c4 & -> & H4).
  destruct (hexDigit_spec _ (Hr 5%nat)) as (c5 & -> & H5).
  destruct (hexDigit_spec _ (Hr 6%nat)) as (c6 & -> & H6).
  destruct (hexDigit_spec _ (Hr 7%nat)) as (c7 & -> & H7).
  destruct (hexDigit_spec _ (Hr 8%nat)) as (c8 & -> & H8).
  destruct (hexDigit_spec _ (Hr 9%nat)) as (c9 & -> & H9).
  cbv beta iota delta [String.append].
  split; [|apply locally_administered_unicast].
  unfold Validators.isValidMac. cbn [Validators.mac_groups].
  rewrite H0, H1, H2, H3, H4, H5, H6, H7, H8, H9. reflexivity.
Qed.

Lemma generateMac_valid_unicast_witness :
  (forall n : nat, 0 <= Z.of_nat n mod 16 < 16)
  /\ Validators.generateMac (fun n => Z.of_nat n mod 16) = "02:01:23:45:67:89"
  /\ Validators.isValidMac (Validators.generateMac (fun n => Z.of_nat n mod 16)) = true
  /\ isMulticastMac (Validators.generateMac (fun n => Z.of_nat n mod 16)) = false
  /\ isBroadcastMac (Validators.generateMac (fun n => Z.of_nat n mod 16)) = false.
Proof.
  assert (Hr : forall n : nat, 0 <= Z.of_nat n mod 16 < 16)
    by (intros n; apply Z.mod_pos_bound; lia).
  split; [exact Hr|]. split; [vm_compute; reflexivity|].
  exact (generateMac_valid_unicast (fun n => Z.of_nat n mod 16) Hr).
Defined.

(** ** Subnets: the two extreme prefix lengths, and nesting *)

Lemma reads_ip_range s x : Cidr.reads_ip s x -> 0 <= x < 2 ^ 32.
Proof.
  intros (a & b & c & d & _ & Ha & Hb & Hc & Hd & ->). apply ip_value_range; assumption.
Qed.

(** X28. On well-formed texts: a prefix of length 0 contains every address; a
    prefix of length 32 contains exactly the address equal to its own; and an
    address inside a prefix is inside every shorter prefix of the same
    network address. *)
Theorem ipInSubnet_extremes_and_nesting (ip cidr : string) (x net p : Z) :
  Cidr.reads_ip ip x -> Cidr.reads_cidr cidr net p ->
  (p = 0 -> ipInSubnet ip cidr = true)
  /\ (p = 32 -> (ipInSubnet ip cidr = true <-> x = net))
  /\ (forall shorter q,
        Cidr.reads_cidr shorter net q -> q <= p ->
        ipInSubnet ip cidr = true -> ipInSubnet ip shorter = true).
Proof.
  intros Hx Hc.
  pose proof (ipInSubnet_standard ip cidr x net p Hx Hc) as Hstd.
  pose proof (reads_ip_range ip x Hx) as Rx.
  assert (Rn : 0 <= net < 2 ^ 32).
  { destruct Hc as (addr & len & _ & Hnet & _). exact (reads_ip_range _ _ Hnet). }
  split; [|split].
  - intros ->. apply Hstd. unfold Cidr.contains. cbn [Z.sub Z.opp Z.add].
    rewrite !Z.shiftr_div_pow2, !Z.div_small by lia. reflexivity.
  - intros ->. rewrite Hstd. unfold Cidr.contains. cbn [Z.sub Z.opp Z.add Z.pos_sub].
    rewrite !Z.shiftr_0_r. reflexivity.
  - intros shorter q Hq Hle Hin.
    assert (Hq0 : 0 <= q) by (destruct Hq as (addr & len & _ & _ & _ & Hr); lia).
    apply (ipInSubnet_standard ip shorter x net q Hx Hq).
    apply Hstd in Hin. unfold Cidr.contains in *.
    replace (32 - q) with ((32 - p) + (p - q)) by lia.
    assert (Hp : p <= 32) by (destruct Hc as (addr & len & _ & _ & _ & Hr); lia).
    rewrite <- !Z.shiftr_shiftr by lia. rewrite Hin. reflexivity.
Qed.

(** ** Topology conversion: the endpoints of the links *)

Lemma find_present {A} (p : A -> bool) (l : list A) x :
  In x l -> p x = true -> exists y, find p l = Some y.
Proof.
  intros Hin Hp. destruct (find p l) as [y|] eqn:F; [eauto|].
  rewrite (find_none _ _ F x Hin) in Hp. discriminate.
Qed.

(** The interface id [getInterfaceForConnection] answers with names an
    interface of the node, unless the node is unknown, has no interface, or
    has a first interface with the empty id and the handle names none: then
    the answer is ["eth0"]. *)
Lemma getInterfaceForConnection_names simNodes nodeId handleId :
  let answer := getInterfaceForConnection simNodes nodeId handleId in
  match getNodeById simNodes nodeId with
  | None => answer = "eth0"
  | Some node =>
      match head (SimNode.interfaces node) with
      | None => answer = "eth0"
      | Some first =>
          SimInterface.id first <> "" ->
          exists iface, getInterfaceById node answer = Some iface
      end
  end.
Proof.
  unfold getInterfaceForConnection, getNodeById, getInterfaceById.
  destruct (find _ simNodes) as [node|]; [|reflexivity].
  destruct (JS.truthy handleId
            && existsb (fun i => Device.opt_str_eqb (Some (SimInterface.id i)) handleId)
                 (SimNode.interfaces node)) eqn:Hh.
  - apply andb_true_iff in Hh as [_ Hex]. apply existsb_exists in Hex as (i & Hin & Hi).
    apply opt_str_eqb_eq in Hi. rewrite <- Hi. cbn [default from_option id].
    destruct (SimNode.interfaces node) as [|first rest] eqn:E; [destruct Hin|].
    cbn [head]. intros _. rewrite <- E in *.
    apply (find_present _ _ i Hin). apply String.eqb_refl.
  - destruct (SimNode.interfaces node) as [|first rest] eqn:E; cbn [head];
      [reflexivity|].
    intros Hne. apply String.eqb_neq in Hne. rewrite Hne.
    apply (find_present _ _ first); [left; reflexivity|apply String.eqb_refl].
Qed.

(** X29. [convertTopology] keeps the nodes in order with their ids and the
    edges in order with their ids and the ids of the nodes they join. Each
    endpoint of a link names an interface the node has, whenever the node is
    in the topology and its first interface has a non-empty id; for a node
    that is unknown or has no interface the endpoint names ["eth0"]. *)
Theorem convertTopology_endpoints (nodes : list EditorNode.t) (edges : list EditorEdge.t) :
  let t := convertTopology nodes edges in
  SimNode.id <$> SimTopology.nodes t = EditorNode.id <$> nodes
  /\ SimLink.id <$> SimTopology.links t = EditorEdge.id <$> edges
  /\ (fun l => Endpoint.nodeId (SimLink.source l)) <$> SimTopology.links t
     = EditorEdge.source <$> edges
  /\ (fun l => Endpoint.nodeId (SimLink.target l)) <$> SimTopology.links t
     = EditorEdge.target <$> edges
  /\ forall link e,
       In link (SimTopology.links t) ->
       e = SimLink.source link \/ e = SimLink.target link ->
       match getNodeById (SimTopology.nodes t) (Endpoint.nodeId e) with
       | None => Endpoint.interfaceId e = "eth0"
       | Some node =>
           match head (SimNode.interfaces node) with
           | None => Endpoint.interfaceId e = "eth0"
           | Some first =>
               SimInterface.id first <> "" ->
               exists iface, getInterfaceById node (Endpoint.interfaceId e) = Some iface
           end
       end.
Proof.
  intros t. subst t. unfold convertTopology.
  cbn [SimTopology.nodes SimTopology.links].
  split; [|split; [|split; [|split]]].
  - rewrite <- list_fmap_compose. reflexivity.
  - unfold fmap at 1. rewrite <- list_fmap_compose. reflexivity.
  - unfold fmap at 1. rewrite <- list_fmap_compose. reflexivity.
  - unfold fmap at 1. rewrite <- list_fmap_compose. reflexivity.
  - intros link e Hin He. apply in_map_iff in Hin as (edge & <- & _).
    cbn [SimLink.source SimLink.target] in He. destruct He as [-> | ->];
      cbn [Endpoint.nodeId Endpoint.interfaceId];
      apply getInterfaceForConnection_names.
Qed.

(** ** The graph analyzer: neighbourhoods *)

(** X30. In the graph the analyzer builds, a node other than the one named
    ["undefined"] has no neighbour and is directly connected to no node,
    whatever the links of the topology; so the isolation test of
    [validateTopology] reports every such node of the topology. *)
Theorem analyzer_sees_no_neighbours (topology : SimTopology.t) (a b : string) :
  a <> "undefined" ->
  let g := buildGraph topology in
  GraphAnalyzer.getNeighbors g a = []
  /\ GraphAnalyzer.areDirectlyConnected g a b = false
  /\ GraphAnalyzer.areDirectlyConnected g b a = false
  /\ forall node, In node (SimTopology.nodes topology) -> SimNode.id node = a ->
                  In node (GraphAnalyzer.isolated topology).
Proof.
  intros Ha g. pose proof (buildGraph_edges topology) as Hg. fold g in Hg.
  assert (Hn : GraphAnalyzer.getNeighbors g a = []).
  { unfold GraphAnalyzer.getNeighbors, GraphAnalyzer.neighbors.
    destruct (bool_decide (a ∈ Graph.nodes g)); [|reflexivity].
    cbn [default from_option id].
    replace (omap _ (Graph.edges g)) with (@nil string); [reflexivity|].
    symmetry. unfold only_undefined_loops in Hg.
    induction (Graph.edges g) as [|e es IH]; [reflexivity|].
    cbn [omap list_omap]. rewrite (Hg e (or_introl eq_refl)). cbn [fst snd].
    replace (String.eqb "undefined" a) with false
      by (symmetry; apply String.eqb_neq; congruence).
    apply IH. intros e' He'. apply Hg. right. exact He'. }
  assert (He : forall v w, v = a \/ w = a -> GraphAnalyzer.hasEdge g v w = false).
  { intros v w Hvw. unfold GraphAnalyzer.hasEdge. apply bool_decide_eq_false.
    intros [H|H]; apply list_elem_of_In, Hg in H; injection H as -> ->;
      destruct Hvw; congruence. }
  split; [exact Hn|]. unfold GraphAnalyzer.areDirectlyConnected.
  rewrite !He by auto. split; [reflexivity|]. split; [reflexivity|].
  intros node Hin Hid. unfold GraphAnalyzer.isolated. apply filter_In.
  split; [exact Hin|]. fold g. rewrite Hid, Hn. reflexivity.
Qed.

(** * Examples on a small network

    Two hosts on VLAN 10 of a switch, whose trunk leads to a router; behind
    the router a firewall that lets ICMP through. *)

Definition lab_ids : IdSupply.t := IdSupply.mk (fun n => "pkt-" +:+ pretty n) 0.

Definition lab_host1 : SimNode.t :=
  SimNode.mk "h1" host "Host 1"
    [SimInterface.mk "eth0" "02:00:00:00:00:01" (Some "10.0.0.10/24") None None None]
    None None None None None.

Definition lab_host2 : SimNode.t :=
  SimNode.mk "h2" host "Host 2"
    [SimInterface.mk "eth0" "02:00:00:00:00:02" (Some "10.0.0.11/24") None None None]
    None None None None None.

Definition lab_p1 : SimInterface.t :=
  SimInterface.mk "p1" "02:00:00:00:10:01" None (Some 10) (Some access) None.

Definition lab_p3 : SimInterface.t :=
  SimInterface.mk "p3" "02:00:00:00:10:03" None None (Some trunk) (Some [10; 20]).

Definition lab_switch : SimNode.t :=
  SimNode.mk "sw" switch "Switch"
    [lab_p1;
     SimInterface.mk "p2" "02:00:00:00:10:02" None (Some 10) (Some access) None;
     lab_p3]
    (Some true) (Some [10; 20]) None None None.

Definition lab_routes : list StaticRoute.t :=
  [StaticRoute.mk "172.16.0.0/12" "10.0.9.9" "eth9";
   StaticRoute.mk "192.168.0.0/16" "10.0.1.2" "eth1"].

Definition lab_r1 : SimInterface.t :=
  SimInterface.mk "eth1" "02:00:00:00:20:01" (Some "10.0.1.1/24") None None None.

Definition lab_router : Device.t :=
  Device.mk "r" "Router" router
    [SimInterface.mk "eth0" "02:00:00:00:20:00" (Some "10.0.0.1/24") None None None;
     lab_r1]
    (RouterDevice lab_routes).

Definition lab_rules : list AclRule.t :=
  [AclRule.mk "allow-icmp" 10 allow None None (Some "icmp") None None].

Definition lab_firewall : SimNode.t :=
  SimNode.mk "fw" firewall "Firewall"
    [SimInterface.mk "eth0" "02:00:00:00:30:00" (Some "10.0.1.2/24") None None None;
     SimInterface.mk "eth1" "02:00:00:00:30:01" (Some "192.168.0.1/16") None None None]
    None None None (Some lab_rules) (Some deny).

Definition lab_links : list SimLink.t :=
  [SimLink.mk "l1" (Endpoint.mk "h1" "eth0") (Endpoint.mk "sw" "p1");
   SimLink.mk "l2" (Endpoint.mk "sw" "p2") (Endpoint.mk "h2" "eth0");
   SimLink.mk "l3" (Endpoint.mk "sw" "p3") (Endpoint.mk "r" "eth0");
   SimLink.mk "l4" (Endpoint.mk "r" "eth1") (Endpoint.mk "fw" "eth0");
   SimLink.mk "l5" (Endpoint.mk "fw" "eth1") (Endpoint.mk "h3" "eth0")].

Definition lab_topology : SimTopology.t :=
  SimTopology.mk [lab_host1; lab_host2; lab_switch; lab_firewall] lab_links.

(** A broadcast from host 1, a frame for host 2, and a packet for an address
    behind the firewall. *)
Definition lab_broadcast : Packet.t :=
  Packet.mk "pkt-0" "02:00:00:00:00:01" "FF:FF:FF:FF:FF:FF" (Some "10.0.0.10")
    (Some "10.0.0.11") None icmp None None 64 None.

Definition lab_unicast : Packet.t :=
  Packet.mk "pkt-1" "02:00:00:00:00:01" "02:00:00:00:00:02" (Some "10.0.0.10")
    (Some "10.0.0.11") None icmp None None 64 None.

Definition lab_routed : Packet.t :=
  Packet.mk "pkt-2" "02:00:00:00:00:01" "02:00:00:00:20:00" (Some "10.0.0.10")
    (Some "192.168.5.5") None icmp None None 64 None.

Definition lab_entry : MacTableEntry.t := MacTableEntry.mk "02:00:00:00:00:02" "p2" 10 0.

Definition lab_table : MacTable := {[ "02:00:00:00:00:02-10" := lab_entry ]}.

(** The path search of the graph library is outside the repository; for the
    runs below it answers with the two ends. *)
Definition lab_path (g : Graph.t) (a b : string) : option (list string) := Some [a; b].

Definition lab_run : option (SimulationResult.t * Simulator.t * Z) :=
  simulate lab_path 100 (Simulator.new lab_topology DEFAULT_SIM_OPTIONS lab_ids)
    (PacketSpec.mk "h1" "h2" None None None None None).

Example lab_run_delivers :
  (fun x => (SimulationResult.success x.1.1, Z.of_nat (length (SimulationResult.trace x.1.1)),
             x.2)) <$> lab_run
  = Some (true, 5, 2).
Proof. vm_compute. reflexivity. Qed.

Lemma getConnectedInterface_symmetric_witness :
  NoDup (link_ends lab_links)
  /\ getConnectedInterface lab_links "h1" "eth0" = Some (Endpoint.mk "sw" "p1")
  /\ getConnectedInterface lab_links "sw" "p1" = Some (Endpoint.mk "h1" "eth0").
Proof.
  assert (Hnd : NoDup (link_ends lab_links)).
  { vm_compute.
    repeat (constructor; [rewrite ?list_elem_of_In; cbn [In]; intuition discriminate|]).
    constructor. }
  assert (Hab : getConnectedInterface lab_links "h1" "eth0" = Some (Endpoint.mk "sw" "p1"))
    by (vm_compute; reflexivity).
  split; [exact Hnd|]. split; [exact Hab|].
  exact (getConnectedInterface_symmetric lab_links "h1" "eth0" _ Hnd Hab).
Defined.

(** The router passes the packet for 192.168.5.5 to the firewall. *)
Definition lab_routed_out : Event.t :=
  Event.mk (Packet.with_srcMac "02:00:00:00:20:01" (Packet.with_ttl 63 lab_routed))
    "fw" "eth0".

Lemma lab_router_emits :
  In lab_routed_out
     (DeviceProcessResult.events
        (processPacket lab_router lab_ids "eth0" lab_routed lab_links 1 None).1.1).
Proof. vm_compute. left. reflexivity. Qed.

Lemma device_events_keep_flow_witness :
  In lab_routed_out
     (DeviceProcessResult.events
        (processPacket lab_router lab_ids "eth0" lab_routed lab_links 1 None).1.1)
  /\ same_flow (Event.packet lab_routed_out) lab_routed.
Proof.
  split; [exact lab_router_emits|].
  exact (device_events_keep_flow lab_router lab_ids "eth0" lab_routed lab_links 1 None
           lab_routed_out lab_router_emits).
Defined.

Lemma device_rewrites_by_class_witness :
  Packet.vlan (Event.packet lab_routed_out) = Packet.vlan lab_routed
  /\ Packet.ttl (Event.packet lab_routed_out) = Packet.ttl lab_routed - 1
  /\ 1 <= Packet.ttl (Event.packet lab_routed_out)
  /\ exists e, In e (Device.interfaces lab_router)
               /\ Packet.srcMac (Event.packet lab_routed_out) = SimInterface.mac e.
Proof.
  exact (device_rewrites_by_class lab_router lab_ids "eth0" lab_routed lab_links 1 None
           lab_routed_out lab_router_emits).
Defined.

(** The switch floods the broadcast of host 1: untagged to host 2, tagged
    with VLAN 10 onto the trunk. *)
Definition lab_flooded_trunk : Event.t :=
  Event.mk (Packet.with_vlan (Some 10) lab_broadcast) "r" "eth0".

Lemma lab_switch_emits :
  In lab_flooded_trunk
     (DeviceProcessResult.events
        (Switch.processPacket (createFromSimNode lab_switch) true lab_ids "p1"
           lab_broadcast lab_links 1 (Some ∅)).1.1).
Proof. vm_compute. right. left. reflexivity. Qed.

Lemma switch_egress_tagging_witness :
  exists iface vlan e,
    Device.getInterface (createFromSimNode lab_switch) "p1" = Some iface
    /\ Switch.resolveVlan lab_broadcast iface = Some vlan /\ vlan <> 0
    /\ In e (Device.interfaces (createFromSimNode lab_switch))
    /\ SimInterface.id e <> "p1"
    /\ getConnectedInterface lab_links (Device.id (createFromSimNode lab_switch))
         (SimInterface.id e)
       = Some (Endpoint.mk (Event.nodeId lab_flooded_trunk)
                 (Event.interfaceId lab_flooded_trunk))
    /\ Event.packet lab_flooded_trunk
       = Packet.with_vlan
           (match SimInterface.portMode e with
            | Some access => None
            | _ => Some vlan
            end) lab_broadcast.
Proof.
  exact (switch_egress_tagging (createFromSimNode lab_switch) true lab_ids "p1"
           lab_broadcast lab_links 1 (Some ∅) lab_flooded_trunk lab_switch_emits).
Defined.

Lemma switch_flood_reaches_every_port_witness :
  isBroadcastMac (Packet.dstMac lab_broadcast) = true
  /\ In lab_flooded_trunk
       (DeviceProcessResult.events
          (Switch.processPacket (createFromSimNode lab_switch) true lab_ids "p1"
             lab_broadcast lab_links 1 (Some ∅)).1.1).
Proof.
  split; [vm_compute; reflexivity|].
  refine (proj2 (switch_flood_reaches_every_port (createFromSimNode lab_switch) true
                   lab_ids "p1" lab_broadcast lab_links 1 (Some ∅) lab_p1 10
                   eq_refl eq_refl (or_introl _))
            lab_p3 (Endpoint.mk "r" "eth0") _ _ _ _).
  - vm_compute. reflexivity.
  - vm_compute. auto.
  - discriminate.
  - apply canEgress_admissible. vm_compute. reflexivity.
  - vm_compute. reflexivity.
Defined.

Lemma switch_unicast_known_witness :
  (length (DeviceProcessResult.events
             (Switch.processPacket (createFromSimNode lab_switch) true lab_ids "p1"
                lab_unicast lab_links 1 (Some lab_table)).1.1) <= 1)%nat
  /\ forall h,
       In h (DeviceProcessResult.trace
               (Switch.processPacket (createFromSimNode lab_switch) true lab_ids "p1"
                  lab_unicast lab_links 1 (Some lab_table)).1.1) ->
       TraceHop.action h <> TraceAction.flood.
Proof.
  assert (Hb : isBroadcastMac (Packet.dstMac lab_unicast)
               || isMulticastMac (Packet.dstMac lab_unicast) = false)
    by (vm_compute; reflexivity).
  assert (Hk : known_port
                 (Switch.processPacket (createFromSimNode lab_switch) true lab_ids "p1"
                    lab_unicast lab_links 1 (Some lab_table))
                 (Packet.dstMac lab_unicast) 10 = Some lab_entry)
    by (vm_compute; reflexivity).
  destruct (switch_unicast_known (createFromSimNode lab_switch) true lab_ids "p1"
              lab_unicast lab_links 1 (Some lab_table) lab_p1 10 lab_entry
              eq_refl eq_refl Hb Hk) as (H1 & _ & H3 & _).
  split; [exact H1|exact H3].
Defined.

(** The firewall allows the ICMP packet and passes it on through its second
    interface, the first one with a link that is not the ingress. *)
Lemma firewall_forwards_via_first_linked_witness :
  Device.getInterface (createFromSimNode lab_firewall) "eth0" <> None
  /\ Firewall.isPacketForFirewall (createFromSimNode lab_firewall) lab_routed = false
  /\ exists e c,
       In e (Device.interfaces (createFromSimNode lab_firewall))
       /\ SimInterface.id e <> "eth0"
       /\ getConnectedInterface lab_links (Device.id (createFromSimNode lab_firewall))
            (SimInterface.id e) = Some c
       /\ DeviceProcessResult.events
            (Firewall.processPacket (createFromSimNode lab_firewall) lab_rules deny "eth0"
               lab_routed lab_links 3)
          = [Event.mk (Packet.with_srcMac (SimInterface.mac e) lab_routed)
               (Endpoint.nodeId c) (Endpoint.interfaceId c)].
Proof.
  assert (Hi : Device.getInterface (createFromSimNode lab_firewall) "eth0" <> None)
    by (vm_compute; discriminate).
  assert (Hf : Firewall.isPacketForFirewall (createFromSimNode lab_firewall) lab_routed
               = false) by (vm_compute; reflexivity).
  split; [exact Hi|]. split; [exact Hf|].
  pose proof (firewall_forwards_via_first_linked (createFromSimNode lab_firewall) lab_rules
                deny "eth0" lab_routed lab_links 3 Hi Hf) as T.
  cbv zeta in T.
  assert (Ha : AclMatch.action (Firewall.matchAclRules lab_rules deny lab_routed) = allow)
    by (vm_compute; reflexivity).
  rewrite Ha in T.
  destruct T as [(l1 & e & l2 & c & E & _ & Hne & Hc & Hev)|(_ & Hev & _)].
  - exists e, c. split; [rewrite E; apply in_elt|]. auto.
  - vm_compute in Hev. discriminate Hev.
Defined.

(** The router has no connected subnet for 192.168.5.5 and follows its static
    route for 192.168.0.0/16. *)
Lemma router_static_fallback_witness :
  Packet.dstIp lab_routed = Some "192.168.5.5"
  /\ In lab_routed_out
       (DeviceProcessResult.events
          (Router.processPacket lab_router lab_routes "eth0" lab_routed lab_links 1)).
Proof.
  split; [reflexivity|].
  refine (proj2 (proj1 (router_static_fallback lab_router lab_routes "eth0" lab_routed
                          lab_links 1 "192.168.5.5" _ _ _ eq_refl _ _)
                   lab_routed_out) _).
  - vm_compute. discriminate.
  - vm_compute. reflexivity.
  - vm_compute. reflexivity.
  - discriminate.
  - intros y Hy Hel. apply eligibleb_spec in Hel.
    destruct Hy as [<-|[<-|[]]]; vm_compute in Hel; discriminate Hel.
  - exists (StaticRoute.mk "192.168.0.0/16" "10.0.1.2" "eth1"), lab_r1,
      (Endpoint.mk "fw" "eth0").
    repeat split; vm_compute; reflexivity.
Defined.

Lemma hostReceive_against_HostDevice_witness :
  host_like (SimNode.type lab_host2)
  /\ BehaviorResult.delivered (HostBehavior.hostReceive lab_host2 "eth0" lab_unicast 2)
     = DeviceProcessResult.delivered
         (processPacket (createFromSimNode lab_host2) lab_ids "eth0" lab_unicast lab_links 2
            None).1.1
  /\ DeviceProcessResult.delivered
       (processPacket (createFromSimNode lab_host2) lab_ids "eth9" lab_broadcast lab_links 2
          None).1.1 = false.
Proof.
  assert (Hh : host_like (SimNode.type lab_host2)) by (left; reflexivity).
  split; [exact Hh|]. split.
  - refine (proj2 (proj2 (proj1 (hostReceive_against_HostDevice lab_host2 lab_ids "eth0"
                                   lab_unicast lab_links 2 None Hh) _))).
    vm_compute. discriminate.
  - refine (proj1 (proj2 (hostReceive_against_HostDevice lab_host2 lab_ids "eth9"
                            lab_broadcast lab_links 2 None Hh) _)).
    vm_compute. reflexivity.
Defined.

Lemma switchProcess_against_SwitchDevice_witness :
  SimNode.type lab_switch = switch
  /\ SwitchBehavior.SwitchBehaviorResult.events
       (SwitchBehavior.switchProcess lab_switch "p1" lab_broadcast lab_links ∅ 1).1
     = DeviceProcessResult.events
         (processPacket (createFromSimNode lab_switch) lab_ids "p1" lab_broadcast lab_links
            1 (Some ∅)).1.1.
Proof.
  split; [reflexivity|].
  exact (proj1 (switchProcess_against_SwitchDevice lab_switch lab_ids "p1" lab_broadcast
                  lab_links 1 ∅ eq_refl)).
Defined.

Lemma firewallProcess_against_FirewallDevice_witness :
  SimNode.type lab_firewall = firewall
  /\ BehaviorResult.events
       (FirewallBehavior.firewallProcess lab_firewall "eth0" lab_routed lab_links 3)
     = DeviceProcessResult.events
         (processPacket (createFromSimNode lab_firewall) lab_ids "eth0" lab_routed
            lab_links 3 None).1.1.
Proof.
  split; [reflexivity|].
  exact (proj1 (firewallProcess_against_FirewallDevice lab_firewall lab_ids "eth0"
                  lab_routed lab_links 3 None eq_refl)).
Defined.

(** The run from host 1 to host 2 is delivered. *)
Lemma lab_run_returns : exists r s' hops, lab_run = Some (r, s', hops).
Proof.
  destruct lab_run as [[[r s'] hops]|] eqn:E; [eauto|].
  vm_compute in E. discriminate E.
Qed.

Lemma C3_simulate_terminates_within_maxHops_witness :
  1 <= SimulationOptions.maxHops DEFAULT_SIM_OPTIONS
  /\ exists r s' hops,
       (forall fuel,
           (100 <= fuel)%nat ->
           simulate lab_path fuel (Simulator.new lab_topology DEFAULT_SIM_OPTIONS lab_ids)
             (PacketSpec.mk "h1" "h2" None None None None None)
           = Some (r, s', hops))
       /\ hops = 2
       /\ EventQueue.time (Simulator.eventQueue s') = hops.
Proof.
  assert (Hmax : 1 <= SimulationOptions.maxHops
                        (Simulator.options
                           (Simulator.new lab_topology DEFAULT_SIM_OPTIONS lab_ids)))
    by (apply Z.leb_le; reflexivity).
  split; [exact Hmax|].
  destruct (C3_simulate_terminates_within_maxHops lab_path
              (Simulator.new lab_topology DEFAULT_SIM_OPTIONS lab_ids)
              (PacketSpec.mk "h1" "h2" None None None None None) Hmax)
    as (r & s' & hops & Hall & _ & Ht).
  exists r, s', hops. split; [exact Hall|]. split; [|exact Ht].
  pose proof lab_run_delivers as D. unfold lab_run in D.
  rewrite (Hall 100%nat (le_n 100)) in D.
  cbn [fmap option_fmap option_map snd] in D. injection D as _ _ D. exact D.
Defined.

Lemma simulate_result_coherent_witness :
  exists r s' hops,
    lab_run = Some (r, s', hops)
    /\ SimulationResult.success r = SimulationResult.delivered r
    /\ SimulationResult.trace r = Simulator.trace s'.
Proof.
  destruct lab_run_returns as (r & s' & hops & E). exists r, s', hops.
  split; [exact E|].
  destruct (simulate_result_coherent lab_path 100
              (Simulator.new lab_topology DEFAULT_SIM_OPTIONS lab_ids)
              (PacketSpec.mk "h1" "h2" None None None None None) r s' hops E)
    as (H1 & _ & _ & H4 & _).
  split; [exact H1|exact H4].
Defined.

Lemma simulate_trace_in_time_order_witness :
  exists r s' hops,
    lab_run = Some (r, s', hops)
    /\ StronglySorted Z.le (TraceHop.time <$> SimulationResult.trace r)
    /\ EventQueue.getTime (Simulator.eventQueue s') = hops.
Proof.
  destruct lab_run_returns as (r & s' & hops & E). exists r, s', hops.
  split; [exact E|].
  destruct (simulate_trace_in_time_order lab_path 100
              (Simulator.new lab_topology DEFAULT_SIM_OPTIONS lab_ids)
              (PacketSpec.mk "h1" "h2" None None None None None) r s' hops E)
    as (H1 & _ & H3).
  split; [exact H1|exact H3].
Defined.

Lemma simulate_keeps_mac_tables_witness :
  exists r s' hops,
    lab_run = Some (r, s', hops)
    /\ Simulator.devices s'
       = Simulator.devices (Simulator.new lab_topology DEFAULT_SIM_OPTIONS lab_ids)
    /\ is_Some (Simulator.macTables s' !! "sw").
Proof.
  destruct lab_run_returns as (r & s' & hops & E). exists r, s', hops.
  split; [exact E|].
  destruct (simulate_keeps_mac_tables lab_path 100
              (Simulator.new lab_topology DEFAULT_SIM_OPTIONS lab_ids)
              (PacketSpec.mk "h1" "h2" None None None None None) r s' hops E)
    as (_ & _ & H3 & _ & H5 & _).
  split; [exact H3|]. apply H5. vm_compute. eauto.
Defined.

Example reads_cidr_shorter : Cidr.reads_cidr "10.0.1.1/16" (Cidr.ip_value 10 0 1 1) 16.
Proof.
  exists "10.0.1.1", "16". split; [vm_compute; reflexivity|].
  split; [|split; [vm_compute; reflexivity|lia]].
  exists 10, 0, 1, 1. unfold Cidr.octet.
  split; [vm_compute; reflexivity|]. repeat split; lia.
Qed.

Lemma ipInSubnet_extremes_and_nesting_witness :
  Cidr.reads_ip "10.0.1.10" (Cidr.ip_value 10 0 1 10)
  /\ Cidr.reads_cidr "10.0.1.1/24" (Cidr.ip_value 10 0 1 1) 24
  /\ ipInSubnet "10.0.1.10" "10.0.1.1/16" = true.
Proof.
  split; [exact reads_ip_ex|]. split; [exact reads_cidr_ex|].
  refine (proj2 (proj2 (ipInSubnet_extremes_and_nesting "10.0.1.10" "10.0.1.1/24" _ _ 24
                          reads_ip_ex reads_cidr_ex))
            "10.0.1.1/16" 16 reads_cidr_shorter _ ipInSubnet_ex1).
  lia.
Defined.

Lemma analyzer_sees_no_neighbours_witness :
  "sw" <> "undefined"
  /\ GraphAnalyzer.getNeighbors (buildGraph lab_topology) "sw" = []
  /\ GraphAnalyzer.areDirectlyConnected (buildGraph lab_topology) "sw" "h1" = false
  /\ In lab_switch (GraphAnalyzer.isolated lab_topology).
Proof.
  assert (Hne : "sw" <> "undefined") by discriminate.
  split; [exact Hne|].
  destruct (analyzer_sees_no_neighbours lab_topology "sw" "h1" Hne)
    as (H1 & H2 & _ & H4).
  split; [exact H1|]. split; [exact H2|].
  apply H4; [right; right; left; reflexivity|reflexivity].
Defined.
